(** * seller-apis: stock and price synchronisation (seller.py, market.py)

    A shallow embedding of the reconciliation, normalisation, chunking and
    pagination code of [seller.py] (Ozon) and [market.py] (Yandex.Market),
    and the properties the specification states about them.

    Conventions of the embedding.
    - A Python [str] is a [string] holding its UTF-8 bytes.  Splitting at
      ["."] and deleting everything outside ['0'..'9'] act on single bytes
      below 128, and every byte of a longer UTF-8 sequence is above 127, so
      both operations commute with the encoding.  [int] reads code points:
      it decodes the bytes, and a byte sequence that encodes no code point
      (which no [str] gives) is read as a character that no numeral has.
    - A Python [int] is a [Z].
    - An exception is the [Raise] case of [result]; the mutable list
      [offer_ids] is a store threaded through the monad [M], which keeps the
      store as it was when an exception left the function. *)

From stdpp Require Import gmap strings list.
From Stdlib Require Import ZArith DecimalString Lia.
From Stdlib Require Import Ascii.
From Stdlib Require DecimalPos DecimalZ.

Local Open Scope Z_scope.

(** ** Python values and exceptions *)

(** The exceptions met in the code: [ValueError] ([int] on a text that is
    no numeral, [range] with a step of 0, [list.remove] of an absent
    element), [TypeError] ([int(None)]), [AttributeError] ([split] on a
    cell that is not text), [IndexError], and the [HTTPError] of
    [raise_for_status]. *)
Inductive exn : Type :=
| ValueError
| TypeError
| AttributeError
| IndexError
| HTTPError.

Inductive result (A : Type) : Type :=
| Ok (a : A)
| Raise (e : exn).

Arguments Ok {A} a.
Arguments Raise {A} e.

Definition is_ok {A : Type} (r : result A) : Prop :=
  match r with Ok _ => True | Raise _ => False end.

(** What a cell of a feed record holds, as far as the code tells the cases
    apart: text, an integer, or [None] (which is also what [dict.get] gives
    for a missing key).  Floating-point cells are outside the embedding. *)
Inductive pyval : Type :=
| VStr (s : string)
| VInt (z : Z)
| VNone.

(** A feed record ([watch]) is a dictionary from column names to cells. *)
Abbreviation dict := (gmap string pyval).

(** [d.get(key)] *)
Definition get (d : dict) (key : string) : pyval :=
  match d !! key with
  | Some v => v
  | None => VNone
  end.

(** [str(v)]; the integers of a spreadsheet are far below the size at
    which the interpreter refuses the conversion. *)
Definition py_str (v : pyval) : string :=
  match v with
  | VStr s => s
  | VInt z => NilZero.string_of_int (Z.to_int z)
  | VNone => "None"
  end.

(** ** Text primitives *)

Definition is_digit (c : ascii) : bool :=
  let n := N_of_ascii c in ((48 <=? n) && (n <=? 57))%N.

(** The blanks the conversion of an ASCII text skips around a numeral
    ([Py_ISSPACE]): TAB..CR and the space. *)
Definition is_space (c : ascii) : bool :=
  let n := N_of_ascii c in (((9 <=? n) && (n <=? 13)) || (n =? 32))%N.

Definition digit_val (c : ascii) : Z := Z.of_N (N_of_ascii c) - 48.

Fixpoint lstrip (s : string) : string :=
  match s with
  | String c t => if is_space c then lstrip t else s
  | EmptyString => EmptyString
  end.

(** The digits of a numeral after its first digit: digits, each optionally
    preceded by one underscore.  Gives the value read, the number of digits
    read and the unread rest, or [None] for an underscore that no digit
    follows. *)
Fixpoint digits (acc count : Z) (s : string) : option (Z * Z * string) :=
  match s with
  | String c t =>
      if is_digit c then digits (10 * acc + digit_val c) (count + 1) t
      else if Ascii.eqb c "_" then
        match t with
        | String d t' =>
            if is_digit d then digits (10 * acc + digit_val d) (count + 1) t'
            else None
        | EmptyString => None
        end
      else Some (acc, count, s)
  | EmptyString => Some (acc, count, EmptyString)
  end.

(** The interpreter's default limit on the digits of a numeral that [int]
    converts ([sys.int_info.default_max_str_digits]). *)
Definition max_str_digits : Z := 4300.

(** A numeral and the blanks after it, up to the end of the text. *)
Definition numeral (sign : Z) (s : string) : result Z :=
  match s with
  | String c t =>
      if is_digit c then
        match digits (digit_val c) 1 t with
        | Some (v, count, rest) =>
            match lstrip rest with
            | EmptyString =>
                if max_str_digits <? count then Raise ValueError else Ok (sign * v)
            | String _ _ => Raise ValueError
            end
        | None => Raise ValueError
        end
      else Raise ValueError
  | EmptyString => Raise ValueError
  end.

(** The conversion of an ASCII text, base 10 ([PyLong_FromString]):
    blanks, an optional sign, a numeral, blanks. *)
Definition long_from_string (s : string) : result Z :=
  match lstrip s with
  | String c t =>
      if Ascii.eqb c "+" then numeral 1 t
      else if Ascii.eqb c "-" then numeral (-1) t
      else numeral 1 (String c t)
  | EmptyString => Raise ValueError
  end.

Definition byte (c : ascii) : Z := Z.of_N (N_of_ascii c).

Definition is_continuation (c : ascii) : bool := (128 <=? byte c) && (byte c <? 192).

(** The code point a UTF-8 sequence gives, or [-1] when a shorter
    sequence encodes it or it lies beyond U+10FFFF. *)
Definition scalar (least cp : Z) : Z :=
  if (least <=? cp) && (cp <=? 1114111) then cp else -1.

(** The code points of a text, from its UTF-8 bytes.  Bytes that encode no
    code point end the list with [-1]. *)
Fixpoint code_points (s : string) : list Z :=
  match s with
  | EmptyString => []
  | String c t =>
      if byte c <? 128 then byte c :: code_points t
      else
        match t with
        | String c1 t1 =>
            if (192 <=? byte c) && (byte c <? 224) && is_continuation c1 then
              scalar 128 ((byte c - 192) * 64 + (byte c1 - 128)) :: code_points t1
            else
              match t1 with
              | String c2 t2 =>
                  if (224 <=? byte c) && (byte c <? 240)
                     && is_continuation c1 && is_continuation c2 then
                    scalar 2048 ((byte c - 224) * 4096 + (byte c1 - 128) * 64
                                 + (byte c2 - 128)) :: code_points t2
                  else
                    match t2 with
                    | String c3 t3 =>
                        if (240 <=? byte c) && (byte c <? 248) && is_continuation c1
                           && is_continuation c2 && is_continuation c3 then
                          scalar 65536 ((byte c - 240) * 262144 + (byte c1 - 128) * 4096
                                        + (byte c2 - 128) * 64 + (byte c3 - 128))
                            :: code_points t3
                        else [-1]
                    | EmptyString => [-1]
                    end
              | EmptyString => [-1]
              end
        | EmptyString => [-1]
        end
  end.

(** The white space of Unicode above U+007F ([Py_UNICODE_ISSPACE]): NEL,
    the no-break space, the Ogham space mark, U+2000..U+200A, the line and
    paragraph separators, the narrow no-break space, the medium
    mathematical space and the ideographic space. *)
Definition unicode_spaces : list Z :=
  [133; 160; 5760; 8192; 8193; 8194; 8195; 8196; 8197; 8198; 8199; 8200; 8201; 8202;
   8232; 8233; 8239; 8287; 12288].

(** The digit zero of each run of ten decimal digits of Unicode 14.0
    above U+007F, the tables of Python 3.11 (Arabic-Indic U+0660,
    Devanagari U+0966, fullwidth U+FF10, ...); [Py_UNICODE_TODECIMAL]
    gives the distance to the zero of the run. *)
Definition unicode_zeros : list Z :=
  [1632; 1776; 1984; 2406; 2534; 2662; 2790; 2918; 3046; 3174; 3302; 3430; 3558; 3664;
   3792; 3872; 4160; 4240; 6112; 6160; 6470; 6608; 6784; 6800; 6992; 7088; 7232; 7248;
   42528; 43216; 43264; 43472; 43504; 43600; 44016; 65296; 66720; 68912; 69734; 69872;
   69942; 70096; 70384; 70736; 70864; 71248; 71360; 71472; 71904; 72016; 72784; 73040;
   73120; 92768; 92864; 93008; 120782; 120792; 120802; 120812; 120822; 123200; 123632;
   125264; 130032].

Definition is_unicode_space (ch : Z) : bool := existsb (Z.eqb ch) unicode_spaces.

Definition to_decimal (ch : Z) : option Z :=
  match List.find (fun zero => (zero <=? ch) && (ch <? zero + 10)) unicode_zeros with
  | Some zero => Some (ch - zero)
  | None => None
  end.

Definition chr (n : Z) : ascii := ascii_of_N (Z.to_N n).

(** What [int] makes of a text that is not ASCII before converting it
    ([_PyUnicode_TransformDecimalAndSpaceToASCII]): a code point below 127
    stays, white space becomes a space, a decimal digit becomes its ASCII
    digit, and anything else becomes ["?"] and ends the text. *)
Fixpoint transform_decimal_and_space (text : list Z) : string :=
  match text with
  | [] => EmptyString
  | ch :: rest =>
      if (0 <=? ch) && (ch <? 127) then String (chr ch) (transform_decimal_and_space rest)
      else if is_unicode_space ch then String " " (transform_decimal_and_space rest)
      else
        match to_decimal ch with
        | Some decimal => String (chr (48 + decimal)) (transform_decimal_and_space rest)
        | None => "?"
        end
  end.

Definition is_ascii (s : string) : bool :=
  forallb (fun c => byte c <? 128) (String.list_ascii_of_string s).

(** [int(s)] for a text [s], base 10 ([PyLong_FromUnicodeObject]): an
    ASCII text is converted as it is, any other text after
    [transform_decimal_and_space]. *)
Definition py_int_str (s : string) : result Z :=
  long_from_string
    (if is_ascii s then s else transform_decimal_and_space (code_points s)).

(** [int(v)] *)
Definition py_int (v : pyval) : result Z :=
  match v with
  | VStr s => py_int_str s
  | VInt z => Ok z
  | VNone => Raise TypeError
  end.

(** [s.split(sep)] for a separator of one character. *)
Fixpoint py_split (sep : ascii) (s : string) : list string :=
  match s with
  | EmptyString => [EmptyString]
  | String c t =>
      if Ascii.eqb c sep then EmptyString :: py_split sep t
      else
        match py_split sep t with
        | h :: r => String c h :: r
        | [] => [String c EmptyString]
        end
  end.

(** [l[0]] *)
Definition first_item {A : Type} (l : list A) : result A :=
  match l with
  | x :: _ => Ok x
  | [] => Raise IndexError
  end.

(** [re.sub("[^0-9]", "", s)]: every character outside ['0'..'9'] is
    replaced by the empty text. *)
Fixpoint re_sub_non_digit (s : string) : string :=
  match s with
  | EmptyString => EmptyString
  | String c t =>
      if is_digit c then String c (re_sub_non_digit t) else re_sub_non_digit t
  end.

(** seller.py, [price_conversion]:
    [return re.sub("[^0-9]", "", price.split(".")[0])].
    A cell that is not text has no [split]. *)
Definition price_conversion (price : pyval) : result string :=
  match price with
  | VStr s =>
      match first_item (py_split "." s) with
      | Ok p => Ok (re_sub_non_digit p)
      | Raise e => Raise e
      end
  | _ => Raise AttributeError
  end.

(** ** Ranges, slices and [divide] *)

(** [list(range(start, stop, step))] *)
Definition py_range (start stop step : Z) : result (list Z) :=
  if step =? 0 then Raise ValueError
  else
    let n :=
      if 0 <? step then
        (if start <? stop then (stop - start - 1) / step + 1 else 0)
      else
        (if stop <? start then (start - stop - 1) / (- step) + 1 else 0) in
    Ok (map (fun k : nat => start + Z.of_nat k * step) (seq 0 (Z.to_nat n))).

(** A slice bound brought into [0..len]: a negative one counts from the end. *)
Definition clamp_index (len i : Z) : Z :=
  if i <? 0 then Z.max 0 (i + len) else Z.min i len.

(** [l[lo:hi]] *)
Definition py_slice {A : Type} (l : list A) (lo hi : Z) : list A :=
  let len := Z.of_nat (length l) in
  let a := clamp_index len lo in
  let b := clamp_index len hi in
  take (Z.to_nat (b - a)) (drop (Z.to_nat a) l).

(** seller.py, [divide], drained as every call site does with
    [list(divide(lst, n))]:
    [for i in range(0, len(lst), n): yield lst[i : i + n]].
    The generator raises what [range] raises when it is first advanced. *)
Definition divide {A : Type} (lst : list A) (n : Z) : result (list (list A)) :=
  match py_range 0 (Z.of_nat (length lst)) n with
  | Ok idx => Ok (map (fun i => py_slice lst i (i + n)) idx)
  | Raise e => Raise e
  end.

(** The number of chunks of [divide] for a positive size: none for the
    empty list, else [(len - 1) / n + 1]. *)
Definition chunk_count {A : Type} (lst : list A) (n : Z) : nat :=
  Z.to_nat (if 0 <? Z.of_nat (length lst)
            then (Z.of_nat (length lst) - 1) / n + 1 else 0).

(** ** The shared list [offer_ids] and the monad of the reconcilers *)

(** A computation reads and updates the list object bound to [offer_ids]
    and ends with a value or an exception; the list stays as the
    computation left it in both cases. *)
Definition M (A : Type) : Type := list string -> result A * list string.

Definition ret {A : Type} (a : A) : M A := fun ids => (Ok a, ids).

Definition bind {A B : Type} (m : M A) (k : A -> M B) : M B :=
  fun ids =>
    match m ids with
    | (Ok a, ids') => k a ids'
    | (Raise e, ids') => (Raise e, ids')
    end.

Notation "'let*' x ':=' m 'in' k" := (bind m (fun x => k))
  (at level 10, x name, m at level 100, k at level 200).

(** A pure step that may raise. *)
Definition lift {A : Type} (r : result A) : M A := fun ids => (r, ids).

(** [x in offer_ids] *)
Definition contains (x : string) : M bool :=
  fun ids => (Ok (bool_decide (x ∈ ids)), ids).

(** The list without the first occurrence of [x], if there is one. *)
Fixpoint remove_first (x : string) (l : list string) : option (list string) :=
  match l with
  | [] => None
  | y :: t =>
      if String.eqb y x then Some t
      else match remove_first x t with
           | Some t' => Some (y :: t')
           | None => None
           end
  end.

(** [offer_ids.remove(x)] *)
Definition remove (x : string) : M unit :=
  fun ids =>
    match remove_first x ids with
    | Some ids' => (Ok tt, ids')
    | None => (Raise ValueError, ids)
    end.

(** The elements a [for] over [offer_ids] visits. *)
Definition read : M (list string) := fun ids => (Ok ids, ids).

(** [for x in xs: acc = body(x, acc)] *)
Fixpoint for_each {A S : Type} (body : A -> S -> M S) (xs : list A) (acc : S) : M S :=
  match xs with
  | [] => ret acc
  | x :: xs' => let* acc' := body x acc in for_each body xs' acc'
  end.

(** ** Quantity texts *)

(** seller.py lines 199-205 and market.py lines 174-180, on the cell
    [watch.get("Количество")]: the sentinels are tested on [str] of the
    cell, [int] is applied to the cell itself. *)
Definition normalize_quantity (quantity : pyval) : result Z :=
  let count := py_str quantity in
  if String.eqb count ">10" then Ok 100
  else if String.eqb count "1" then Ok 0
  else py_int quantity.

(** The code of a feed record as the reconcilers compare it:
    [str(watch.get("Код"))]. *)
Definition code_of (watch : dict) : string := py_str (get watch "Код").

(** ** The two stock loops, over the dictionary literal they append *)

Section Reconcile.
Context {R : Type}.
(** The dictionary appended for an identifier and a stock level. *)
Variable entry : string -> Z -> R.

Definition stocks_body (watch : dict) (stocks : list R) : M (list R) :=
  let* found := contains (py_str (get watch "Код")) in
  if (found : bool) then
    let* stock := lift (normalize_quantity (get watch "Количество")) in
    let stocks := stocks ++ [entry (py_str (get watch "Код")) stock] in
    let* _ := remove (py_str (get watch "Код")) in
    ret stocks
  else ret stocks.

Definition create_stocks_with (watch_remnants : list dict) : M (list R) :=
  let* stocks := for_each stocks_body watch_remnants [] in
  let* offer_ids := read in
  ret (foldl (fun stocks offer_id => stocks ++ [entry offer_id 0]) stocks offer_ids).
End Reconcile.

(** ** Sending chunks and filtering *)

(** [for chunk in chunks: call(chunk)] for a call whose answer is dropped.
    [log] holds the calls made so far, the failing one included; the
    answer to a call may depend on the calls made before it. *)
Fixpoint send_all {Q A : Type} (call : list Q -> list A -> result unit)
    (mk : list A -> Q) (chunks : list (list A)) (log : list Q)
    : result unit * list Q :=
  match chunks with
  | [] => (Ok tt, log)
  | chunk :: chunks' =>
      match call log chunk with
      | Ok _ => send_all call mk chunks' (log ++ [mk chunk])
      | Raise e => (Raise e, log ++ [mk chunk])
      end
  end.

(** [list(filter(p, l))] for a predicate that may raise. *)
Fixpoint py_filter {A : Type} (p : A -> result bool) (l : list A) : result (list A) :=
  match l with
  | [] => Ok []
  | x :: l' =>
      match p x with
      | Raise e => Raise e
      | Ok b =>
          match py_filter p l' with
          | Raise e => Raise e
          | Ok r => Ok (if b then x :: r else r)
          end
      end
  end.

(** ** seller.py *)

Module Seller.

(** [{"offer_id": ..., "stock": ...}] *)
Record stock_entry : Type := { offer_id : string; stock : Z }.

(** The dictionary [create_prices] builds. *)
Record price_entry : Type := {
  auto_action_enabled : string;
  currency_code : string;
  price_offer_id : string;
  old_price : string;
  price : string
}.

Definition create_stocks (watch_remnants : list dict) : M (list stock_entry) :=
  let* stocks :=
    for_each
      (fun watch stocks =>
         let* found := contains (py_str (get watch "Код")) in
         if (found : bool) then
           let* stock := lift (normalize_quantity (get watch "Количество")) in
           let stocks :=
             stocks ++ [{| offer_id := py_str (get watch "Код"); stock := stock |}] in
           let* _ := remove (py_str (get watch "Код")) in
           ret stocks
         else ret stocks)
      watch_remnants [] in
  let* offer_ids := read in
  ret (foldl (fun stocks offer_id => stocks ++ [{| offer_id := offer_id; stock := 0 |}])
         stocks offer_ids).

Definition create_prices (watch_remnants : list dict) : M (list price_entry) :=
  for_each
    (fun watch prices =>
       let* found := contains (py_str (get watch "Код")) in
       if (found : bool) then
         let* converted := lift (price_conversion (get watch "Цена")) in
         let price := {|
           auto_action_enabled := "UNKNOWN";
           currency_code := "RUB";
           price_offer_id := py_str (get watch "Код");
           old_price := "0";
           price := converted
         |} in
         ret (prices ++ [price])
       else ret prices)
    watch_remnants [].

(** An item of a catalogue page; [offer_id] is all the code reads of it. *)
Record product : Type := { product_offer_id : string }.

(** The ["result"] object of a catalogue response. *)
Record page : Type := { page_items : list product; total : Z; last_id : string }.

Section Paginator.
(** [get_product_list(last_id, client_id, seller_token)] with the
    credentials fixed: the answer to request number [k] (from 0), which
    may depend on the cursor sent, or the exception the request ends
    with. *)
Variable get_product_list : nat -> string -> result page.

(** The [while True] loop of [get_offer_ids], with [calls] requests
    already made.  [fuel] bounds the number of further requests; [None]
    means the bound was reached with the loop still running.  The
    second component of the outcome counts the requests made. *)
Fixpoint fetch_loop (fuel calls : nat) (last_id : string)
    (product_list : list product) : option (result (list product) * nat) :=
  match fuel with
  | O => None
  | S fuel' =>
      match get_product_list calls last_id with
      | Raise e => Some (Raise e, S calls)
      | Ok some_prod =>
          let product_list := product_list ++ page_items some_prod in
          if total some_prod =? Z.of_nat (length product_list)
          then Some (Ok product_list, S calls)
          else fetch_loop fuel' (S calls) (Seller.last_id some_prod) product_list
      end
  end.

(** seller.py, [get_offer_ids]: the loop, then the [offer_id] of every
    product fetched. *)
Definition get_offer_ids (fuel : nat) : option (result (list string) * nat) :=
  match fetch_loop fuel 0 "" [] with
  | Some (Ok product_list, calls) =>
      Some (Ok (foldl (fun offer_ids product => offer_ids ++ [product_offer_id product])
                  [] product_list), calls)
  | Some (Raise e, calls) => Some (Raise e, calls)
  | None => None
  end.

(** The page stream of a run, whether or not the loop gets that far:
    everything fetched by requests [0..k] and the answer to request
    [k]. *)
Fixpoint fetched (k : nat) : result (list product * page) :=
  match k with
  | O =>
      match get_product_list 0%nat "" with
      | Ok p => Ok (page_items p, p)
      | Raise e => Raise e
      end
  | S j =>
      match fetched j with
      | Ok (items, p) =>
          match get_product_list (S j) (Seller.last_id p) with
          | Ok p' => Ok (items ++ page_items p', p')
          | Raise e => Raise e
          end
      | Raise e => Raise e
      end
  end.

(** After request [k] the cumulative number of items is below, or
    equal to, the total that request reported. *)
Definition below_total (k : nat) : Prop :=
  exists items p, fetched k = Ok (items, p) /\ Z.of_nat (length items) < total p.

Definition at_total (k : nat) : Prop :=
  exists items p, fetched k = Ok (items, p) /\ Z.of_nat (length items) = total p.

(** After request [k] the loop goes on: the counts differ. *)
Definition running (k : nat) : Prop :=
  exists items p, fetched k = Ok (items, p) /\ total p <> Z.of_nat (length items).
End Paginator.

(** A call of [update_stocks] or [update_price], with the list it sends. *)
Inductive request : Type :=
| UpdateStocks (stocks : list stock_entry)
| UpdatePrice (prices : list price_entry).

Section Upload.
(** The collaborators, credentials fixed: the catalogue pages as in
    [Paginator]; the two update calls, whose answer is dropped by every
    caller and may depend on the calls made before; the feed download. *)
Variable get_product_list : nat -> string -> result page.
Variable update_stocks : list request -> list stock_entry -> result unit.
Variable update_price : list request -> list price_entry -> result unit.
Variable download_stock : result (list dict).

(** seller.py, [upload_prices], as it runs when awaited.  The outcome
    comes with the update calls made. *)
Definition upload_prices (fuel : nat) (watch_remnants : list dict)
    : option (result (list price_entry) * list request) :=
  match get_offer_ids get_product_list fuel with
  | None => None
  | Some (Raise e, _) => Some (Raise e, [])
  | Some (Ok offer_ids, _) =>
      match create_prices watch_remnants offer_ids with
      | (Raise e, _) => Some (Raise e, [])
      | (Ok prices, _) =>
          match divide prices 1000 with
          | Raise e => Some (Raise e, [])
          | Ok chunks =>
              match send_all update_price UpdatePrice chunks [] with
              | (Raise e, log) => Some (Raise e, log)
              | (Ok _, log) => Some (Ok prices, log)
              end
          end
      end
  end.

(** seller.py, [upload_stocks], as it runs when awaited. *)
Definition upload_stocks (fuel : nat) (watch_remnants : list dict)
    : option (result (list stock_entry * list stock_entry) * list request) :=
  match get_offer_ids get_product_list fuel with
  | None => None
  | Some (Raise e, _) => Some (Raise e, [])
  | Some (Ok offer_ids, _) =>
      match create_stocks watch_remnants offer_ids with
      | (Raise e, _) => Some (Raise e, [])
      | (Ok stocks, _) =>
          match divide stocks 100 with
          | Raise e => Some (Raise e, [])
          | Ok chunks =>
              match send_all update_stocks UpdateStocks chunks [] with
              | (Raise e, log) => Some (Raise e, log)
              | (Ok _, log) =>
                  let not_empty := filter (fun stock => Seller.stock stock <> 0) stocks in
                  Some (Ok (not_empty, stocks), log)
              end
          end
      end
  end.

(** seller.py, [main], with the environment variables read: the [try]
    block and the update calls it makes.  An exception that ends the block
    is caught and printed by one of the handlers, so that it is the
    outcome here and [main] itself returns. *)
Definition main (fuel : nat) : option (result unit * list request) :=
  match get_offer_ids get_product_list fuel with
  | None => None
  | Some (Raise e, _) => Some (Raise e, [])
  | Some (Ok offer_ids, _) =>
      match download_stock with
      | Raise e => Some (Raise e, [])
      | Ok watch_remnants =>
          match create_stocks watch_remnants offer_ids with
          | (Raise e, _) => Some (Raise e, [])
          | (Ok stocks, offer_ids) =>
              (* from here on [offer_ids] is the list as [create_stocks] left it *)
              match divide stocks 100 with
              | Raise e => Some (Raise e, [])
              | Ok chunks =>
                  match send_all update_stocks UpdateStocks chunks [] with
                  | (Raise e, log) => Some (Raise e, log)
                  | (Ok _, log) =>
                      match create_prices watch_remnants offer_ids with
                      | (Raise e, _) => Some (Raise e, log)
                      | (Ok prices, _) =>
                          match divide prices 900 with
                          | Raise e => Some (Raise e, log)
                          | Ok chunks => Some (send_all update_price UpdatePrice chunks log)
                          end
                      end
                  end
              end
          end
      end
  end.
End Upload.

End Seller.

(** ** market.py *)

Module Market.

(** An element of ["items"]. *)
Record item : Type := { count : Z; type : string; updatedAt : string }.

(** The dictionary [create_stocks] appends. *)
Record stock_entry : Type := { sku : string; warehouseId : string; items : list item }.

(** The inner dictionary of a price. *)
Record price_value : Type := { value : Z; currencyId : string }.

(** The dictionary [create_prices] builds. *)
Record price_entry : Type := { id : string; price : price_value }.

(** [date] stands for the text computed once from the clock before the
    loops. *)
Definition create_stocks (date : string) (watch_remnants : list dict)
    (warehouse_id : string) : M (list stock_entry) :=
  let* stocks :=
    for_each
      (fun watch stocks =>
         let* found := contains (py_str (get watch "Код")) in
         if (found : bool) then
           let* stock := lift (normalize_quantity (get watch "Количество")) in
           let stocks :=
             stocks ++ [{|
               sku := py_str (get watch "Код");
               warehouseId := warehouse_id;
               items := [{| count := stock; type := "FIT"; updatedAt := date |}]
             |}] in
           let* _ := remove (py_str (get watch "Код")) in
           ret stocks
         else ret stocks)
      watch_remnants [] in
  let* offer_ids := read in
  ret (foldl
         (fun stocks offer_id =>
            stocks ++ [{|
              sku := offer_id;
              warehouseId := warehouse_id;
              items := [{| count := 0; type := "FIT"; updatedAt := date |}]
            |}])
         stocks offer_ids).

Definition create_prices (watch_remnants : list dict) : M (list price_entry) :=
  for_each
    (fun watch prices =>
       let* found := contains (py_str (get watch "Код")) in
       if (found : bool) then
         let* converted := lift (price_conversion (get watch "Цена")) in
         let* number := lift (py_int_str converted) in
         let price := {|
           id := py_str (get watch "Код");
           price := {| value := number; currencyId := "RUR" |}
         |} in
         ret (prices ++ [price])
       else ret prices)
    watch_remnants [].

(** An element of ["offerMappingEntries"]: [shopSku] of its ["offer"] is
    all the code reads of it. *)
Record mapping : Type := { shopSku : string }.

(** The ["result"] object of a catalogue response, with the
    ["nextPageToken"] of its ["paging"]: [None] when there is no such
    key. *)
Record offers_page : Type := {
  offerMappingEntries : list mapping;
  nextPageToken : option string
}.

(** [not page] for what [.get("nextPageToken")] gives. *)
Definition py_not (page : option string) : bool :=
  match page with
  | Some (String _ _) => false
  | Some EmptyString => true
  | None => true
  end.

(** A call of [update_stocks] or [update_price], with the list it sends. *)
Inductive request : Type :=
| UpdateStocks (stocks : list stock_entry)
| UpdatePrice (prices : list price_entry).

Section Campaign.
(** The collaborators for one campaign, token fixed: the answer to
    request number [k] (from 0) for the page token sent, which is the text
    [""] at first and then what the answer before gave; and the two update
    calls as in [Seller]. *)
Variable get_product_list : nat -> option string -> result offers_page.
Variable update_stocks : list request -> list stock_entry -> result unit.
Variable update_price : list request -> list price_entry -> result unit.

(** The [while True] loop of [get_offer_ids]; [fuel], [calls] and the
    outcome as in [Seller.fetch_loop]. *)
Fixpoint fetch_loop (fuel calls : nat) (page : option string)
    (product_list : list mapping) : option (result (list mapping) * nat) :=
  match fuel with
  | O => None
  | S fuel' =>
      match get_product_list calls page with
      | Raise e => Some (Raise e, S calls)
      | Ok some_prod =>
          let product_list := product_list ++ offerMappingEntries some_prod in
          let page := nextPageToken some_prod in
          if py_not page then Some (Ok product_list, S calls)
          else fetch_loop fuel' (S calls) page product_list
      end
  end.

(** market.py, [get_offer_ids]. *)
Definition get_offer_ids (fuel : nat) : option (result (list string) * nat) :=
  match fetch_loop fuel 0 (Some EmptyString) [] with
  | Some (Ok product_list, calls) =>
      Some (Ok (foldl (fun offer_ids product => offer_ids ++ [shopSku product])
                  [] product_list), calls)
  | Some (Raise e, calls) => Some (Raise e, calls)
  | None => None
  end.

(** The page stream of a run, whether or not the loop gets that far:
    everything fetched by requests [0..k] and the answer to request [k],
    each request sending the token of the answer before it. *)
Fixpoint fetched (k : nat) : result (list mapping * offers_page) :=
  match k with
  | O =>
      match get_product_list 0%nat (Some EmptyString) with
      | Ok p => Ok (offerMappingEntries p, p)
      | Raise e => Raise e
      end
  | S j =>
      match fetched j with
      | Ok (items, p) =>
          match get_product_list (S j) (nextPageToken p) with
          | Ok p' => Ok (items ++ offerMappingEntries p', p')
          | Raise e => Raise e
          end
      | Raise e => Raise e
      end
  end.

(** The answer to request [k] carries a token to go on with. *)
Definition has_next (k : nat) : Prop :=
  exists items p, fetched k = Ok (items, p) /\ py_not (nextPageToken p) = false.

(** [stock.get("items")[0].get("count") != 0] *)
Definition count_not_zero (stock : stock_entry) : result bool :=
  match items stock with
  | item :: _ => Ok (negb (count item =? 0))
  | [] => Raise IndexError
  end.

(** market.py, [upload_prices], as it runs when awaited. *)
Definition upload_prices (fuel : nat) (watch_remnants : list dict)
    : option (result (list price_entry) * list request) :=
  match get_offer_ids fuel with
  | None => None
  | Some (Raise e, _) => Some (Raise e, [])
  | Some (Ok offer_ids, _) =>
      match create_prices watch_remnants offer_ids with
      | (Raise e, _) => Some (Raise e, [])
      | (Ok prices, _) =>
          match divide prices 500 with
          | Raise e => Some (Raise e, [])
          | Ok chunks =>
              match send_all update_price UpdatePrice chunks [] with
              | (Raise e, log) => Some (Raise e, log)
              | (Ok _, log) => Some (Ok prices, log)
              end
          end
      end
  end.

(** market.py, [upload_stocks], as it runs when awaited. *)
Definition upload_stocks (date : string) (fuel : nat) (watch_remnants : list dict)
    (warehouse_id : string)
    : option (result (list stock_entry * list stock_entry) * list request) :=
  match get_offer_ids fuel with
  | None => None
  | Some (Raise e, _) => Some (Raise e, [])
  | Some (Ok offer_ids, _) =>
      match create_stocks date watch_remnants warehouse_id offer_ids with
      | (Raise e, _) => Some (Raise e, [])
      | (Ok stocks, _) =>
          match divide stocks 2000 with
          | Raise e => Some (Raise e, [])
          | Ok chunks =>
              match send_all update_stocks UpdateStocks chunks [] with
              | (Raise e, log) => Some (Raise e, log)
              | (Ok _, log) =>
                  match py_filter count_not_zero stocks with
                  | Raise e => Some (Raise e, log)
                  | Ok not_empty => Some (Ok (not_empty, stocks), log)
                  end
              end
          end
      end
  end.
End Campaign.

Section Main.
(** The collaborators of [main], token fixed: the catalogue pages of a
    campaign, the call of [update_stocks] for a campaign, whose answer may
    depend on the calls made before, and the feed download; the four
    identifiers read from the environment; the text the clock gives in
    each of the two [create_stocks]. *)
Variable get_product_list : string -> nat -> option string -> result offers_page.
Variable update_stocks :
  list (string * request) -> string -> list stock_entry -> result unit.
Variable download_stock : result (list dict).
Variables campaign_fbs_id campaign_dbs_id warehouse_fbs_id warehouse_dbs_id : string.
Variables date_fbs date_dbs : string.

(** The block [main] has twice, for FBS and for DBS: the catalogue of the
    campaign, [create_stocks] for the warehouse, and the chunks of 2000
    sent in turn.  [log] holds the calls made so far, each with its
    campaign. *)
Definition update_campaign_stocks (campaign_id warehouse_id date : string)
    (fuel : nat) (watch_remnants : list dict) (log : list (string * request))
    : option (result unit * list (string * request)) :=
  match get_offer_ids (get_product_list campaign_id) fuel with
  | None => None
  | Some (Raise e, _) => Some (Raise e, log)
  | Some (Ok offer_ids, _) =>
      match create_stocks date watch_remnants warehouse_id offer_ids with
      | (Raise e, _) => Some (Raise e, log)
      | (Ok stocks, _) =>
          match divide stocks 2000 with
          | Raise e => Some (Raise e, log)
          | Ok chunks =>
              Some (send_all (fun log some_stock => update_stocks log campaign_id some_stock)
                      (fun some_stock => (campaign_id, UpdateStocks some_stock))
                      chunks log)
          end
      end
  end.

(** market.py, [main], with the environment variables read.  The feed is
    downloaded before the [try] block, so that its exception leaves
    [main]: the outer [Raise].  An exception that ends the [try] block is
    caught and printed: the inner [Raise].  [upload_prices] is an
    [async def] that [main] calls without awaiting it, which builds a
    coroutine and runs none of its body: the two calls contribute
    nothing. *)
Definition main (fuel : nat)
    : option (result (result unit) * list (string * request)) :=
  match download_stock with
  | Raise e => Some (Raise e, [])
  | Ok watch_remnants =>
      match update_campaign_stocks campaign_fbs_id warehouse_fbs_id date_fbs
              fuel watch_remnants [] with
      | None => None
      | Some (Raise e, log) => Some (Ok (Raise e), log)
      | Some (Ok _, log) =>
          match update_campaign_stocks campaign_dbs_id warehouse_dbs_id date_dbs
                  fuel watch_remnants log with
          | None => None
          | Some (r, log) => Some (Ok r, log)
          end
      end
  end.
End Main.

End Market.

(** ** The specification's wording of the price normaliser *)

(** The text before the first ["."] (all of it when there is none). *)
Fixpoint integer_part (s : string) : string :=
  match s with
  | EmptyString => EmptyString
  | String c t => if Ascii.eqb c "." then EmptyString else String c (integer_part t)
  end.

(** The ASCII digits of a text, in order. *)
Definition keep_digits (s : string) : string :=
  String.string_of_list_ascii (List.filter is_digit (String.list_ascii_of_string s)).

(** The text holds a ["."]. *)
Definition has_dot (s : string) : Prop := In "."%char (String.list_ascii_of_string s).

(** The value of a text of decimal digits. *)
Definition decimal_value (s : string) : Z :=
  fold_left (fun acc c => 10 * acc + digit_val c) (String.list_ascii_of_string s) 0.

(** Every character of the text is an ASCII digit. *)
Definition all_digits (s : string) : Prop :=
  Forall (fun c => is_digit c = true) (String.list_ascii_of_string s).

(** ** The specification's wording of the quantity parse *)

(** What a code point is to a base-10 numeral. *)
Inductive token : Type :=
| Blank
| Digit (d : Z)
| Plus
| Minus
| Underscore
| Other.

(** White space is TAB..CR, the space and the white space of Unicode
    above U+007F; a digit is ['0'..'9'] or a decimal digit of another
    script, with its value. *)
Definition classify (cp : Z) : token :=
  if ((9 <=? cp) && (cp <=? 13)) || (cp =? 32) || is_unicode_space cp then Blank
  else if (48 <=? cp) && (cp <=? 57) then Digit (cp - 48)
  else if cp =? 43 then Plus
  else if cp =? 45 then Minus
  else if cp =? 95 then Underscore
  else match to_decimal cp with Some d => Digit d | None => Other end.

(** The digits of a numeral after its first one, each of them optionally
    preceded by one underscore, with their values. *)
Inductive more_digits : list token -> list Z -> Prop :=
| more_none : more_digits [] []
| more_digit d ts ds : more_digits ts ds -> more_digits (Digit d :: ts) (d :: ds)
| more_underscore d ts ds :
    more_digits ts ds -> more_digits (Underscore :: Digit d :: ts) (d :: ds).

(** The number that decimal digits write, most significant digit first. *)
Definition value_of (ds : list Z) : Z := foldl (fun a d => 10 * a + d) 0 ds.

(** A numeric text of value [v]: white space, an optional sign, a digit
    followed by [more_digits], white space, and no more digits than the
    interpreter converts. *)
Definition numeric_tokens (ts : list token) (v : Z) : Prop :=
  exists before sign sg d more ds after,
    ts = before ++ sign ++ Digit d :: more ++ after /\
    Forall (eq Blank) before /\ Forall (eq Blank) after /\
    ((sign = [] /\ sg = 1) \/ (sign = [Plus] /\ sg = 1) \/ (sign = [Minus] /\ sg = -1)) /\
    more_digits more ds /\
    Z.of_nat (length (d :: ds)) <= max_str_digits /\
    v = sg * value_of (d :: ds).

Definition numeric (s : string) (v : Z) : Prop :=
  numeric_tokens (classify <$> code_points s) v.

(** What a character of an ASCII text is to [long_from_string]. *)
Definition char_token (c : ascii) : token :=
  if is_space c then Blank
  else if is_digit c then Digit (digit_val c)
  else if Ascii.eqb c "+" then Plus
  else if Ascii.eqb c "-" then Minus
  else if Ascii.eqb c "_" then Underscore
  else Other.

Fixpoint char_tokens (s : string) : list token :=
  match s with
  | EmptyString => []
  | String c t => char_token c :: char_tokens t
  end.

(** A catalogue of three offers served in two pages, the second one for
    the token the first one gave and without a token of its own. *)
Definition sample_market_server (k : nat) (page : option string)
    : result Market.offers_page :=
  match k with
  | O =>
      Ok {| Market.offerMappingEntries := [ {| Market.shopSku := "a" |};
                                           {| Market.shopSku := "b" |} ];
            Market.nextPageToken := Some "t" |}
  | S _ =>
      match page with
      | Some "t" =>
          Ok {| Market.offerMappingEntries := [ {| Market.shopSku := "c" |} ];
                Market.nextPageToken := None |}
      | _ => Raise HTTPError
      end
  end.

(** ** The shape the two catalogue loops share *)

Section Pagination.
Context {C Resp Item : Type}.
(** The answer to request number [k] for the cursor sent; the items and
    the next cursor of an answer; the test that ends the loop, on the
    answer and all items fetched so far; the first cursor. *)
Variable server : nat -> C -> result Resp.
Variable items_of : Resp -> list Item.
Variable cursor_of : Resp -> C.
Variable finished : Resp -> list Item -> bool.
Variable first_cursor : C.

Fixpoint page_loop (fuel calls : nat) (cursor : C) (acc : list Item)
    : option (result (list Item) * nat) :=
  match fuel with
  | O => None
  | S fuel' =>
      match server calls cursor with
      | Raise e => Some (Raise e, S calls)
      | Ok resp =>
          let acc := acc ++ items_of resp in
          if finished resp acc then Some (Ok acc, S calls)
          else page_loop fuel' (S calls) (cursor_of resp) acc
      end
  end.

Fixpoint page_stream (k : nat) : result (list Item * Resp) :=
  match k with
  | O =>
      match server 0%nat first_cursor with
      | Ok resp => Ok (items_of resp, resp)
      | Raise e => Raise e
      end
  | S j =>
      match page_stream j with
      | Ok (acc, resp) =>
          match server (S j) (cursor_of resp) with
          | Ok resp' => Ok (acc ++ items_of resp', resp')
          | Raise e => Raise e
          end
      | Raise e => Raise e
      end
  end.

(** Request [j] was answered and did not end the loop. *)
Definition goes_on (j : nat) : Prop :=
  exists acc resp, page_stream j = Ok (acc, resp) /\ finished resp acc = false.

(** Request [n] ends the loop with outcome [r]: by raising, or by an
    answer that passes the test. *)
Definition ends_with (n : nat) (r : result (list Item)) : Prop :=
  match r with
  | Raise e => page_stream n = Raise e
  | Ok acc => exists resp, page_stream n = Ok (acc, resp) /\ finished resp acc = true
  end.
End Pagination.

(** ** Notions the properties are stated with *)

(** The dictionaries the two [create_stocks] append. *)
Definition seller_stock (id : string) (z : Z) : Seller.stock_entry :=
  {| Seller.offer_id := id; Seller.stock := z |}.

Definition market_stock (warehouse_id date id : string) (z : Z) : Market.stock_entry :=
  {| Market.sku := id;
     Market.warehouseId := warehouse_id;
     Market.items := [{| Market.count := z; Market.type := "FIT"; Market.updatedAt := date |}] |}.

(** Feed records used as samples. *)
Definition sample_watch : dict :=
  {[ "Код" := VStr "A"; "Количество" := VStr ">10"; "Цена" := VStr "1'000.00 р." ]}.

Definition unparsable_watch : dict :=
  {[ "Код" := VStr "A"; "Количество" := VStr "abc"; "Цена" := VStr "" ]}.

Definition listed_watch : dict :=
  {[ "Код" := VStr "a"; "Количество" := VStr "5"; "Цена" := VStr "12.50" ]}.

Definition broken_watch : dict :=
  {[ "Код" := VStr "B"; "Количество" := VStr "n/a"; "Цена" := VStr "990.00" ]}.

(** The dictionaries the two [create_prices] build for a record, or the
    exception the conversion of its price ends with. *)
Definition seller_price (watch : dict) : result Seller.price_entry :=
  match price_conversion (get watch "Цена") with
  | Ok converted =>
      Ok {| Seller.auto_action_enabled := "UNKNOWN";
            Seller.currency_code := "RUB";
            Seller.price_offer_id := py_str (get watch "Код");
            Seller.old_price := "0";
            Seller.price := converted |}
  | Raise e => Raise e
  end.

Definition market_price (watch : dict) : result Market.price_entry :=
  match price_conversion (get watch "Цена") with
  | Ok converted =>
      match py_int_str converted with
      | Ok number =>
          Ok {| Market.id := py_str (get watch "Код");
                Market.price := {| Market.value := number; Market.currencyId := "RUR" |} |}
      | Raise e => Raise e
      end
  | Raise e => Raise e
  end.

(** The loop body the two [create_prices] share, over the dictionary built
    for a record. *)
Definition prices_body {P : Type} (mk : dict -> result P)
    (watch : dict) (prices : list P) : M (list P) :=
  let* found := contains (py_str (get watch "Код")) in
  if (found : bool) then
    let* price := lift (mk watch) in
    ret (prices ++ [price])
  else ret prices.

(** Every record that is the first of the feed with its code, and whose
    code is in the list, has a quantity that normalises. *)
Definition first_matches_normalise (watch : list dict) (ids : list string) : Prop :=
  forall i w, watch !! i = Some w -> code_of w ∈ ids ->
    (forall j w', (j < i)%nat -> watch !! j = Some w' -> code_of w' <> code_of w) ->
    is_ok (normalize_quantity (get w "Количество")).

(** The identifiers of a list that are the code of no record of the feed,
    in the order of the list. *)
Definition unmatched (watch : list dict) (ids : list string) : list string :=
  filter (fun id => id ∉ code_of <$> watch) ids.

(** A catalogue of three items served in two pages; the second page is
    served only for the cursor the first one gave. *)
Definition sample_server (k : nat) (last_id : string) : result Seller.page :=
  match k with
  | O =>
      Ok {| Seller.page_items := [ {| Seller.product_offer_id := "a" |};
                                   {| Seller.product_offer_id := "b" |} ];
            Seller.total := 3; Seller.last_id := "x" |}
  | S _ =>
      if String.eqb last_id "x"
      then Ok {| Seller.page_items := [ {| Seller.product_offer_id := "c" |} ];
                 Seller.total := 3; Seller.last_id := "" |}
      else Raise HTTPError
  end.

(** * Properties *)

(** ** Characters *)

Lemma is_digit_range c :
  is_digit c = true <-> (48 <= N_of_ascii c <= 57)%N.
Proof.
  unfold is_digit. rewrite andb_true_iff, !N.leb_le. tauto.
Qed.

Lemma is_space_range c :
  is_space c = true <-> ((9 <= N_of_ascii c <= 13)%N \/ N_of_ascii c = 32%N).
Proof.
  unfold is_space. rewrite orb_true_iff, !andb_true_iff, !N.leb_le, N.eqb_eq. tauto.
Qed.

Lemma digit_not_space c : is_digit c = true -> is_space c = false.
Proof.
  intros Hd. apply is_digit_range in Hd.
  destruct (is_space c) eqn:Hs; [|done].
  apply is_space_range in Hs. lia.
Qed.

Lemma digit_not_char c d :
  is_digit c = true -> is_digit d = false -> Ascii.eqb c d = false.
Proof.
  intros Hc Hd. destruct (Ascii.eqb c d) eqn:E; [|done].
  apply Ascii.eqb_eq in E. congruence.
Qed.

Lemma digit_val_range c : is_digit c = true -> 0 <= digit_val c <= 9.
Proof. intros H. apply is_digit_range in H. unfold digit_val. lia. Qed.

(** ** [price_conversion] *)

Lemma py_split_head s : exists r, py_split "." s = integer_part s :: r.
Proof.
  induction s as [|c t [r IH]]; simpl.
  - by exists [].
  - destruct (Ascii.eqb c "."); [by eexists|]. rewrite IH. by eexists.
Qed.

Lemma re_sub_non_digit_keep s : re_sub_non_digit s = keep_digits s.
Proof.
  unfold keep_digits. induction s as [|c t IH]; simpl; [done|].
  destruct (is_digit c); simpl; by rewrite IH.
Qed.

Lemma integer_part_no_dot s : ~ has_dot (integer_part s).
Proof.
  unfold has_dot. induction s as [|c t IH]; simpl; [tauto|].
  destruct (Ascii.eqb c ".") eqn:E; simpl; [tauto|].
  intros [->|H]; [|tauto]. by rewrite Ascii.eqb_refl in E.
Qed.

Lemma integer_part_split s :
  s = integer_part s \/ exists rest, s = integer_part s +:+ String "." rest.
Proof.
  induction s as [|c t IH]; simpl; [by left|].
  destruct (Ascii.eqb c ".") eqn:E.
  - apply Ascii.eqb_eq in E as ->. right. by exists t.
  - destruct IH as [IH|[rest IH]].
    + left. f_equal. exact IH.
    + right. exists rest.
      change (String c t = String c (integer_part t +:+ String "." rest)).
      f_equal. exact IH.
Qed.

Lemma integer_part_whole s : ~ has_dot s -> integer_part s = s.
Proof.
  unfold has_dot. induction s as [|c t IH]; simpl; [done|].
  intros H. destruct (Ascii.eqb c ".") eqn:E.
  - apply Ascii.eqb_eq in E as ->. tauto.
  - rewrite IH; [done|tauto].
Qed.

Lemma keep_digits_only s : all_digits (keep_digits s).
Proof.
  unfold all_digits, keep_digits. rewrite String.list_ascii_of_string_of_list_ascii.
  apply List.Forall_forall. intros c Hc. by apply List.filter_In in Hc as [_ ?].
Qed.

Lemma price_conversion_text s :
  price_conversion (VStr s) = Ok (keep_digits (integer_part s)).
Proof.
  unfold price_conversion. destruct (py_split_head s) as [r ->].
  simpl. by rewrite re_sub_non_digit_keep.
Qed.

(** C5: for every text, [price_conversion] gives the ASCII digits of the
    part before the first ["."]: that part has no ["."], and the text is
    it alone or it followed by a ["."] and a rest; the result holds digits
    only; a text without ["."] is treated whole; and the three sample
    prices convert as the specification lists them. *)
Theorem price_conversion_spec (s : string) :
  price_conversion (VStr s) = Ok (keep_digits (integer_part s)) /\
  ~ has_dot (integer_part s) /\
  (s = integer_part s \/ exists rest, s = integer_part s +:+ String "." rest) /\
  all_digits (keep_digits (integer_part s)) /\
  (~ has_dot s -> price_conversion (VStr s) = Ok (keep_digits s)) /\
  price_conversion (VStr "5'990.00 руб.") = Ok "5990" /\
  price_conversion (VStr "") = Ok "" /\
  price_conversion (VStr "123") = Ok "123".
Proof.
  split_and!; try done.
  - apply price_conversion_text.
  - apply integer_part_no_dot.
  - apply integer_part_split.
  - apply keep_digits_only.
  - intros H. by rewrite price_conversion_text, integer_part_whole.
Qed.

Lemma price_conversion_spec_witness :
  ~ has_dot "1 250 р" /\ price_conversion (VStr "1 250 р") = Ok "1250".
Proof.
  assert (H : ~ has_dot "1 250 р").
  { unfold has_dot. simpl. intros H. repeat destruct H as [H|H]; try discriminate H; done. }
  split; [exact H|].
  exact (proj1 (proj2 (proj2 (proj2 (proj2 (price_conversion_spec "1 250 р"))))) H).
Defined.

(** ** [int] on texts and the quantity sentinels *)

Lemma digits_all_digits t : forall acc count,
  all_digits t ->
  digits acc count t =
    Some (fold_left (fun a c => 10 * a + digit_val c) (String.list_ascii_of_string t) acc,
          count + Z.of_nat (String.length t), EmptyString).
Proof.
  unfold all_digits. induction t as [|c t IH]; intros acc count H.
  - simpl. by rewrite Z.add_0_r.
  - simpl in H. apply Forall_cons in H as [Hc Ht].
    change (digits acc count (String c t)) with
      (if is_digit c then digits (10 * acc + digit_val c) (count + 1) t
       else if Ascii.eqb c "_" then
         match t with
         | String d t' =>
             if is_digit d then digits (10 * acc + digit_val d) (count + 1) t' else None
         | EmptyString => None
         end
       else Some (acc, count, String c t)).
    rewrite Hc, (IH _ _ Ht). simpl String.length. simpl fold_left.
    do 3 f_equal. lia.
Qed.

Lemma all_digits_ascii s : all_digits s -> is_ascii s = true.
Proof.
  unfold all_digits, is_ascii. intros H. apply forallb_forall. intros c Hc.
  rewrite Forall_forall in H. apply list_elem_of_In, H, is_digit_range in Hc.
  unfold byte. lia.
Qed.

Lemma py_int_str_ascii s : is_ascii s = true -> py_int_str s = long_from_string s.
Proof. unfold py_int_str. by intros ->. Qed.

Lemma py_int_str_decimal s :
  s <> EmptyString -> all_digits s ->
  Z.of_nat (String.length s) <= max_str_digits ->
  py_int_str s = Ok (decimal_value s).
Proof.
  intros Hne H Hlen. rewrite py_int_str_ascii by by apply all_digits_ascii.
  destruct s as [|c t]; [done|].
  pose proof H as H'. unfold all_digits in H'. simpl in H'.
  apply Forall_cons in H' as [Hc Ht].
  unfold long_from_string. simpl lstrip. rewrite (digit_not_space c Hc).
  rewrite !(digit_not_char c) by done.
  unfold numeral. rewrite Hc, (digits_all_digits t _ _ Ht).
  change (lstrip EmptyString) with EmptyString. cbv iota.
  rewrite (proj2 (Z.ltb_ge _ _)) by (simpl String.length in Hlen; lia).
  unfold decimal_value. simpl fold_left.
  replace (10 * 0 + digit_val c) with (digit_val c) by lia.
  f_equal. apply Z.mul_1_l.
Qed.

(** *** The conversion of an ASCII text and the numerals *)

Lemma char_token_blank c : char_token c = Blank <-> is_space c = true.
Proof.
  unfold char_token. destruct (is_space c); [done|].
  destruct (is_digit c); [done|].
  by destruct (Ascii.eqb c "+"), (Ascii.eqb c "-"), (Ascii.eqb c "_").
Qed.

Lemma char_token_digit c d :
  char_token c = Digit d <-> is_digit c = true /\ d = digit_val c.
Proof.
  unfold char_token. destruct (is_space c) eqn:Hs.
  { split; [done|]. intros [Hd _]. apply digit_not_space in Hd. congruence. }
  destruct (is_digit c).
  { split; [by intros [= <-]|by intros [_ ->]]. }
  destruct (Ascii.eqb c "+"), (Ascii.eqb c "-"), (Ascii.eqb c "_"); split; (done || by intros [? _]).
Qed.

Lemma char_token_sign c :
  (char_token c = Plus <-> c = "+"%char) /\
  (char_token c = Minus <-> c = "-"%char) /\
  (char_token c = Underscore <-> c = "_"%char).
Proof.
  split_and!; (split; [|by intros ->]); unfold char_token;
    destruct (is_space c); try done; destruct (is_digit c); try done;
    destruct (Ascii.eqb_spec c "+") as [->|?]; try done;
    destruct (Ascii.eqb_spec c "-") as [->|?]; try done;
    destruct (Ascii.eqb_spec c "_") as [->|?]; try done.
Qed.

Lemma digits_digit c t acc n :
  is_digit c = true ->
  digits acc n (String c t) = digits (10 * acc + digit_val c) (n + 1) t.
Proof. intros H. destruct t; simpl; by rewrite H. Qed.

Lemma digits_underscore d t acc n :
  is_digit d = true ->
  digits acc n (String "_" (String d t)) = digits (10 * acc + digit_val d) (n + 1) t.
Proof. intros H. simpl. by rewrite H. Qed.

Lemma digits_stop c t acc n :
  is_digit c = false -> Ascii.eqb c "_" = false ->
  digits acc n (String c t) = Some (acc, n, String c t).
Proof. intros H1 H2. destruct t; simpl; by rewrite H1, H2. Qed.

Lemma lstrip_prefix s :
  exists bl, Forall (eq Blank) bl /\ char_tokens s = bl ++ char_tokens (lstrip s).
Proof.
  induction s as [|c t (bl & Hbl & IH)]; [by exists []|]. simpl.
  destruct (is_space c) eqn:Hc.
  - exists (Blank :: bl). split; [by constructor|].
    rewrite (proj2 (char_token_blank c) Hc), IH. done.
  - by exists [].
Qed.

Lemma lstrip_tokens bl : forall s ts,
  char_tokens s = bl ++ ts -> Forall (eq Blank) bl ->
  (forall t ts', ts = t :: ts' -> t <> Blank) ->
  char_tokens (lstrip s) = ts.
Proof.
  induction bl as [|b bl IH]; intros s ts Hs Hbl Hts.
  - destruct s as [|c t]; [done|]. simpl in Hs |- *.
    destruct (is_space c) eqn:Hc; [|done].
    apply char_token_blank in Hc. destruct (Hts _ _ (eq_sym Hs)). done.
  - destruct s as [|c t]; [done|]. simpl in Hs. injection Hs as Hc Ht.
    apply Forall_cons in Hbl as [<- Hbl]. apply char_token_blank in Hc.
    simpl. rewrite Hc. by apply IH.
Qed.

Lemma lstrip_blank s : lstrip s = EmptyString <-> Forall (eq Blank) (char_tokens s).
Proof.
  induction s as [|c t IH]; simpl; [done|].
  destruct (is_space c) eqn:Hc.
  - rewrite IH, Forall_cons. apply char_token_blank in Hc. split; [done|tauto].
  - split; [done|]. intros H. apply Forall_cons in H as [H _].
    symmetry in H. apply char_token_blank in H. congruence.
Qed.

Lemma digits_sound k : forall s acc n v m rest,
  (String.length s <= k)%nat ->
  digits acc n s = Some (v, m, rest) ->
  exists ts ds, more_digits ts ds /\
    char_tokens s = ts ++ char_tokens rest /\
    v = foldl (fun a d => 10 * a + d) acc ds /\
    m = n + Z.of_nat (length ds).
Proof.
  induction k as [|k IH]; intros s acc n v m rest Hk.
  { destruct s; [|simpl in Hk; lia]. intros [= <- <- <-].
    exists [], []. split_and!; [constructor|done|done|simpl; lia]. }
  destruct s as [|c t].
  { intros [= <- <- <-]. exists [], []. split_and!; [constructor|done|done|simpl; lia]. }
  simpl in Hk. destruct (is_digit c) eqn:Hc.
  - rewrite digits_digit by done. intros H.
    destruct (IH t _ _ _ _ _ ltac:(lia) H) as (ts & ds & Hm & Ht & -> & ->).
    exists (Digit (digit_val c) :: ts), (digit_val c :: ds). split_and!.
    + by constructor.
    + simpl. rewrite Ht. f_equal. by apply char_token_digit.
    + done.
    + simpl length. lia.
  - destruct (Ascii.eqb_spec c "_") as [->|Hu].
    + destruct t as [|d t]; [done|]. simpl in Hk.
      destruct (is_digit d) eqn:Hd; [|simpl; by rewrite Hd].
      rewrite digits_underscore by done. intros H.
      destruct (IH t _ _ _ _ _ ltac:(lia) H) as (ts & ds & Hm & Ht & -> & ->).
      exists (Underscore :: Digit (digit_val d) :: ts), (digit_val d :: ds). split_and!.
      * by constructor.
      * simpl. rewrite Ht. do 2 f_equal. by apply char_token_digit.
      * done.
      * simpl length. lia.
    + rewrite digits_stop; [|done|by apply Ascii.eqb_neq].
      intros [= <- <- <-]. exists [], []. split_and!; [constructor|done|done|simpl; lia].
Qed.

Lemma digits_complete ts ds :
  more_digits ts ds -> forall s after acc n,
  char_tokens s = ts ++ after -> Forall (eq Blank) after ->
  exists rest,
    digits acc n s = Some (foldl (fun a d => 10 * a + d) acc ds,
                           n + Z.of_nat (length ds), rest) /\
    char_tokens rest = after.
Proof.
  induction 1 as [|d ts ds _ IH|d ts ds _ IH]; intros s after acc n Hs Hafter.
  - simpl in Hs. rewrite Z.add_0_r. destruct s as [|c t].
    { exists EmptyString. by rewrite <- Hs. }
    exists (String c t). split; [|done].
    simpl in Hs. rewrite <- Hs in Hafter. apply Forall_cons in Hafter as [Hc _].
    symmetry in Hc. apply char_token_blank in Hc.
    apply digits_stop.
    + destruct (is_digit c) eqn:Hd; [|done]. apply digit_not_space in Hd. congruence.
    + destruct (Ascii.eqb_spec c "_") as [->|]; [done|done].
  - destruct s as [|c t]; [done|]. simpl in Hs. injection Hs as Hc Ht.
    apply char_token_digit in Hc as [Hc ->].
    rewrite digits_digit by done.
    destruct (IH t after (10 * acc + digit_val c) (n + 1) Ht Hafter) as (rest & -> & Hr).
    exists rest. split; [|done]. simpl length. simpl foldl. do 3 f_equal. lia.
  - destruct s as [|c [|c' t]]; [done|done|]. simpl in Hs. injection Hs as Hc Hc' Ht.
    apply char_token_sign in Hc as ->.
    apply char_token_digit in Hc' as [Hc' ->].
    rewrite digits_underscore by done.
    destruct (IH t after (10 * acc + digit_val c') (n + 1) Ht Hafter) as (rest & -> & Hr).
    exists rest. split; [|done]. simpl length. simpl foldl. do 3 f_equal. lia.
Qed.

Lemma value_of_cons d ds : value_of (d :: ds) = foldl (fun a d => 10 * a + d) d ds.
Proof. unfold value_of. cbn [foldl]. by rewrite Z.mul_0_r, Z.add_0_l. Qed.

Lemma numeral_numeric sg s v :
  numeral sg s = Ok v <->
  exists d more ds after,
    char_tokens s = Digit d :: more ++ after /\ Forall (eq Blank) after /\
    more_digits more ds /\ Z.of_nat (length (d :: ds)) <= max_str_digits /\
    v = sg * value_of (d :: ds).
Proof.
  split.
  - destruct s as [|c t]; [done|]. simpl.
    destruct (is_digit c) eqn:Hc; [|done].
    destruct (digits (digit_val c) 1 t) as [[[v0 m] rest]|] eqn:Hd; [|done].
    destruct (lstrip rest) eqn:Hr; [|done].
    destruct (Z.ltb_spec max_str_digits m) as [|Hm]; [done|]. intros [= <-].
    destruct (digits_sound _ _ _ _ _ _ _ (le_n _) Hd) as (ts & ds & Hmore & Ht & -> & ->).
    exists (digit_val c), ts, ds, (char_tokens rest). split_and!.
    + rewrite Ht. f_equal. by apply char_token_digit.
    + by apply lstrip_blank.
    + done.
    + simpl length. lia.
    + by rewrite value_of_cons.
  - intros (d & more & ds & after & Hs & Hafter & Hmore & Hlen & ->).
    destruct s as [|c t]; [done|]. simpl in Hs. injection Hs as Hc Ht.
    apply char_token_digit in Hc as [Hc ->]. simpl. rewrite Hc.
    destruct (digits_complete _ _ Hmore t after (digit_val c) 1 Ht Hafter) as (rest & -> & Hr).
    rewrite (proj2 (lstrip_blank rest)) by by rewrite Hr.
    destruct (Z.ltb_spec max_str_digits (1 + Z.of_nat (length ds))) as [Hm|Hm].
    { simpl length in Hlen. lia. }
    by rewrite value_of_cons.
Qed.

Lemma long_from_string_numeric s v :
  long_from_string s = Ok v <-> numeric_tokens (char_tokens s) v.
Proof.
  unfold long_from_string, numeric_tokens. split.
  - destruct (lstrip_prefix s) as (bl & Hbl & Hs).
    destruct (lstrip s) as [|c t] eqn:Hl; [done|].
    destruct (Ascii.eqb_spec c "+") as [->|Hp]; [|destruct (Ascii.eqb_spec c "-") as [->|Hm]].
    + intros (d & more & ds & after & Ht & ? & ? & ? & ->)%numeral_numeric.
      exists bl, [Plus], 1, d, more, ds, after. split_and!; try done; [|tauto].
      rewrite Hs. simpl. by rewrite Ht.
    + intros (d & more & ds & after & Ht & ? & ? & ? & ->)%numeral_numeric.
      exists bl, [Minus], (-1), d, more, ds, after. split_and!; try done; [|tauto].
      rewrite Hs. simpl. by rewrite Ht.
    + intros (d & more & ds & after & Ht & ? & ? & ? & ->)%numeral_numeric.
      exists bl, [], 1, d, more, ds, after. split_and!; try done; [|tauto].
      rewrite Hs. by rewrite Ht.
  - intros (before & sign & sg & d & more & ds & after & Hs & Hb & Ha & Hsign & Hmore & Hlen & ->).
    assert (Hl : char_tokens (lstrip s) = sign ++ Digit d :: more ++ after).
    { apply (lstrip_tokens before); [done..|].
      intros t ts' Ht ->. destruct Hsign as [[-> _]|[[-> _]|[-> _]]]; done. }
    destruct (lstrip s) as [|c t]; [by destruct Hsign as [[-> _]|[[-> _]|[-> _]]]|].
    simpl in Hl.
    destruct Hsign as [[-> ->]|[[-> ->]|[-> ->]]]; simpl in Hl.
    + injection Hl as Hc Ht.
      pose proof Hc as Hc'. apply char_token_digit in Hc' as [Hd _].
      rewrite !(digit_not_char c) by done.
      apply numeral_numeric. exists d, more, ds, after. simpl. by rewrite Hc, Ht.
    + injection Hl as Hc Ht. apply char_token_sign in Hc as ->. simpl.
      apply numeral_numeric. by exists d, more, ds, after.
    + injection Hl as Hc Ht. apply char_token_sign in Hc as ->. simpl.
      apply numeral_numeric. by exists d, more, ds, after.
Qed.

Lemma numeral_raises sign s e : numeral sign s = Raise e -> e = ValueError.
Proof.
  unfold numeral. destruct s as [|c t]; [congruence|].
  destruct (is_digit c); [|congruence].
  destruct (digits _ _ t) as [[[v m] rest]|]; [|congruence].
  destruct (lstrip rest); [|congruence].
  destruct (max_str_digits <? m); congruence.
Qed.

Lemma long_from_string_raises s e : long_from_string s = Raise e -> e = ValueError.
Proof.
  unfold long_from_string. destruct (lstrip s) as [|c t]; [congruence|].
  destruct (Ascii.eqb c "+"); [apply numeral_raises|].
  destruct (Ascii.eqb c "-"); apply numeral_raises.
Qed.

Lemma py_int_str_raises s e : py_int_str s = Raise e -> e = ValueError.
Proof. apply long_from_string_raises. Qed.

(** tables *)

Lemma unicode_space_range ch : is_unicode_space ch = true -> 128 <= ch.
Proof.
  unfold is_unicode_space. rewrite existsb_exists. intros (x & Hin & ->%Z.eqb_eq).
  assert (H : Forall (fun z => 128 <= z) unicode_spaces) by compute_done.
  rewrite Forall_forall in H. apply H. by apply list_elem_of_In.
Qed.

Lemma to_decimal_range ch d : to_decimal ch = Some d -> 128 <= ch /\ 0 <= d <= 9.
Proof.
  unfold to_decimal.
  destruct (List.find _ unicode_zeros) as [zero|] eqn:Hf; [|done]. intros [= <-].
  apply List.find_some in Hf as [Hin Hb].
  assert (H : Forall (fun z => 128 <= z) unicode_zeros) by compute_done.
  rewrite Forall_forall in H. apply list_elem_of_In, H in Hin. lia.
Qed.

Lemma char_token_classify c : byte c < 128 -> char_token c = classify (byte c).
Proof.
  destruct c as [[|] [|] [|] [|] [|] [|] [|] [|]]; intros H;
    try (vm_compute in H; discriminate H); vm_compute; reflexivity.
Qed.

Lemma byte_chr ch : 0 <= ch < 256 -> byte (chr ch) = ch.
Proof.
  intros H. unfold byte, chr. rewrite N_ascii_embedding by lia. lia.
Qed.

Lemma char_token_chr_digit d : 0 <= d <= 9 -> char_token (chr (48 + d)) = Digit d.
Proof.
  intros H. assert (d = 0 \/ d = 1 \/ d = 2 \/ d = 3 \/ d = 4 \/ d = 5 \/ d = 6 \/
                    d = 7 \/ d = 8 \/ d = 9) as Hd by lia.
  repeat (destruct Hd as [->|Hd]; [reflexivity|]). by subst.
Qed.

Lemma classify_unreadable ch :
  (0 <=? ch) && (ch <? 127) = false -> is_unicode_space ch = false ->
  classify ch = match to_decimal ch with Some d => Digit d | None => Other end.
Proof.
  intros Hr Hs. unfold classify. rewrite Hs.
  destruct (to_decimal ch) as [d|] eqn:Hd.
  - apply to_decimal_range in Hd as [? _].
    repeat (case_match; try lia); done.
  - assert (ch < 0 \/ 127 <= ch) as [?|?] by lia;
      repeat (case_match; try lia); done.
Qed.

Lemma transform_tokens text :
  char_tokens (transform_decimal_and_space text) = classify <$> text \/
  (Other ∈ char_tokens (transform_decimal_and_space text) /\ Other ∈ classify <$> text).
Proof.
  induction text as [|ch rest IH]; [by left|]. simpl.
  assert (Hcons : forall t, t = classify ch ->
    t :: char_tokens (transform_decimal_and_space rest) = classify ch :: (classify <$> rest) \/
    (Other ∈ t :: char_tokens (transform_decimal_and_space rest) /\
     Other ∈ classify ch :: (classify <$> rest))).
  { intros t ->. destruct IH as [->|[? ?]]; [by left|right]. split; by right. }
  destruct ((0 <=? ch) && (ch <? 127)) eqn:Hr.
  - simpl. apply Hcons. rewrite char_token_classify; rewrite byte_chr; (done || lia).
  - destruct (is_unicode_space ch) eqn:Hs.
    + simpl. apply Hcons. unfold classify. rewrite Hs. by rewrite orb_true_r.
    + rewrite (classify_unreadable ch Hr Hs).
      destruct (to_decimal ch) as [d|] eqn:Hd.
      * simpl. apply to_decimal_range in Hd as [_ Hd].
        rewrite (char_token_chr_digit d Hd).
        destruct IH as [->|[? ?]]; [by left|right]. split; by right.
      * right. split; by left.
Qed.

Lemma ascii_tokens s :
  is_ascii s = true -> char_tokens s = classify <$> code_points s.
Proof.
  unfold is_ascii. induction s as [|c t IH]; [done|]. simpl.
  intros [Hc Ht]%andb_true_iff. rewrite Hc. simpl.
  rewrite char_token_classify by lia. by rewrite IH.
Qed.

Lemma numeric_tokens_no_other ts v : numeric_tokens ts v -> Other ∉ ts.
Proof.
  intros (before & sign & sg & d & more & ds & after & -> & Hb & Ha & Hsign & Hmore & _).
  assert (Hm : Other ∉ more).
  { clear -Hmore. induction Hmore; [apply not_elem_of_nil|..];
      rewrite ?not_elem_of_cons; split_and!; done. }
  rewrite Forall_forall in Hb, Ha.
  rewrite !elem_of_app, elem_of_cons, elem_of_app.
  intros [H|[H|[H|[H|H]]]]; [by apply Hb in H| |done|done|by apply Ha in H].
  destruct Hsign as [[-> _]|[[-> _]|[-> _]]];
    [by apply elem_of_nil in H|by apply list_elem_of_singleton in H..].
Qed.

Lemma py_int_str_numeric s v : py_int_str s = Ok v <-> numeric s v.
Proof.
  unfold py_int_str, numeric. rewrite long_from_string_numeric.
  destruct (is_ascii s) eqn:Ha; [by rewrite ascii_tokens|].
  destruct (transform_tokens (code_points s)) as [->|[H1 H2]]; [done|].
  split; intros H%numeric_tokens_no_other; done.
Qed.

Lemma py_int_str_not_numeric s :
  py_int_str s = Raise ValueError <-> ~ exists v, numeric s v.
Proof.
  split.
  - intros Hr [v Hv%py_int_str_numeric]. congruence.
  - intros Hn. destruct (py_int_str s) as [v|e] eqn:Hi.
    + destruct Hn. exists v. by apply py_int_str_numeric.
    + f_equal. by eapply py_int_str_raises.
Qed.

(** C4: the quantity texts [">10"], ["1"] and ["7"] give 100, 0 and 7; any
    other text gives what [int] gives for it.  [int] gives [v] exactly for
    the numeric texts of value [v]: white space, an optional sign, decimal
    digits with single underscores between them, white space, within the
    interpreter's limit on the number of digits; for every other text it
    raises [ValueError], which is the only exception it raises on a text.
    So a non-empty text of ASCII digits gives its decimal value; and of
    the sample texts, those with blanks, a sign, an underscore, Arabic-Indic
    or fullwidth digits or a no-break space (bytes 194, 160) convert, while
    the empty text and those with a superscript digit, the separator
    character 28, two underscores or a letter raise. *)
Theorem normalize_quantity_spec (s : string) :
  normalize_quantity (VStr ">10") = Ok 100 /\
  normalize_quantity (VStr "1") = Ok 0 /\
  normalize_quantity (VStr "7") = Ok 7 /\
  (s <> ">10" -> s <> "1" -> normalize_quantity (VStr s) = py_int_str s) /\
  (forall v, py_int_str s = Ok v <-> numeric s v) /\
  (py_int_str s = Raise ValueError <-> ~ exists v, numeric s v) /\
  (forall e, py_int_str s = Raise e -> e = ValueError) /\
  (s <> EmptyString -> all_digits s ->
   Z.of_nat (String.length s) <= max_str_digits ->
   py_int_str s = Ok (decimal_value s)) /\
  py_int_str "" = Raise ValueError /\
  py_int_str " +42 " = Ok 42 /\
  py_int_str "-1_000" = Ok (-1000) /\
  py_int_str "٣" = Ok 3 /\
  py_int_str "１２" = Ok 12 /\
  py_int_str "²" = Raise ValueError /\
  py_int_str (String "194" (String "160" "7")) = Ok 7 /\
  py_int_str (String "028" "7") = Raise ValueError /\
  py_int_str "1__0" = Raise ValueError /\
  py_int_str "4x" = Raise ValueError.
Proof.
  split_and!; try done.
  - intros H1 H2. unfold normalize_quantity. simpl.
    destruct (String.eqb s ">10") eqn:E1; [by apply String.eqb_eq in E1|].
    destruct (String.eqb s "1") eqn:E2; [by apply String.eqb_eq in E2|]. done.
  - intros v. apply py_int_str_numeric.
  - apply py_int_str_not_numeric.
  - intros e. apply py_int_str_raises.
  - apply py_int_str_decimal.
Qed.

Lemma normalize_quantity_spec_witness :
  normalize_quantity (VStr "42") = Ok 42 /\ numeric "42" 42 /\
  ~ (exists v, numeric "4x" v).
Proof.
  destruct (normalize_quantity_spec "42") as (_ & _ & _ & H42 & N42 & _ & _ & D42 & _).
  destruct (normalize_quantity_spec "4x") as (_ & _ & _ & _ & _ & F4x & _).
  assert (E42 : py_int_str "42" = Ok 42).
  { rewrite D42; [reflexivity|discriminate| |].
    - repeat constructor.
    - by vm_compute. }
  split_and!.
  - rewrite H42 by discriminate. exact E42.
  - apply N42. exact E42.
  - apply F4x. reflexivity.
Defined.

(** ** [divide] *)

Section Divide.
Context {A : Type}.
Implicit Types (lst : list A) (n : Z).

Lemma chunk_count_bounds lst n (c := chunk_count lst n) :
  0 < n -> lst <> [] ->
  (0 < c)%nat /\ Z.of_nat (c - 1) * n < Z.of_nat (length lst) <= Z.of_nat c * n.
Proof.
  intros Hn Hl. subst c. unfold chunk_count.
  assert (Hlen : 0 < Z.of_nat (length lst)) by (destruct lst; [done|simpl; lia]).
  apply Z.ltb_lt in Hlen as Hb. rewrite Hb.
  set (len := Z.of_nat (length lst)) in *.
  pose proof (Z.div_mod (len - 1) n ltac:(lia)) as Hdm.
  pose proof (Z.mod_pos_bound (len - 1) n Hn) as Hmod.
  assert (Hq : 0 <= (len - 1) / n) by (apply Z.div_pos; lia).
  set (q := (len - 1) / n) in *.
  replace (Z.to_nat (q + 1) - 1)%nat with (Z.to_nat q) by lia.
  rewrite !Z2Nat.id by lia. split; [lia|nia].
Qed.

Lemma py_slice_chunk lst n (k : nat) :
  0 < n -> Z.of_nat k * n < Z.of_nat (length lst) ->
  py_slice lst (0 + Z.of_nat k * n) (0 + Z.of_nat k * n + n) =
  take (Z.to_nat n) (drop (k * Z.to_nat n) lst).
Proof.
  intros Hn Hk. unfold py_slice, clamp_index.
  set (len := Z.of_nat (length lst)) in *.
  assert (0 <= Z.of_nat k * n) by nia.
  rewrite !(proj2 (Z.ltb_ge _ 0)) by lia.
  rewrite (Z.min_l (0 + Z.of_nat k * n)) by lia.
  replace (Z.to_nat (0 + Z.of_nat k * n)) with (k * Z.to_nat n)%nat by nia.
  destruct (Z.le_gt_cases (0 + Z.of_nat k * n + n) len) as [Hle|Hgt].
  - rewrite Z.min_l by lia. f_equal. lia.
  - rewrite Z.min_r by lia.
    rewrite !take_ge; [done| |]; rewrite length_drop; subst len; nia.
Qed.

Lemma divide_positive lst n :
  0 < n ->
  divide lst n =
    Ok (List.map (fun k : nat => take (Z.to_nat n) (drop (k * Z.to_nat n) lst))
          (seq 0 (chunk_count lst n))).
Proof.
  intros Hn. unfold divide, py_range.
  rewrite (proj2 (Z.eqb_neq n 0)) by lia.
  rewrite (proj2 (Z.ltb_lt 0 n)) by lia.
  rewrite Z.sub_0_r. fold (chunk_count lst n).
  f_equal. rewrite List.map_map. apply List.map_ext_in.
  intros k Hk. apply in_seq in Hk. apply py_slice_chunk; [done|].
  destruct lst as [|x l]; [unfold chunk_count in Hk; simpl in Hk; lia|].
  pose proof (chunk_count_bounds (x :: l) n Hn ltac:(done)) as (? & ? & ?).
  assert (Z.of_nat k <= Z.of_nat (chunk_count (x :: l) n - 1)) by lia. nia.
Qed.

Lemma concat_chunks lst (m c : nat) :
  concat (List.map (fun k : nat => take m (drop (k * m) lst)) (seq 0 c)) =
  take (c * m) lst.
Proof.
  induction c as [|c IH]; [done|].
  rewrite seq_S, List.map_app, concat_app, IH. simpl.
  rewrite app_nil_r, take_take_drop. f_equal. lia.
Qed.

(** C6: for a positive size, [divide] returns chunks whose concatenation
    is the list; every chunk but the last has exactly [n] elements, the
    last one has between 1 and [n]; and the empty list gives no chunk. *)
Theorem divide_chunks lst n :
  0 < n ->
  exists chunks,
    divide lst n = Ok chunks /\
    concat chunks = lst /\
    (forall i c, chunks !! i = Some c -> (i + 1 < length chunks)%nat ->
       Z.of_nat (length c) = n) /\
    (forall c, last chunks = Some c -> 0 < Z.of_nat (length c) <= n) /\
    divide (@nil A) n = Ok [].
Proof.
  intros Hn. eexists. split; [by apply divide_positive|].
  set (m := Z.to_nat n). set (c := chunk_count lst n).
  assert (Hbounds : lst <> [] ->
    (0 < c)%nat /\ ((c - 1) * m < length lst <= c * m)%nat).
  { intros Hl. destruct (chunk_count_bounds lst n Hn Hl) as (? & ? & ?).
    fold c in H, H0, H1. subst m. split; [done|nia]. }
  assert (Hlook : forall i ch,
    List.map (fun k : nat => take m (drop (k * m) lst)) (seq 0 c) !! i = Some ch ->
    (i < c)%nat /\ ch = take m (drop (i * m) lst)).
  { intros i ch Hi. change (List.map ?f ?l) with (f <$> l) in Hi.
    rewrite list_lookup_fmap in Hi.
    destruct (seq 0 c !! i) as [k|] eqn:Hk; [|done].
    apply lookup_seq in Hk as [-> ?]. simpl in Hi. by injection Hi as <-. }
  split_and!.
  - rewrite concat_chunks. destruct lst as [|x l]; [by rewrite take_nil|].
    apply take_ge. destruct Hbounds as (? & ? & ?); [done|lia].
  - intros i ch Hi Hlt. rewrite length_map, length_seq in Hlt.
    apply Hlook in Hi as [_ ->].
    destruct lst as [|x l]; [unfold c, chunk_count in Hlt; simpl in Hlt; lia|].
    destruct Hbounds as (? & ? & ?); [done|].
    rewrite length_take, length_drop. subst m. nia.
  - intros ch Hlast. rewrite last_lookup, length_map, length_seq in Hlast.
    apply Hlook in Hlast as [Hc ->].
    destruct lst as [|x l]; [unfold c, chunk_count in Hc; simpl in Hc; lia|].
    destruct Hbounds as (? & ? & ?); [done|].
    rewrite length_take, length_drop.
    replace (Init.Nat.pred c) with (c - 1)%nat by lia. subst m. lia.
  - rewrite divide_positive by done. done.
Qed.

(** C7 as the code has it: a size of 0 makes [divide] raise, whatever
    the list; a negative size raises nothing and gives no chunk. *)
Theorem divide_non_positive lst n :
  (n = 0 -> divide lst n = Raise ValueError) /\
  (n < 0 -> divide lst n = Ok []).
Proof.
  split.
  - by intros ->.
  - intros Hn. unfold divide, py_range.
    rewrite (proj2 (Z.eqb_neq n 0)) by lia.
    rewrite (proj2 (Z.ltb_ge 0 n)) by lia.
    rewrite (proj2 (Z.ltb_ge (Z.of_nat (length lst)) 0)) by lia. done.
Qed.
End Divide.

Lemma divide_chunks_witness :
  exists chunks,
    divide [1; 2; 3; 4; 5] 2 = Ok chunks /\
    concat chunks = [1; 2; 3; 4; 5] /\
    (forall i c, chunks !! i = Some c -> (i + 1 < length chunks)%nat ->
       Z.of_nat (length c) = 2) /\
    (forall c, last chunks = Some c -> 0 < Z.of_nat (length c) <= 2) /\
    divide (@nil Z) 2 = Ok [].
Proof. apply (divide_chunks [1; 2; 3; 4; 5] 2). lia. Defined.

Lemma divide_non_positive_witness :
  divide [1; 2; 3] 0 = Raise ValueError /\ divide [1; 2; 3] (-2) = Ok [] /\
  divide (@nil Z) 0 = Raise ValueError.
Proof.
  split_and!.
  - apply (divide_non_positive [1; 2; 3] 0). reflexivity.
  - apply (divide_non_positive [1; 2; 3] (-2)). lia.
  - apply (divide_non_positive (@nil Z) 0). reflexivity.
Defined.

(** C7 as stated fails: with a negative size the call raises nothing. *)
Lemma divide_negative_size_counterexample :
  divide [1; 2; 3] (-1) = Ok [] /\
  ~ (exists e, divide [1; 2; 3] (-1) = Raise e).
Proof. split; [reflexivity|]. intros [e H]. discriminate H. Qed.

(** ** The list [offer_ids] under [remove] *)

Lemma remove_first_split x l l' :
  remove_first x l = Some l' -> exists l1 l2, l = l1 ++ x :: l2 /\ l' = l1 ++ l2.
Proof.
  revert l'. induction l as [|y t IH]; intros l'; simpl; [done|].
  destruct (String.eqb y x) eqn:E.
  - apply String.eqb_eq in E as ->. intros [= <-]. by exists [], t.
  - destruct (remove_first x t) as [t'|]; [|done]. intros [= <-].
    destruct (IH t' eq_refl) as (l1 & l2 & -> & ->). by exists (y :: l1), l2.
Qed.

Lemma remove_first_elem x l : x ∈ l -> is_Some (remove_first x l).
Proof.
  induction 1 as [x l|x y l Hin IH]; simpl.
  - rewrite String.eqb_refl. eauto.
  - destruct (String.eqb y x); [eauto|]. destruct IH as [t' ->]. eauto.
Qed.

Lemma without_one_perm (x : string) l1 l2 : x :: (l1 ++ l2) ≡ₚ l1 ++ x :: l2.
Proof. apply Permutation_middle. Qed.

Lemma without_one_sublist (x : string) l1 l2 : l1 ++ l2 `sublist_of` l1 ++ x :: l2.
Proof. apply sublist_app; [done|]. by apply sublist_cons. Qed.

Lemma without_one_filter (P : string -> Prop) `{!forall x, Decision (P x)} x l1 l2 :
  ~ P x -> filter P (l1 ++ l2) = filter P (l1 ++ x :: l2).
Proof. intros Hx. by rewrite !filter_app, (filter_cons_False _ _ _ Hx). Qed.

Lemma without_one_NoDup (x : string) l1 l2 :
  NoDup (l1 ++ x :: l2) -> (x ∉ l1 ++ l2) /\ NoDup (l1 ++ l2).
Proof. rewrite <- without_one_perm. apply NoDup_cons. Qed.

Lemma foldl_snoc {A B : Type} (f : B -> A) (l : list B) (acc : list A) :
  foldl (fun acc x => acc ++ [f x]) acc l = acc ++ (f <$> l).
Proof.
  revert acc. induction l as [|x l IH]; intros acc; simpl.
  - by rewrite app_nil_r.
  - by rewrite IH, <- app_assoc.
Qed.

(** ** The stock loops *)

Section ReconcileFacts.
Context {R : Type}.
Variable entry : string -> Z -> R.

Lemma stocks_body_run w acc ids :
  stocks_body entry w acc ids =
  (if bool_decide (code_of w ∈ ids) then
     match normalize_quantity (get w "Количество") with
     | Ok z =>
         match remove_first (code_of w) ids with
         | Some ids' => (Ok (acc ++ [entry (code_of w) z]), ids')
         | None => (Raise ValueError, ids)
         end
     | Raise e => (Raise e, ids)
     end
   else (Ok acc, ids)).
Proof.
  unfold stocks_body, bind, contains, lift, remove, ret, code_of.
  destruct (bool_decide _); [|done].
  destruct (normalize_quantity _); [|done].
  by destruct (remove_first _ _).
Qed.

Lemma for_each_cons {A S : Type} (body : A -> S -> M S) x xs acc ids :
  for_each body (x :: xs) acc ids =
  match body x acc ids with
  | (Ok acc', ids') => for_each body xs acc' ids'
  | (Raise e, ids') => (Raise e, ids')
  end.
Proof. reflexivity. Qed.

(** The three ways one round of the first loop goes. *)
Lemma stocks_loop_cons w ws acc ids res ids' :
  for_each (stocks_body entry) (w :: ws) acc ids = (res, ids') ->
  ((code_of w ∉ ids) /\ for_each (stocks_body entry) ws acc ids = (res, ids')) \/
  (code_of w ∈ ids /\ ids' = ids /\
     exists e, normalize_quantity (get w "Количество") = Raise e /\ res = Raise e) \/
  (code_of w ∈ ids /\
     exists z l1 l2, normalize_quantity (get w "Количество") = Ok z /\
       ids = l1 ++ code_of w :: l2 /\
       for_each (stocks_body entry) ws (acc ++ [entry (code_of w) z]) (l1 ++ l2)
         = (res, ids')).
Proof.
  rewrite for_each_cons, stocks_body_run. case_bool_decide as Hin; [|by left].
  intros Hrun. right. destruct (normalize_quantity _) as [z|e] eqn:Hq.
  - destruct (remove_first_elem _ _ Hin) as [ids1 Hr]. rewrite Hr in Hrun.
    destruct (remove_first_split _ _ _ Hr) as (l1 & l2 & -> & ->).
    right. split; [done|]. by exists z, l1, l2.
  - injection Hrun as <- <-. left. split_and!; [done..|]. by exists e.
Qed.

(** Whatever the outcome, the list keeps a subsequence of its elements,
    and every element for which [P] holds when [P] holds of no code of the
    feed. *)
Lemma stocks_loop_store watch : forall acc ids res ids',
  for_each (stocks_body entry) watch acc ids = (res, ids') ->
  ids' `sublist_of` ids /\
  forall (P : string -> Prop) `{!forall x, Decision (P x)},
    (forall w, w ∈ watch -> ~ P (code_of w)) -> filter P ids' = filter P ids.
Proof.
  induction watch as [|w ws IH]; intros acc ids res ids' Hrun.
  { injection Hrun as <- <-. done. }
  apply stocks_loop_cons in Hrun
    as [[Hn Hrun]|[(Hin & -> & _)|(Hin & z & l1 & l2 & Hq & -> & Hrun)]].
  - destruct (IH _ _ _ _ Hrun) as [Hs Hf]. split; [done|].
    intros P ? HP. apply Hf. intros w' Hw'. apply HP. by right.
  - done.
  - destruct (IH _ _ _ _ Hrun) as [Hs Hf]. split.
    + etrans; [exact Hs|]. apply without_one_sublist.
    + intros P ? HP. rewrite Hf by (intros w' Hw'; apply HP; by right).
      apply without_one_filter. apply HP. by left.
Qed.

(** A run that ends well appended one dictionary per matched record. *)
Lemma stocks_loop_ok watch : forall acc ids stocks ids',
  for_each (stocks_body entry) watch acc ids = (Ok stocks, ids') ->
  exists matched : list (string * Z),
    stocks = acc ++ ((fun p => entry p.1 p.2) <$> matched) /\
    matched.*1 ++ ids' ≡ₚ ids /\
    matched.*1 `sublist_of` (code_of <$> watch) /\
    Forall (fun p => exists w, w ∈ watch /\ code_of w = p.1 /\
              normalize_quantity (get w "Количество") = Ok p.2) matched.
Proof.
  induction watch as [|w ws IH]; intros acc ids stocks ids' Hrun.
  { injection Hrun as <- <-. exists []. by rewrite app_nil_r. }
  apply stocks_loop_cons in Hrun
    as [[Hn Hrun]|[(Hin & _ & e & _ & ?)|(Hin & z & l1 & l2 & Hq & -> & Hrun)]];
    [|done|].
  - destruct (IH _ _ _ _ Hrun) as (matched & -> & Hp & Hs & Hm).
    exists matched. split_and!; [done..| |].
    + by apply sublist_cons.
    + eapply Forall_impl; [exact Hm|]. intros p (w' & ? & ?). exists w'. split; [by right|done].
  - destruct (IH _ _ _ _ Hrun) as (matched & -> & Hp & Hs & Hm).
    exists ((code_of w, z) :: matched). split_and!.
    + by rewrite <- app_assoc.
    + simpl. rewrite Hp. apply without_one_perm.
    + simpl. by apply sublist_skip.
    + constructor; [exists w; split_and!; [by left|done..]|].
      eapply Forall_impl; [exact Hm|]. intros p (w' & ? & ?). exists w'. split; [by right|done].
Qed.

(** On a duplicate-free list, a run that ends well leaves no code of the
    feed in the list. *)
Lemma stocks_loop_consumes watch : forall acc ids stocks ids',
  NoDup ids ->
  for_each (stocks_body entry) watch acc ids = (Ok stocks, ids') ->
  forall w, w ∈ watch -> code_of w ∉ ids'.
Proof.
  induction watch as [|w ws IH]; intros acc ids stocks ids' Hnd Hrun w0 Hw0.
  { by apply elem_of_nil in Hw0. }
  apply stocks_loop_cons in Hrun
    as [[Hn Hrun]|[(Hin & _ & e & _ & ?)|(Hin & z & l1 & l2 & Hq & -> & Hrun)]];
    [|done|].
  - apply elem_of_cons in Hw0 as [->|Hw0]; [|by eapply IH].
    intros Hin. apply Hn. eapply sublist_subseteq; [|exact Hin].
    by destruct (stocks_loop_store _ _ _ _ _ Hrun).
  - apply without_one_NoDup in Hnd as [Hx Hnd].
    apply elem_of_cons in Hw0 as [->|Hw0]; [|by eapply IH].
    intros Hin'. apply Hx. eapply sublist_subseteq; [|exact Hin'].
    by destruct (stocks_loop_store _ _ _ _ _ Hrun).
Qed.

Lemma stocks_loop_succeeds watch : forall acc ids,
  NoDup ids -> first_matches_normalise watch ids ->
  exists stocks ids', for_each (stocks_body entry) watch acc ids = (Ok stocks, ids').
Proof.
  induction watch as [|w ws IH]; intros acc ids Hnd Hpre; [by eexists _, _|].
  rewrite for_each_cons, stocks_body_run.
  assert (Htail : forall ids1, ids1 `sublist_of` ids -> code_of w ∉ ids1 ->
            first_matches_normalise ws ids1).
  { intros ids1 Hs Hx i w' Hi Hin Hfirst. apply (Hpre (S i) w' Hi).
    - by eapply sublist_subseteq.
    - intros [|j] w'' Hj Hw''.
      + injection Hw'' as <-. intros Heq. apply Hx. by rewrite Heq.
      + apply (Hfirst j); [lia|done]. }
  case_bool_decide as Hin.
  - assert (Hq : is_ok (normalize_quantity (get w "Количество"))).
    { apply (Hpre 0%nat w); [done..|]. intros j w' Hj. lia. }
    destruct (normalize_quantity _) as [z|e]; [|done].
    destruct (remove_first_elem _ _ Hin) as [ids1 Hr]. rewrite Hr.
    destruct (remove_first_split _ _ _ Hr) as (l1 & l2 & -> & ->).
    apply without_one_NoDup in Hnd as [Hx Hnd].
    apply IH; [done|]. apply Htail; [apply without_one_sublist|done].
  - apply IH; [done|]. by apply Htail.
Qed.

(** Conversely, a run that ends well normalised every such record. *)
Lemma stocks_loop_needs watch : forall acc ids stocks ids',
  for_each (stocks_body entry) watch acc ids = (Ok stocks, ids') ->
  first_matches_normalise watch ids.
Proof.
  induction watch as [|w ws IH]; intros acc ids stocks ids' Hrun i w' Hi Hin Hfirst.
  { by rewrite lookup_nil in Hi. }
  apply stocks_loop_cons in Hrun
    as [[Hn Hrun]|[(Hin0 & _ & e & _ & ?)|(Hin0 & z & l1 & l2 & Hq & -> & Hrun)]];
    [|done|].
  - destruct i as [|i]; [by injection Hi as <-|].
    apply (IH _ _ _ _ Hrun i w' Hi Hin). intros j w'' Hj Hw''.
    apply (Hfirst (S j)); [lia|done].
  - destruct i as [|i]; [injection Hi as <-; by rewrite Hq|].
    apply (IH _ _ _ _ Hrun i w' Hi).
    + assert (Hne : code_of w <> code_of w') by (apply (Hfirst 0%nat); [lia|done]).
      rewrite elem_of_app, elem_of_cons in Hin. rewrite elem_of_app.
      destruct Hin as [?|[?|?]]; [by left|congruence|by right].
    + intros j w'' Hj Hw''. apply (Hfirst (S j)); [lia|done].
Qed.

Lemma stocks_loop_succeeds_all watch : forall acc ids,
  (forall w, w ∈ watch -> code_of w ∈ ids ->
     is_ok (normalize_quantity (get w "Количество"))) ->
  exists stocks ids', for_each (stocks_body entry) watch acc ids = (Ok stocks, ids').
Proof.
  induction watch as [|w ws IH]; intros acc ids Hpre; [by eexists _, _|].
  rewrite for_each_cons, stocks_body_run.
  case_bool_decide as Hin.
  - assert (Hq := Hpre w ltac:(by left) Hin).
    destruct (normalize_quantity _) as [z|e]; [|done].
    destruct (remove_first_elem _ _ Hin) as [ids1 Hr]. rewrite Hr.
    destruct (remove_first_split _ _ _ Hr) as (l1 & l2 & -> & ->).
    apply IH. intros w' Hw' Hin'. apply Hpre; [by right|].
    eapply sublist_subseteq; [apply without_one_sublist|done].
  - apply IH. intros w' Hw' Hin'. apply Hpre; [by right|done].
Qed.

Lemma create_stocks_with_run watch ids :
  create_stocks_with entry watch ids =
  match for_each (stocks_body entry) watch [] ids with
  | (Ok stocks, ids') => (Ok (stocks ++ ((fun id => entry id 0) <$> ids')), ids')
  | (Raise e, ids') => (Raise e, ids')
  end.
Proof.
  unfold create_stocks_with, bind, read, ret.
  destruct (for_each _ _ _ _) as [[stocks|e] ids']; [|done].
  by rewrite foldl_snoc.
Qed.

(** The outcome of [create_stocks], for both marketplaces: the matched
    records in feed order, then a zero entry for each element still in the
    list, which is a subsequence of the list passed in that still holds
    every identifier equal to no code of the feed. *)
Lemma create_stocks_with_shape watch ids stocks rest :
  create_stocks_with entry watch ids = (Ok stocks, rest) ->
  exists matched : list (string * Z),
    stocks = ((fun p => entry p.1 p.2) <$> matched) ++ ((fun id => entry id 0) <$> rest) /\
    matched.*1 ++ rest ≡ₚ ids /\
    matched.*1 `sublist_of` (code_of <$> watch) /\
    Forall (fun p => exists w, w ∈ watch /\ code_of w = p.1 /\
              normalize_quantity (get w "Количество") = Ok p.2) matched /\
    rest `sublist_of` ids /\
    filter (fun id => id ∉ code_of <$> watch) rest =
      filter (fun id => id ∉ code_of <$> watch) ids.
Proof.
  rewrite create_stocks_with_run.
  destruct (for_each _ _ _ _) as [[stocks0|e] ids'] eqn:Hrun; [|done].
  intros [= <- <-].
  destruct (stocks_loop_ok _ _ _ _ _ Hrun) as (matched & -> & Hp & Hs & Hm).
  destruct (stocks_loop_store _ _ _ _ _ Hrun) as [Hsub Hf].
  exists matched. split_and!; [done..|].
  apply Hf. intros w Hw Hn. apply Hn. by apply list_elem_of_fmap_2.
Qed.

Lemma create_stocks_with_rest watch ids stocks rest :
  NoDup ids ->
  create_stocks_with entry watch ids = (Ok stocks, rest) ->
  rest = filter (fun id => id ∉ code_of <$> watch) ids.
Proof.
  intros Hnd Hrun.
  destruct (create_stocks_with_shape _ _ _ _ Hrun) as (_ & _ & _ & _ & _ & _ & <-).
  rewrite create_stocks_with_run in Hrun.
  destruct (for_each _ _ _ _) as [[stocks0|e] ids'] eqn:Hloop; [|done].
  injection Hrun as <- <-.
  pose proof (stocks_loop_consumes _ _ _ _ _ Hnd Hloop) as Hc.
  assert (Hall : Forall (fun id => id ∉ code_of <$> watch) ids').
  { apply Forall_forall. intros x Hx Hin.
    apply list_elem_of_fmap in Hin as (w & -> & Hw). by apply (Hc w Hw). }
  clear Hloop Hc. induction Hall as [|x l Hx _ IH]; [done|].
  by rewrite filter_cons_True, <- IH.
Qed.

Lemma create_stocks_with_returns watch ids :
  (NoDup ids /\ first_matches_normalise watch ids) \/
  (forall w, w ∈ watch -> code_of w ∈ ids ->
     is_ok (normalize_quantity (get w "Количество"))) ->
  exists stocks rest, create_stocks_with entry watch ids = (Ok stocks, rest).
Proof.
  intros H. rewrite create_stocks_with_run.
  assert (exists stocks ids', for_each (stocks_body entry) watch [] ids = (Ok stocks, ids'))
    as (stocks & ids' & ->).
  { destruct H as [[? ?]|?];
      [by apply stocks_loop_succeeds|by apply stocks_loop_succeeds_all]. }
  by eexists _, _.
Qed.
Lemma create_stocks_with_returns_iff watch ids :
  NoDup ids ->
  (exists stocks rest, create_stocks_with entry watch ids = (Ok stocks, rest)) <->
  first_matches_normalise watch ids.
Proof.
  intros Hnd. split.
  - intros (stocks & rest & Hrun). rewrite create_stocks_with_run in Hrun.
    destruct (for_each _ _ _ _) as [[stocks0|e] ids'] eqn:Hloop; [|done].
    by eapply stocks_loop_needs.
  - intros Hpre. apply create_stocks_with_returns. by left.
Qed.
End ReconcileFacts.

Section ReconcileKeys.
Context {R : Type}.
Variable entry : string -> Z -> R.
Variable key : R -> string.
Hypothesis key_entry : forall id z, key (entry id z) = id.

Lemma create_stocks_with_store watch ids res rest :
  create_stocks_with entry watch ids = (res, rest) ->
  rest `sublist_of` ids /\ unmatched watch rest = unmatched watch ids.
Proof.
  rewrite create_stocks_with_run.
  destruct (for_each _ _ _ _) as [r ids'] eqn:Hloop.
  destruct (stocks_loop_store _ _ _ _ _ _ Hloop) as [Hs Hf].
  assert (unmatched watch ids' = unmatched watch ids).
  { apply Hf. intros w Hw Hn. apply Hn. by apply list_elem_of_fmap_2. }
  destruct r; intros [= <- <-]; done.
Qed.

Lemma create_stocks_with_keys watch ids stocks rest :
  create_stocks_with entry watch ids = (Ok stocks, rest) ->
  key <$> stocks ≡ₚ ids.
Proof.
  intros Hrun.
  destruct (create_stocks_with_shape _ _ _ _ _ Hrun) as (matched & -> & Hp & _).
  assert (E1 : key <$> ((fun p => entry p.1 p.2) <$> matched) = matched.*1).
  { rewrite <- list_fmap_compose. apply list_fmap_ext.
    intros i [id z] _. simpl. apply key_entry. }
  assert (E2 : key <$> ((fun id => entry id 0) <$> rest) = rest).
  { rewrite <- list_fmap_compose. rewrite <- (list_fmap_id rest) at 2.
    apply list_fmap_ext. intros i id _. simpl. apply key_entry. }
  by rewrite fmap_app, E1, E2.
Qed.

Lemma keyed_once (l : list R) id :
  NoDup (key <$> l) -> id ∈ key <$> l ->
  length (filter (fun s => key s = id) l) = 1%nat.
Proof.
  induction l as [|s l IH]; simpl; intros Hnd Hin; [by apply elem_of_nil in Hin|].
  apply NoDup_cons in Hnd as [Hs Hnd].
  destruct (decide (key s = id)) as [Heq|Hne].
  - rewrite filter_cons_True by done. simpl. f_equal.
    apply length_zero_iff_nil. rewrite <- Heq in *.
    clear IH Hin Hnd. induction l as [|s' l IH]; [done|].
    rewrite fmap_cons, not_elem_of_cons in Hs. destruct Hs as [? ?].
    rewrite filter_cons_False by done. by apply IH.
  - rewrite filter_cons_False by done. apply IH; [done|].
    apply elem_of_cons in Hin as [?|?]; [congruence|done].
Qed.

(** What C1 needs, for either marketplace. *)
Lemma create_stocks_with_covers watch ids :
  NoDup ids -> first_matches_normalise watch ids ->
  exists stocks rest,
    create_stocks_with entry watch ids = (Ok stocks, rest) /\
    length stocks = length ids /\
    key <$> stocks ≡ₚ ids /\
    forall id, id ∈ ids -> length (filter (fun s => key s = id) stocks) = 1%nat.
Proof.
  intros Hnd Hpre.
  destruct (create_stocks_with_returns entry watch ids) as (stocks & rest & Hrun); [by left|].
  pose proof (create_stocks_with_keys _ _ _ _ Hrun) as Hk.
  exists stocks, rest. split_and!; [done| |done|].
  - by rewrite <- (length_fmap key), Hk.
  - intros id Hin. apply keyed_once; by rewrite Hk.
Qed.

(** What C2 needs, for either marketplace. *)
Lemma create_stocks_with_zero_defaults watch ids stocks rest :
  create_stocks_with entry watch ids = (Ok stocks, rest) ->
  exists matched,
    stocks = matched ++ ((fun id => entry id 0) <$> rest) /\
    Forall (fun s => key s ∈ code_of <$> watch) matched /\
    unmatched watch rest = unmatched watch ids /\
    (NoDup ids -> rest = unmatched watch ids) /\
    (forall id, id ∈ ids -> id ∉ code_of <$> watch -> entry id 0 ∈ stocks) /\
    (forall s, s ∈ stocks -> key s ∉ code_of <$> watch -> s = entry (key s) 0).
Proof.
  intros Hrun.
  destruct (create_stocks_with_shape _ _ _ _ _ Hrun) as (matched & -> & _ & Hs & _ & _ & Hf).
  assert (Hm : Forall (fun s => key s ∈ code_of <$> watch)
                 ((fun p => entry p.1 p.2) <$> matched)).
  { apply Forall_fmap, Forall_forall. intros [id z] Hin. simpl. rewrite key_entry.
    eapply sublist_subseteq; [exact Hs|].
    by apply (list_elem_of_fmap_2 fst _ (id, z)). }
  eexists. split_and!; [done|exact Hm|exact Hf| | |].
  - intros Hnd. by eapply create_stocks_with_rest.
  - intros id Hin Hn. apply elem_of_app. right.
    apply (list_elem_of_fmap_2 (fun id => entry id 0)).
    assert (Hu : id ∈ unmatched watch ids) by by apply list_elem_of_filter.
    unfold unmatched in Hu. rewrite <- Hf in Hu.
    by apply list_elem_of_filter in Hu as [_ ?].
  - intros s Hin Hn. apply elem_of_app in Hin as [Hin|Hin].
    + rewrite Forall_forall in Hm. by destruct (Hn (Hm s Hin)).
    + apply list_elem_of_fmap in Hin as (id & -> & _). by rewrite key_entry.
Qed.
End ReconcileKeys.

(** The two [create_stocks] are the shared loops at their dictionaries. *)
Lemma seller_create_stocks_with watch :
  Seller.create_stocks watch =
  create_stocks_with (fun id z => {| Seller.offer_id := id; Seller.stock := z |}) watch.
Proof. reflexivity. Qed.

Lemma market_create_stocks_with date watch warehouse_id :
  Market.create_stocks date watch warehouse_id =
  create_stocks_with
    (fun id z => {|
       Market.sku := id;
       Market.warehouseId := warehouse_id;
       Market.items := [{| Market.count := z; Market.type := "FIT"; Market.updatedAt := date |}]
     |}) watch.
Proof. reflexivity. Qed.

Lemma unmatched_nil watch ids :
  unmatched watch ids = [] <-> forall id, id ∈ ids -> id ∈ code_of <$> watch.
Proof.
  unfold unmatched. split.
  - intros Hnil id Hin. destruct (decide (id ∈ code_of <$> watch)) as [|Hn]; [done|].
    assert (Hf : id ∈ filter (fun id => id ∉ code_of <$> watch) ids)
      by by apply list_elem_of_filter.
    rewrite Hnil in Hf. by apply elem_of_nil in Hf.
  - intros Hall. induction ids as [|x l IH]; [done|].
    rewrite filter_cons_False.
    + apply IH. intros id Hid. apply Hall. by right.
    + intros Hn. apply Hn, Hall. by left.
Qed.

Lemma filter_ext_in {A : Type} (P1 P2 : A -> Prop)
    `{!forall x, Decision (P1 x), !forall x, Decision (P2 x)} (l : list A) :
  (forall x, x ∈ l -> P1 x <-> P2 x) -> filter P1 l = filter P2 l.
Proof.
  induction l as [|a l IH]; intros Hall; [done|].
  assert (Ha := Hall a ltac:(by left)).
  assert (Hl : filter P1 l = filter P2 l)
    by (apply IH; intros x Hx; apply Hall; by right).
  destruct (decide (P1 a)).
  - rewrite !filter_cons_True by tauto. by rewrite Hl.
  - rewrite !filter_cons_False by tauto. done.
Qed.

Lemma filter_all {A : Type} (P : A -> Prop) `{!forall x, Decision (P x)} (l : list A) :
  (forall x, x ∈ l -> P x) -> filter P l = l.
Proof.
  induction l as [|a l IH]; intros Hall; [done|].
  rewrite filter_cons_True by (apply Hall; by left).
  f_equal. apply IH. intros x Hx. apply Hall. by right.
Qed.

Section ReconcileFailure.
Context {R : Type}.
Variable entry : string -> Z -> R.

Lemma unmatched_cons_absent w ws ids :
  code_of w ∉ ids -> unmatched (w :: ws) ids = unmatched ws ids.
Proof.
  intros Hn. unfold unmatched. apply filter_ext_in.
  intros id Hid. rewrite fmap_cons, not_elem_of_cons.
  split; [tauto|]. intros H. split; [|done]. by intros ->.
Qed.

Lemma stocks_loop_fails watch : forall i w e acc ids,
  NoDup ids -> watch !! i = Some w -> code_of w ∈ ids ->
  (forall j w', (j < i)%nat -> watch !! j = Some w' -> code_of w' <> code_of w) ->
  normalize_quantity (get w "Количество") = Raise e ->
  first_matches_normalise (take i watch) ids ->
  for_each (stocks_body entry) watch acc ids = (Raise e, unmatched (take i watch) ids).
Proof.
  induction watch as [|w0 ws IH]; intros i w e acc ids Hnd Hi Hin Hf Hq Hpre.
  { by rewrite lookup_nil in Hi. }
  rewrite for_each_cons, stocks_body_run. destruct i as [|i].
  { injection Hi as ->. rewrite bool_decide_eq_true_2 by done. rewrite Hq.
    f_equal. unfold unmatched. simpl. symmetry. apply filter_all.
    intros id _. apply not_elem_of_nil. }
  simpl in Hi. rewrite firstn_cons in Hpre |- *.
  assert (Hne : code_of w0 <> code_of w) by (apply (Hf 0%nat); [lia|done]).
  assert (Hf' : forall j w', (j < i)%nat -> ws !! j = Some w' -> code_of w' <> code_of w).
  { intros j w' Hj Hw'. apply (Hf (S j)); [lia|done]. }
  assert (Htail : forall ids1, ids1 `sublist_of` ids -> code_of w0 ∉ ids1 ->
            first_matches_normalise (take i ws) ids1).
  { intros ids1 Hs Hx k w' Hk Hin' Hfirst. apply (Hpre (S k) w' Hk).
    - by eapply sublist_subseteq.
    - intros [|j] w'' Hj Hw''.
      + injection Hw'' as <-. intros Heq. apply Hx. by rewrite Heq.
      + apply (Hfirst j); [lia|done]. }
  case_bool_decide as Hin0.
  - assert (Hq0 : is_ok (normalize_quantity (get w0 "Количество"))).
    { apply (Hpre 0%nat w0); [done..|]. intros j w' Hj. lia. }
    destruct (normalize_quantity (get w0 "Количество")) as [z|e0]; [|done].
    destruct (remove_first_elem _ _ Hin0) as [ids1 Hr]. rewrite Hr.
    destruct (remove_first_split _ _ _ Hr) as (l1 & l2 & -> & ->).
    apply without_one_NoDup in Hnd as [Hx Hnd].
    rewrite (IH i w e _ (l1 ++ l2)); [|done..| |done|done| ].
    + f_equal. unfold unmatched.
      rewrite <- (without_one_filter _ (code_of w0) l1 l2).
      * apply filter_ext_in. intros id Hid. rewrite fmap_cons, not_elem_of_cons.
        split; [|tauto]. intros H. split; [|done]. by intros ->.
      * rewrite fmap_cons, not_elem_of_cons. tauto.
    + rewrite elem_of_app, elem_of_cons in Hin. rewrite elem_of_app.
      destruct Hin as [?|[?|?]]; [by left|congruence|by right].
    + apply Htail; [apply without_one_sublist|done].
  - rewrite (IH i w e _ ids); [|done..|by apply Htail].
    f_equal. symmetry. by apply unmatched_cons_absent.
Qed.
End ReconcileFailure.

(** Among the records that are the first with their code and have it in
    the list, either those of the first [k] records all normalise, or one
    of them is the first that does not. *)
Lemma first_unaccepted watch ids : forall k,
  first_matches_normalise (take k watch) ids \/
  exists i w e, (i < k)%nat /\ watch !! i = Some w /\ code_of w ∈ ids /\
    (forall j w', (j < i)%nat -> watch !! j = Some w' -> code_of w' <> code_of w) /\
    normalize_quantity (get w "Количество") = Raise e /\
    first_matches_normalise (take i watch) ids.
Proof.
  induction k as [|k IH].
  { left. intros i w Hi. by rewrite take_0, lookup_nil in Hi. }
  destruct IH as [Hpre|(i & w & e & Hi & H)]; [|right; exists i, w, e; split; [lia|done]].
  destruct (watch !! k) as [w|] eqn:Hk.
  2:{ left. apply lookup_ge_None in Hk. rewrite take_ge in Hpre |- * by lia. done. }
  assert (Hlook : forall j w', (j < k)%nat ->
            take (S k) watch !! j = Some w' <-> watch !! j = Some w').
  { intros j w' Hj. by rewrite lookup_take_lt by lia. }
  assert (Hother : forall i' w', (i' < k)%nat -> take (S k) watch !! i' = Some w' ->
            code_of w' ∈ ids ->
            (forall j w'', (j < i')%nat -> take (S k) watch !! j = Some w'' ->
               code_of w'' <> code_of w') ->
            is_ok (normalize_quantity (get w' "Количество"))).
  { intros i' w' Hi' Hw' Hin Hfirst. apply (Hpre i' w'); [|done|].
    - rewrite lookup_take_lt by lia. by apply Hlook.
    - intros j w'' Hj Hw''. apply (Hfirst j); [done|].
      rewrite lookup_take_lt in Hw'' by lia. apply Hlook; [lia|done]. }
  assert (Hat : forall i' w', take (S k) watch !! i' = Some w' ->
            (i' < k)%nat \/ (i' = k /\ w' = w)).
  { intros i' w' Hw'. destruct (decide (i' < k)%nat) as [|Hge]; [by left|right].
    assert (i' < S k)%nat.
    { apply lookup_lt_Some in Hw'. rewrite length_take in Hw'. lia. }
    assert (i' = k) as -> by lia. split; [done|].
    rewrite lookup_take_lt in Hw' by lia. congruence. }
  destruct (decide (code_of w ∈ ids)) as [Hin|Hnin].
  2:{ left. intros i' w' Hw' Hin' Hfirst.
      destruct (Hat _ _ Hw') as [?|[-> ->]]; [by apply (Hother i')|done]. }
  destruct (decide (code_of w ∈ code_of <$> take k watch)) as [Hseen|Hnew].
  { left. intros i' w' Hw' Hin' Hfirst.
    destruct (Hat _ _ Hw') as [?|[-> ->]]; [by apply (Hother i')|].
    apply list_elem_of_fmap in Hseen as (w0 & Heq & Hw0).
    apply list_elem_of_lookup in Hw0 as [j Hj].
    assert (j < k)%nat.
    { apply lookup_lt_Some in Hj. rewrite length_take in Hj. lia. }
    destruct (Hfirst j w0); [done| |done].
    rewrite lookup_take_lt in Hj by lia. by apply Hlook. }
  destruct (normalize_quantity (get w "Количество")) as [z|e] eqn:Hq.
  { left. intros i' w' Hw' Hin' Hfirst.
    destruct (Hat _ _ Hw') as [?|[-> ->]]; [by apply (Hother i')|]. by rewrite Hq. }
  right. exists k, w, e. split_and!; [lia|done..| |done|done].
  intros j w' Hj Hw' Heq. apply Hnew. rewrite <- Heq.
  apply list_elem_of_fmap_2. apply list_elem_of_lookup. exists j.
  by rewrite lookup_take_lt by lia.
Qed.

Lemma normalize_quantity_text_raises quantity s e :
  quantity = VStr s -> normalize_quantity quantity = Raise e -> e = ValueError.
Proof.
  intros ->. unfold normalize_quantity. simpl.
  destruct (String.eqb s ">10"); [done|]. destruct (String.eqb s "1"); [done|].
  apply py_int_str_raises.
Qed.

(** C1 as the code has it, for a duplicate-free list of identifiers.
    When each record of the feed that is the first with its code, and
    whose code is in the list, has a quantity that normalises,
    [create_stocks] of either marketplace returns as many entries as there
    are identifiers, their [offer_id]/[sku] are the identifiers up to
    order, and each identifier is that of exactly one entry.  When the
    quantity of such a record does not normalise, [create_stocks] of
    either marketplace returns no list: it raises the exception of the
    first such record of the feed, which is the [ValueError] of [int] when
    that quantity is a text. *)
Theorem create_stocks_one_entry_per_identifier
    (watch : list dict) (ids : list string) (date warehouse_id : string) :
  NoDup ids ->
  (first_matches_normalise watch ids ->
   (exists stocks rest,
      Seller.create_stocks watch ids = (Ok stocks, rest) /\
      length stocks = length ids /\
      Seller.offer_id <$> stocks ≡ₚ ids /\
      forall id, id ∈ ids ->
        length (filter (fun s => Seller.offer_id s = id) stocks) = 1%nat) /\
   (exists stocks rest,
      Market.create_stocks date watch warehouse_id ids = (Ok stocks, rest) /\
      length stocks = length ids /\
      Market.sku <$> stocks ≡ₚ ids /\
      forall id, id ∈ ids ->
        length (filter (fun s => Market.sku s = id) stocks) = 1%nat)) /\
  (forall i w e, watch !! i = Some w -> code_of w ∈ ids ->
     (forall j w', (j < i)%nat -> watch !! j = Some w' -> code_of w' <> code_of w) ->
     normalize_quantity (get w "Количество") = Raise e ->
     exists i0 w0 e0,
       (i0 <= i)%nat /\ watch !! i0 = Some w0 /\ code_of w0 ∈ ids /\
       (forall j w', (j < i0)%nat -> watch !! j = Some w' -> code_of w' <> code_of w0) /\
       normalize_quantity (get w0 "Количество") = Raise e0 /\
       first_matches_normalise (take i0 watch) ids /\
       (forall s, get w0 "Количество" = VStr s -> e0 = ValueError) /\
       (exists rest, Seller.create_stocks watch ids = (Raise e0, rest)) /\
       (exists rest,
          Market.create_stocks date watch warehouse_id ids = (Raise e0, rest)) /\
       (forall stocks rest, Seller.create_stocks watch ids <> (Ok stocks, rest)) /\
       (forall stocks rest,
          Market.create_stocks date watch warehouse_id ids <> (Ok stocks, rest))).
Proof.
  intros Hnd. split.
  { intros Hpre. split.
    - rewrite seller_create_stocks_with. by apply create_stocks_with_covers.
    - rewrite market_create_stocks_with. by apply create_stocks_with_covers. }
  intros i w e Hi Hin Hfirst Hq.
  destruct (first_unaccepted watch ids (S i))
    as [Hpre|(i0 & w0 & e0 & Hi0 & Hw0 & Hin0 & Hfirst0 & Hq0 & Hpre0)].
  { assert (Hok : is_ok (normalize_quantity (get w "Количество"))).
    { apply (Hpre i w); [by rewrite lookup_take_lt by lia|done|].
      intros j w' Hj Hw'. rewrite lookup_take_lt in Hw' by lia. by apply (Hfirst j). }
    by rewrite Hq in Hok. }
  assert (Hs : Seller.create_stocks watch ids = (Raise e0, unmatched (take i0 watch) ids)).
  { rewrite seller_create_stocks_with, create_stocks_with_run.
    by rewrite (stocks_loop_fails _ watch i0 w0 e0). }
  assert (Hm : Market.create_stocks date watch warehouse_id ids
               = (Raise e0, unmatched (take i0 watch) ids)).
  { rewrite market_create_stocks_with, create_stocks_with_run.
    by rewrite (stocks_loop_fails _ watch i0 w0 e0). }
  exists i0, w0, e0. split_and!; [lia|done..| | | | |].
  - intros s Hs0. by eapply normalize_quantity_text_raises.
  - by eexists.
  - by eexists.
  - intros stocks rest. by rewrite Hs.
  - intros stocks rest. by rewrite Hm.
Qed.

Lemma sample_first_matches_normalise :
  first_matches_normalise [sample_watch; sample_watch] ["A"; "B"].
Proof.
  intros [|[|i]] w Hw Hin Hfirst; simplify_eq/=.
  - by vm_compute.
  - by vm_compute.
Qed.

Lemma create_stocks_one_entry_per_identifier_witness :
  NoDup ["A"; "B"] /\
  first_matches_normalise [sample_watch; sample_watch] ["A"; "B"] /\
  (exists stocks rest,
     Seller.create_stocks [sample_watch; sample_watch] ["A"; "B"] = (Ok stocks, rest) /\
     length stocks = 2%nat) /\
  normalize_quantity (get unparsable_watch "Количество") = Raise ValueError /\
  exists rest, Seller.create_stocks [unparsable_watch] ["A"] = (Raise ValueError, rest).
Proof.
  assert (Hnd : NoDup ["A"; "B"]) by compute_done.
  assert (Hnd1 : NoDup ["A"]) by compute_done.
  assert (Hq : normalize_quantity (get unparsable_watch "Количество") = Raise ValueError)
    by reflexivity.
  split; [exact Hnd|]. split; [exact sample_first_matches_normalise|].
  split; [|split; [exact Hq|]].
  - destruct (create_stocks_one_entry_per_identifier
                [sample_watch; sample_watch] ["A"; "B"] "" "" Hnd) as [Hret _].
    destruct (Hret sample_first_matches_normalise) as [(stocks & rest & Hrun & Hlen & _) _].
    by exists stocks, rest.
  - destruct (create_stocks_one_entry_per_identifier
                [unparsable_watch] ["A"] "" "" Hnd1) as [_ Hfail].
    destruct (Hfail 0%nat unparsable_watch ValueError)
      as (i0 & w0 & e0 & Hi0 & Hw0 & _ & _ & _ & _ & Htext & Hs & _).
    + reflexivity.
    + compute_done.
    + intros j w' Hj. lia.
    + exact Hq.
    + assert (i0 = 0%nat) as -> by lia. injection Hw0 as <-.
      rewrite (Htext "abc" eq_refl) in Hs. exact Hs.
Defined.

(** C1 as stated fails: a matched record whose quantity is no numeral
    makes [create_stocks] raise, so that no list is returned. *)
Lemma create_stocks_unparsable_counterexample :
  NoDup ["A"] /\
  Seller.create_stocks [unparsable_watch] ["A"] = (Raise ValueError, ["A"]) /\
  ~ (exists stocks rest,
       Seller.create_stocks [unparsable_watch] ["A"] = (Ok stocks, rest) /\
       length stocks = 1%nat).
Proof.
  split; [compute_done|].
  assert (H : Seller.create_stocks [unparsable_watch] ["A"] = (Raise ValueError, ["A"]))
    by (vm_compute; reflexivity).
  split; [exact H|]. intros (stocks & rest & Hrun & _). congruence.
Qed.

(** C2: [create_stocks] of either marketplace returns whenever the
    quantities of the records whose code is in the list normalise; and what
    it returns is the entries of matched records, all carrying a code of
    the feed, followed by a stock of 0 for each identifier left in the list.
    Those are, in the order of the list passed in, the identifiers equal to
    no code of the feed (and nothing else when the list is duplicate-free),
    so that each such identifier has its zero entry and any entry whose
    identifier is no code of the feed is a zero entry. *)
Theorem create_stocks_zero_defaults
    (watch : list dict) (ids : list string) (date warehouse_id : string) :
  ((forall w, w ∈ watch -> code_of w ∈ ids ->
      is_ok (normalize_quantity (get w "Количество"))) ->
   (exists stocks rest, Seller.create_stocks watch ids = (Ok stocks, rest)) /\
   (exists stocks rest,
      Market.create_stocks date watch warehouse_id ids = (Ok stocks, rest))) /\
  (forall stocks rest,
     Seller.create_stocks watch ids = (Ok stocks, rest) ->
     exists matched,
       stocks = matched ++ ((fun id => seller_stock id 0) <$> rest) /\
       Forall (fun s => Seller.offer_id s ∈ code_of <$> watch) matched /\
       unmatched watch rest = unmatched watch ids /\
       (NoDup ids -> rest = unmatched watch ids) /\
       (forall id, id ∈ ids -> id ∉ code_of <$> watch -> seller_stock id 0 ∈ stocks) /\
       (forall s, s ∈ stocks -> Seller.offer_id s ∉ code_of <$> watch ->
          Seller.stock s = 0)) /\
  (forall stocks rest,
     Market.create_stocks date watch warehouse_id ids = (Ok stocks, rest) ->
     exists matched,
       stocks = matched ++ ((fun id => market_stock warehouse_id date id 0) <$> rest) /\
       Forall (fun s => Market.sku s ∈ code_of <$> watch) matched /\
       unmatched watch rest = unmatched watch ids /\
       (NoDup ids -> rest = unmatched watch ids) /\
       (forall id, id ∈ ids -> id ∉ code_of <$> watch ->
          market_stock warehouse_id date id 0 ∈ stocks) /\
       (forall s, s ∈ stocks -> Market.sku s ∉ code_of <$> watch ->
          Market.count <$> Market.items s = [0])).
Proof.
  split_and!.
  - intros Hq. split.
    + rewrite seller_create_stocks_with. apply create_stocks_with_returns. by right.
    + rewrite market_create_stocks_with. apply create_stocks_with_returns. by right.
  - intros stocks rest Hrun. rewrite seller_create_stocks_with in Hrun.
    destruct (create_stocks_with_zero_defaults seller_stock Seller.offer_id
                (fun _ _ => eq_refl) _ _ _ _ Hrun) as (m & H1 & H2 & H3 & H4 & H5 & Hz).
    exists m. split_and!; [exact H1|exact H2|exact H3|exact H4|exact H5|].
    intros s Hs Hn. by rewrite (Hz s Hs Hn).
  - intros stocks rest Hrun. rewrite market_create_stocks_with in Hrun.
    destruct (create_stocks_with_zero_defaults (market_stock warehouse_id date) Market.sku
                (fun _ _ => eq_refl) _ _ _ _ Hrun) as (m & H1 & H2 & H3 & H4 & H5 & Hz).
    exists m. split_and!; [exact H1|exact H2|exact H3|exact H4|exact H5|].
    intros s Hs Hn. by rewrite (Hz s Hs Hn).
Qed.

Lemma create_stocks_zero_defaults_witness :
  exists stocks rest,
    Seller.create_stocks [sample_watch] ["C"; "A"; "B"] = (Ok stocks, rest) /\
    seller_stock "B" 0 ∈ stocks /\
    exists matched,
      stocks = matched ++ ((fun id => seller_stock id 0) <$> rest) /\
      rest = unmatched [sample_watch] ["C"; "A"; "B"].
Proof.
  destruct (create_stocks_zero_defaults [sample_watch] ["C"; "A"; "B"] "" "")
    as (Hret & Hshape & _).
  destruct Hret as [(stocks & rest & Hrun) _].
  { intros w Hw _. apply list_elem_of_singleton in Hw as ->. by vm_compute. }
  exists stocks, rest. split; [exact Hrun|].
  destruct (Hshape stocks rest Hrun) as (m & Hs & _ & _ & Hnd & Hin & _).
  split.
  - apply Hin; [compute_done|compute_done].
  - exists m. split; [exact Hs|]. apply Hnd. compute_done.
Defined.

(** C3 as the code has it: whatever the outcome of [create_stocks], the
    list passed in keeps a subsequence of its elements that still holds
    every identifier equal to no code of the feed; after a return on a
    duplicate-free list it holds exactly those identifiers, in their order,
    and is empty only when every identifier is a code of the feed. *)
Theorem create_stocks_leaves_unmatched
    (watch : list dict) (ids : list string) (date warehouse_id : string) :
  (forall res rest,
     Seller.create_stocks watch ids = (res, rest) ->
     rest `sublist_of` ids /\
     unmatched watch rest = unmatched watch ids /\
     (NoDup ids -> is_ok res ->
        rest = unmatched watch ids /\
        (rest = [] <-> forall id, id ∈ ids -> id ∈ code_of <$> watch))) /\
  (forall res rest,
     Market.create_stocks date watch warehouse_id ids = (res, rest) ->
     rest `sublist_of` ids /\
     unmatched watch rest = unmatched watch ids /\
     (NoDup ids -> is_ok res ->
        rest = unmatched watch ids /\
        (rest = [] <-> forall id, id ∈ ids -> id ∈ code_of <$> watch))).
Proof.
  assert (Hgen : forall (R : Type) (entry : string -> Z -> R) res rest,
    create_stocks_with entry watch ids = (res, rest) ->
    rest `sublist_of` ids /\
    unmatched watch rest = unmatched watch ids /\
    (NoDup ids -> is_ok res ->
       rest = unmatched watch ids /\
       (rest = [] <-> forall id, id ∈ ids -> id ∈ code_of <$> watch))).
  { intros R entry res rest Hrun.
    destruct (create_stocks_with_store _ _ _ _ _ Hrun) as [Hs Hu].
    split_and!; [done..|]. intros Hnd Hok. destruct res as [stocks|e]; [|done].
    pose proof (create_stocks_with_rest _ _ _ _ _ Hnd Hrun) as Hr.
    split; [exact Hr|]. fold (unmatched watch ids) in Hr. rewrite Hr.
    apply unmatched_nil. }
  split; intros res rest Hrun.
  - exact (Hgen _ seller_stock res rest Hrun).
  - exact (Hgen _ (market_stock warehouse_id date) res rest Hrun).
Qed.

Lemma create_stocks_leaves_unmatched_witness :
  snd (Seller.create_stocks [sample_watch] ["C"; "A"; "B"]) = ["C"; "B"].
Proof.
  destruct (Seller.create_stocks [sample_watch] ["C"; "A"; "B"]) as [res rest] eqn:Hrun.
  destruct (create_stocks_leaves_unmatched [sample_watch] ["C"; "A"; "B"] "" "")
    as [Hs _].
  destruct (Hs res rest Hrun) as (_ & _ & Hnd).
  destruct Hnd as [-> _]; [compute_done| |by vm_compute].
  apply (f_equal fst) in Hrun. simpl in Hrun. rewrite <- Hrun. by vm_compute.
Defined.

(** C3 as stated fails: the identifier given a zero stock stays in the
    list. *)
Lemma create_stocks_store_counterexample :
  Seller.create_stocks [] ["X"] = (Ok [seller_stock "X" 0], ["X"]) /\
  snd (Seller.create_stocks [] ["X"]) <> [].
Proof. split; [reflexivity|]. simpl. discriminate. Qed.

(** ** The price loops *)

Section PriceLoops.
Context {P : Type}.
Variable mk : dict -> result P.

Lemma prices_body_run w acc ids :
  prices_body mk w acc ids =
  (if bool_decide (code_of w ∈ ids) then
     match mk w with
     | Ok p => Ok (acc ++ [p])
     | Raise e => Raise e
     end
   else Ok acc, ids).
Proof.
  unfold prices_body, bind, contains, lift, ret, code_of.
  destruct (bool_decide _); [|done]. by destruct (mk w).
Qed.

(** The loop never touches the list. *)
Lemma prices_loop_store watch : forall acc ids,
  snd (for_each (prices_body mk) watch acc ids) = ids.
Proof.
  induction watch as [|w ws IH]; intros acc ids; [done|].
  rewrite for_each_cons, prices_body_run.
  case_bool_decide; [|apply IH]. destruct (mk w); [apply IH|done].
Qed.

(** A run that ends well appended the dictionary of every record whose
    code is in the list, and nothing else. *)
Lemma prices_loop_ok watch : forall acc ids prices,
  fst (for_each (prices_body mk) watch acc ids) = Ok prices ->
  (forall w, w ∈ watch -> code_of w ∈ ids -> exists p, mk w = Ok p /\ p ∈ prices) /\
  (forall p, p ∈ prices ->
     p ∈ acc \/ exists w, w ∈ watch /\ code_of w ∈ ids /\ mk w = Ok p) /\
  (forall p, p ∈ acc -> p ∈ prices).
Proof.
  induction watch as [|w ws IH]; intros acc ids prices.
  { intros [= <-]. split_and!; [|by left|done]. intros w Hw. by apply elem_of_nil in Hw. }
  rewrite for_each_cons, prices_body_run. case_bool_decide as Hin.
  - destruct (mk w) as [p0|e] eqn:Hmk; [|done]. intros Hrun.
    destruct (IH _ _ _ Hrun) as (Hall & Honly & Hacc). split_and!.
    + intros w' Hw' Hin'. apply elem_of_cons in Hw' as [->|Hw']; [|by apply Hall].
      exists p0. split; [done|]. apply Hacc, elem_of_app. right. by left.
    + intros p Hp. destruct (Honly p Hp) as [Ha|(w' & ? & ? & ?)].
      * apply elem_of_app in Ha as [?|Ha]; [by left|].
        apply list_elem_of_singleton in Ha as ->. right. exists w. split; [by left|done].
      * right. exists w'. split; [by right|done].
    + intros p Hp. apply Hacc, elem_of_app. by left.
  - intros Hrun. destruct (IH _ _ _ Hrun) as (Hall & Honly & Hacc). split_and!.
    + intros w' Hw' Hin'. apply elem_of_cons in Hw' as [->|Hw']; [done|by apply Hall].
    + intros p Hp. destruct (Honly p Hp) as [?|(w' & ? & ? & ?)]; [by left|].
      right. exists w'. split; [by right|done].
    + done.
Qed.

(** A run that raises does so at a record whose code is in the list. *)
Lemma prices_loop_raise watch : forall acc ids e,
  fst (for_each (prices_body mk) watch acc ids) = Raise e ->
  exists w, w ∈ watch /\ code_of w ∈ ids /\ mk w = Raise e.
Proof.
  induction watch as [|w ws IH]; intros acc ids e; [done|].
  rewrite for_each_cons, prices_body_run. case_bool_decide as Hin.
  - destruct (mk w) as [p0|e0] eqn:Hmk.
    + intros Hrun. destruct (IH _ _ _ Hrun) as (w' & ? & ?).
      exists w'. split; [by right|done].
    + intros [= <-]. exists w. split; [by left|done].
  - intros Hrun. destruct (IH _ _ _ Hrun) as (w' & ? & ?).
    exists w'. split; [by right|done].
Qed.
End PriceLoops.

Lemma for_each_ext {A S : Type} (f g : A -> S -> M S) xs :
  (forall x acc ids, f x acc ids = g x acc ids) ->
  forall acc ids, for_each f xs acc ids = for_each g xs acc ids.
Proof.
  intros Hfg. induction xs as [|x xs IH]; intros acc ids; [done|].
  rewrite !for_each_cons, Hfg.
  destruct (g x acc ids) as [[acc'|e] ids']; [apply IH|done].
Qed.

Lemma seller_create_prices_with watch ids :
  Seller.create_prices watch ids = for_each (prices_body seller_price) watch [] ids.
Proof.
  unfold Seller.create_prices. apply for_each_ext. intros w acc ids0.
  unfold prices_body, seller_price, bind, contains, lift, ret.
  destruct (bool_decide _); [|done]. by destruct (price_conversion _).
Qed.

Lemma market_create_prices_with watch ids :
  Market.create_prices watch ids = for_each (prices_body market_price) watch [] ids.
Proof.
  unfold Market.create_prices. apply for_each_ext. intros w acc ids0.
  unfold prices_body, market_price, bind, contains, lift, ret.
  destruct (bool_decide _); [|done]. destruct (price_conversion _); [|done].
  by destruct (py_int_str _).
Qed.

Lemma seller_price_key w p : seller_price w = Ok p -> Seller.price_offer_id p = code_of w.
Proof.
  unfold seller_price. destruct (price_conversion _); [|done]. by intros [= <-].
Qed.

Lemma market_price_key w p : market_price w = Ok p -> Market.id p = code_of w.
Proof.
  unfold market_price. destruct (price_conversion _); [|done].
  destruct (py_int_str _); [|done]. by intros [= <-].
Qed.

(** C8: [create_prices] of either marketplace leaves the list of
    identifiers as it was, whatever the outcome; every price it returns
    carries an identifier of the list that is the code of a record of the
    feed, so that an identifier equal to no code of the feed gets no
    price. *)
Theorem create_prices_frame (watch : list dict) (ids : list string) :
  (snd (Seller.create_prices watch ids) = ids /\
   forall prices, fst (Seller.create_prices watch ids) = Ok prices ->
     (forall p, p ∈ prices ->
        Seller.price_offer_id p ∈ ids /\ Seller.price_offer_id p ∈ code_of <$> watch) /\
     (forall id, id ∈ ids -> id ∉ code_of <$> watch ->
        forall p, p ∈ prices -> Seller.price_offer_id p <> id)) /\
  (snd (Market.create_prices watch ids) = ids /\
   forall prices, fst (Market.create_prices watch ids) = Ok prices ->
     (forall p, p ∈ prices ->
        Market.id p ∈ ids /\ Market.id p ∈ code_of <$> watch) /\
     (forall id, id ∈ ids -> id ∉ code_of <$> watch ->
        forall p, p ∈ prices -> Market.id p <> id)).
Proof.
  assert (Hgen : forall (P : Type) (mk : dict -> result P) (key : P -> string),
    (forall w p, mk w = Ok p -> key p = code_of w) ->
    snd (for_each (prices_body mk) watch [] ids) = ids /\
    forall prices, fst (for_each (prices_body mk) watch [] ids) = Ok prices ->
      (forall p, p ∈ prices -> key p ∈ ids /\ key p ∈ code_of <$> watch) /\
      (forall id, id ∈ ids -> id ∉ code_of <$> watch ->
         forall p, p ∈ prices -> key p <> id)).
  { intros P mk key Hkey. split; [apply prices_loop_store|].
    intros prices Hrun. destruct (prices_loop_ok mk _ _ _ _ Hrun) as (_ & Honly & _).
    assert (Hp : forall p, p ∈ prices -> key p ∈ ids /\ key p ∈ code_of <$> watch).
    { intros p Hp. destruct (Honly p Hp) as [Ha|(w & Hw & Hin & Hmk)].
      - by apply elem_of_nil in Ha.
      - rewrite (Hkey w p Hmk). split; [done|]. by apply list_elem_of_fmap_2. }
    split; [exact Hp|]. intros id _ Hn p Hin <-. apply Hn. by apply Hp. }
  rewrite seller_create_prices_with, market_create_prices_with. split.
  - apply (Hgen _ seller_price Seller.price_offer_id seller_price_key).
  - apply (Hgen _ market_price Market.id market_price_key).
Qed.

Lemma create_prices_frame_witness :
  exists prices,
    Seller.create_prices [sample_watch] ["A"; "B"] = (Ok prices, ["A"; "B"]) /\
    forall p, p ∈ prices -> Seller.price_offer_id p <> "B".
Proof.
  destruct (create_prices_frame [sample_watch] ["A"; "B"]) as [[Hs Hp] _].
  destruct (Seller.create_prices [sample_watch] ["A"; "B"]) as [res rest] eqn:Hrun.
  simpl in Hs, Hp. subst rest.
  assert (Hres : res = fst (Seller.create_prices [sample_watch] ["A"; "B"]))
    by by rewrite Hrun.
  destruct res as [prices|e]; [|by vm_compute in Hres].
  exists prices. split; [done|].
  apply (proj2 (Hp prices eq_refl) "B"); compute_done.
Defined.

Lemma prices_loop_total {P : Type} (mk : dict -> result P) watch acc ids :
  (forall w, w ∈ watch -> code_of w ∈ ids -> is_ok (mk w)) ->
  exists prices, fst (for_each (prices_body mk) watch acc ids) = Ok prices.
Proof.
  intros Hall. destruct (fst (for_each _ _ _ _)) as [prices|e] eqn:Hrun; [by eexists|].
  destruct (prices_loop_raise mk _ _ _ _ Hrun) as (w & Hw & Hin & Hmk).
  specialize (Hall w Hw Hin). by rewrite Hmk in Hall.
Qed.

Lemma keep_digits_empty s :
  keep_digits s = EmptyString <->
  Forall (fun c => is_digit c = false) (String.list_ascii_of_string s).
Proof.
  unfold keep_digits. induction s as [|c t IH]; simpl; [done|].
  rewrite Forall_cons. destruct (is_digit c); simpl; [|tauto].
  split; [done|]. by intros [? _].
Qed.

(** C10: when the price of a record whose code is in the list converts to
    the empty text, which is when no digit comes before its first ["."],
    [market.create_prices] raises the [ValueError] of [int], while
    [seller.create_prices] returns and the price it gives that record is
    the empty text; the price cells of the records whose code is in the
    list are taken to be texts. *)
Theorem create_prices_empty_price (watch : list dict) (ids : list string) (w : dict) :
  (forall w', w' ∈ watch -> code_of w' ∈ ids -> exists s, get w' "Цена" = VStr s) ->
  w ∈ watch -> code_of w ∈ ids ->
  price_conversion (get w "Цена") = Ok EmptyString ->
  fst (Market.create_prices watch ids) = Raise ValueError /\
  (exists prices,
     fst (Seller.create_prices watch ids) = Ok prices /\
     {| Seller.auto_action_enabled := "UNKNOWN";
        Seller.currency_code := "RUB";
        Seller.price_offer_id := code_of w;
        Seller.old_price := "0";
        Seller.price := EmptyString |} ∈ prices) /\
  (forall s, price_conversion (VStr s) = Ok EmptyString <->
     Forall (fun c => is_digit c = false)
       (String.list_ascii_of_string (integer_part s))).
Proof.
  intros Htext Hw Hin Hempty. split_and!.
  - rewrite market_create_prices_with.
    destruct (fst (for_each _ _ _ _)) as [prices|e] eqn:Hrun.
    + destruct (prices_loop_ok market_price _ _ _ _ Hrun) as (Hall & _).
      destruct (Hall w Hw Hin) as (p & Hp & _).
      unfold market_price in Hp. by rewrite Hempty in Hp.
    + destruct (prices_loop_raise market_price _ _ _ _ Hrun) as (w' & Hw' & Hin' & Hmk).
      destruct (Htext w' Hw' Hin') as [s Hs].
      unfold market_price in Hmk. rewrite Hs in Hmk.
      rewrite (price_conversion_text s) in Hmk.
      destruct (py_int_str _) eqn:Hint; [done|].
      injection Hmk as <-. f_equal. by eapply py_int_str_raises.
  - rewrite seller_create_prices_with.
    destruct (prices_loop_total seller_price watch [] ids) as [prices Hrun].
    { intros w' Hw' Hin'. destruct (Htext w' Hw' Hin') as [s Hs].
      unfold seller_price. rewrite Hs.
      by rewrite (price_conversion_text s). }
    exists prices. split; [done|].
    destruct (prices_loop_ok seller_price _ _ _ _ Hrun) as (Hall & _).
    destruct (Hall w Hw Hin) as (p & Hp & Hpin).
    unfold seller_price in Hp. rewrite Hempty in Hp. by injection Hp as <-.
  - intros s. rewrite (price_conversion_text s).
    rewrite <- keep_digits_empty. split; [by intros [= ->]|by intros ->].
Qed.

Lemma create_prices_empty_price_witness :
  fst (Market.create_prices [sample_watch; unparsable_watch] ["A"]) = Raise ValueError /\
  exists prices,
    fst (Seller.create_prices [sample_watch; unparsable_watch] ["A"]) = Ok prices /\
    length prices = 2%nat.
Proof.
  destruct (create_prices_empty_price [sample_watch; unparsable_watch] ["A"]
              unparsable_watch) as (Hm & (prices & Hs & _) & _).
  - intros w' Hw' _.
    apply elem_of_cons in Hw' as [->|Hw']; [by eexists|].
    apply list_elem_of_singleton in Hw' as ->. by eexists.
  - apply elem_of_cons. right. by apply list_elem_of_singleton.
  - compute_done.
  - reflexivity.
  - split; [exact Hm|]. exists prices. split; [exact Hs|].
    assert (Hv : fst (Seller.create_prices [sample_watch; unparsable_watch] ["A"])
                 = Ok prices) by exact Hs.
    vm_compute in Hv. by injection Hv as <-.
Defined.

(** ** The count-based paginator *)

Section PaginatorFacts.
Variable get_product_list : nat -> string -> result Seller.page.

Local Abbreviation fetch_loop := (Seller.fetch_loop get_product_list).
Local Abbreviation fetched := (Seller.fetched get_product_list).
Local Abbreviation running := (Seller.running get_product_list).

Lemma below_total_running j : Seller.below_total get_product_list j -> running j.
Proof. intros (items & p & H & Hlt). exists items, p. split; [done|lia]. Qed.

Lemma fetched_prefix j :
  is_ok (fetched (S j)) -> is_ok (fetched j).
Proof. simpl. by destruct (fetched j). Qed.

Lemma fetch_loop_start fuel :
  fetch_loop (S fuel) 0 "" [] =
  match fetched 0 with
  | Raise e => Some (Raise e, 1%nat)
  | Ok (items, p) =>
      if Seller.total p =? Z.of_nat (length items) then Some (Ok items, 1%nat)
      else fetch_loop fuel 1 (Seller.last_id p) items
  end.
Proof. simpl. by destruct (get_product_list 0%nat ""). Qed.

Lemma fetch_loop_step k items p fuel :
  fetched k = Ok (items, p) ->
  fetch_loop (S fuel) (S k) (Seller.last_id p) items =
  match fetched (S k) with
  | Raise e => Some (Raise e, S (S k))
  | Ok (items', p') =>
      if Seller.total p' =? Z.of_nat (length items') then Some (Ok items', S (S k))
      else fetch_loop fuel (S (S k)) (Seller.last_id p') items'
  end.
Proof.
  intros H. simpl. rewrite H. by destruct (get_product_list (S k) (Seller.last_id p)).
Qed.

Lemma fetch_loop_run d : forall k items p fuel items' p',
  fetched k = Ok (items, p) ->
  (forall j, (k < j <= k + d)%nat -> running j) ->
  fetched (k + d) = Ok (items', p') ->
  fetch_loop (d + fuel) (S k) (Seller.last_id p) items =
  fetch_loop fuel (S (k + d)) (Seller.last_id p') items'.
Proof.
  induction d as [|d IH]; intros k items p fuel items' p' Hk Hrun Hd.
  - rewrite Nat.add_0_r in Hd. rewrite Hk in Hd. injection Hd as <- <-.
    by rewrite Nat.add_0_r.
  - change (S d + fuel)%nat with (S (d + fuel)). rewrite (fetch_loop_step _ _ _ _ Hk).
    destruct (Hrun (S k) ltac:(lia)) as (items1 & p1 & H1 & Hne).
    rewrite H1. rewrite (proj2 (Z.eqb_neq _ _) Hne).
    replace (k + S d)%nat with (S k + d)%nat in * by lia.
    apply IH; [done| |done]. intros j Hj. apply Hrun. lia.
Qed.

Lemma fetch_loop_skip n fuel items p :
  (forall j, (j <= n)%nat -> running j) ->
  fetched n = Ok (items, p) ->
  fetch_loop (S n + fuel) 0 "" [] = fetch_loop fuel (S n) (Seller.last_id p) items.
Proof.
  intros Hrun Hn. change (S n + fuel)%nat with (S (n + fuel)).
  rewrite fetch_loop_start.
  destruct (Hrun 0%nat ltac:(lia)) as (items0 & p0 & H0 & Hne).
  rewrite H0, (proj2 (Z.eqb_neq _ _) Hne).
  apply (fetch_loop_run n 0 items0 p0 fuel items p); [done| |done].
  intros j Hj. apply Hrun. lia.
Qed.

Lemma fetch_loop_running fuel :
  (forall j, (j < fuel)%nat -> running j) -> fetch_loop fuel 0 "" [] = None.
Proof.
  destruct fuel as [|n]; [done|]. intros Hrun.
  destruct (Hrun n ltac:(lia)) as (items & p & Hn & _).
  replace (S n) with (S n + 0)%nat by lia.
  rewrite (fetch_loop_skip n 0 items p); [done| |done].
  intros j Hj. apply Hrun. lia.
Qed.

Lemma fetch_loop_stops n items p fuel :
  (forall j, (j < n)%nat -> running j) ->
  fetched n = Ok (items, p) -> Z.of_nat (length items) = Seller.total p ->
  (n < fuel)%nat ->
  fetch_loop fuel 0 "" [] = Some (Ok items, S n).
Proof.
  intros Hrun Hn Heq Hfuel.
  assert (Hb : (Seller.total p =? Z.of_nat (length items)) = true)
    by (apply Z.eqb_eq; lia).
  destruct n as [|n].
  - destruct fuel as [|f]; [lia|]. by rewrite fetch_loop_start, Hn, Hb.
  - destruct (Hrun n ltac:(lia)) as (items' & p' & Hn' & _).
    replace fuel with (S n + S (fuel - S n - 1))%nat by lia.
    rewrite (fetch_loop_skip n _ items' p'); [|intros j Hj; apply Hrun; lia|done].
    by rewrite (fetch_loop_step _ _ _ _ Hn'), Hn, Hb.
Qed.

(** A stream that reaches its total does so at a first request. *)
Lemma first_at_total n :
  is_ok (fetched n) ->
  (exists m, (m <= n)%nat /\ Seller.at_total get_product_list m /\
     forall j, (j < m)%nat -> running j) \/
  (forall j, (j <= n)%nat -> running j).
Proof.
  induction n as [|n IH]; intros Hok.
  - destruct (fetched 0) as [[items p]|e] eqn:H0; [|done].
    destruct (decide (Z.of_nat (length items) = Seller.total p)) as [Heq|Hne].
    + left. exists 0%nat. split_and!; [lia|by exists items, p|intros j Hj; lia].
    + right. intros j Hj. replace j with 0%nat by lia. exists items, p.
      split; [done|congruence].
  - destruct (IH (fetched_prefix _ Hok)) as [(m & ? & ? & ?)|Hall].
    { left. exists m. split_and!; [lia|done..]. }
    destruct (fetched (S n)) as [[items p]|e] eqn:HS; [|done].
    destruct (decide (Z.of_nat (length items) = Seller.total p)) as [Heq|Hne].
    + left. exists (S n). split_and!; [lia|by exists items, p|].
      intros j Hj. apply Hall. lia.
    + right. intros j Hj. destruct (decide (j = S n)) as [->|]; [|apply Hall; lia].
      exists items, p. split; [done|congruence].
Qed.

Lemma get_offer_ids_of_loop fuel items calls :
  fetch_loop fuel 0 "" [] = Some (Ok items, calls) ->
  Seller.get_offer_ids get_product_list fuel =
    Some (Ok (Seller.product_offer_id <$> items), calls).
Proof.
  intros H. unfold Seller.get_offer_ids. rewrite H. by rewrite foldl_snoc.
Qed.

(** C9: while every request so far left the cumulative number of items
    below the reported total, [get_offer_ids] is still fetching; at the
    first request after which the two are equal it stops, having made that
    many requests and no more, and returns the identifiers of all items
    fetched, in fetch order; so it terminates on every page stream that
    reaches its reported total. *)
Theorem get_offer_ids_count_based :
  (forall fuel,
     (forall j, (j < fuel)%nat -> Seller.below_total get_product_list j) ->
     Seller.get_offer_ids get_product_list fuel = None) /\
  (forall n items p,
     (forall j, (j < n)%nat -> Seller.below_total get_product_list j) ->
     fetched n = Ok (items, p) -> Z.of_nat (length items) = Seller.total p ->
     forall fuel, (n < fuel)%nat ->
       Seller.get_offer_ids get_product_list fuel =
         Some (Ok (Seller.product_offer_id <$> items), S n)) /\
  (forall n, Seller.at_total get_product_list n ->
     exists m items p,
       (m <= n)%nat /\ fetched m = Ok (items, p) /\
       Z.of_nat (length items) = Seller.total p /\
       forall fuel, (m < fuel)%nat ->
         Seller.get_offer_ids get_product_list fuel =
           Some (Ok (Seller.product_offer_id <$> items), S m)).
Proof.
  split_and!.
  - intros fuel Hb. unfold Seller.get_offer_ids.
    rewrite fetch_loop_running; [done|]. intros j Hj. by apply below_total_running, Hb.
  - intros n items p Hb Hn Heq fuel Hfuel. apply get_offer_ids_of_loop.
    apply (fetch_loop_stops n items p); [|done..].
    intros j Hj. by apply below_total_running, Hb.
  - intros n (items & p & Hn & Heq).
    destruct (first_at_total n) as [(m & Hm & (items' & p' & Hm' & Heq') & Hrun)|Hall].
    + by rewrite Hn.
    + exists m, items', p'. split_and!; [done..|].
      intros fuel Hfuel. apply get_offer_ids_of_loop.
      by apply (fetch_loop_stops m items' p').
    + destruct (Hall n ltac:(lia)) as (items' & p' & Hn' & Hne).
      rewrite Hn in Hn'. injection Hn' as <- <-. lia.
Qed.

(** When the cumulative number of items differs from the reported total
    after every request, above as well as below, the loop never stops. *)
Remark get_offer_ids_keeps_fetching fuel :
  (forall j, (j < fuel)%nat -> running j) ->
  Seller.get_offer_ids get_product_list fuel = None.
Proof.
  intros Hrun. unfold Seller.get_offer_ids. by rewrite fetch_loop_running.
Qed.
End PaginatorFacts.

Lemma get_offer_ids_count_based_witness :
  Seller.get_offer_ids sample_server 5 = Some (Ok ["a"; "b"; "c"], 2%nat) /\
  Seller.get_offer_ids sample_server 1 = None.
Proof.
  destruct (get_offer_ids_count_based sample_server) as (Hgo & Hstop & _).
  assert (Hb : forall j, (j < 1)%nat -> Seller.below_total sample_server j).
  { intros j Hj. replace j with 0%nat by lia. eexists _, _. split; [reflexivity|]. simpl. lia. }
  split.
  - apply (Hstop 1%nat _ _ Hb eq_refl); [reflexivity|lia].
  - by apply Hgo.
Defined.

(** * Further properties of the code *)

(** ** [divide]: number and contents of the chunks *)

Lemma divide_chunks_facts {A : Type} (lst : list A) n chunks :
  0 < n -> divide lst n = Ok chunks ->
  chunks = List.map (fun k : nat => take (Z.to_nat n) (drop (k * Z.to_nat n) lst))
             (seq 0 (chunk_count lst n)) /\
  concat chunks = lst /\
  Forall (fun c => (1 <= length c)%nat /\ Z.of_nat (length c) <= n) chunks.
Proof.
  intros Hn Hd. rewrite divide_positive in Hd by done. injection Hd as <-.
  split; [done|].
  assert (Hb : lst <> [] ->
    (0 < chunk_count lst n)%nat /\
    Z.of_nat (chunk_count lst n - 1) * n < Z.of_nat (length lst)
      <= Z.of_nat (chunk_count lst n) * n)
    by (intros Hl; by apply chunk_count_bounds).
  split.
  - rewrite concat_chunks. destruct lst as [|x l]; [by rewrite take_nil|].
    apply take_ge. destruct Hb as (? & ? & ?); [done|nia].
  - apply Forall_forall. intros c Hc. apply list_elem_of_In, in_map_iff in Hc
      as (k & <- & Hk). apply in_seq in Hk.
    destruct lst as [|x l]; [unfold chunk_count in Hk; simpl in Hk; lia|].
    destruct Hb as (? & ? & ?); [done|].
    rewrite length_take, length_drop.
    assert (Z.of_nat k <= Z.of_nat (chunk_count (x :: l) n - 1)) by lia.
    assert (Z.of_nat k * n < Z.of_nat (length (x :: l))) by nia.
    split; nia.
Qed.

Lemma chunk_count_ceiling {A : Type} (lst : list A) n :
  0 < n ->
  Z.of_nat (chunk_count lst n) = (Z.of_nat (length lst) + n - 1) / n.
Proof.
  intros Hn. unfold chunk_count. destruct (0 <? Z.of_nat (length lst)) eqn:E.
  - apply Z.ltb_lt in E.
    replace (Z.of_nat (length lst) + n - 1) with (Z.of_nat (length lst) - 1 + 1 * n) by lia.
    rewrite Z.div_add by lia.
    rewrite Z2Nat.id; [done|]. assert (0 <= (Z.of_nat (length lst) - 1) / n); [|lia].
    apply Z.div_pos; lia.
  - apply Z.ltb_ge in E. replace (Z.of_nat (length lst)) with 0 by lia.
    rewrite Z.div_small; lia.
Qed.

(** X1: for a positive size [n], [divide] yields the ceiling of
    [len / n] chunks, element [j] of chunk [i] is element [i * n + j] of
    the list, and so element [k] of the list is element [k mod n] of chunk
    [k / n]. *)
Theorem divide_chunk_index {A : Type} (lst : list A) (n : Z) :
  0 < n ->
  exists chunks,
    divide lst n = Ok chunks /\
    Z.of_nat (length chunks) = (Z.of_nat (length lst) + n - 1) / n /\
    (forall i c j, chunks !! i = Some c -> Z.of_nat j < n ->
       c !! j = lst !! (i * Z.to_nat n + j)%nat) /\
    (forall k x, lst !! k = Some x ->
       exists c, chunks !! (k / Z.to_nat n)%nat = Some c /\
                 c !! (k mod Z.to_nat n)%nat = Some x).
Proof.
  intros Hn. destruct (divide lst n) as [chunks|e] eqn:Hd;
    [|by rewrite divide_positive in Hd].
  destruct (divide_chunks_facts _ _ _ Hn Hd) as (Hc & _ & _).
  exists chunks. split; [done|].
  set (m := Z.to_nat n) in *. assert (Hm : (0 < m)%nat) by lia.
  assert (Hlook : forall i, (i < chunk_count lst n)%nat ->
            chunks !! i = Some (take m (drop (i * m) lst))).
  { intros i Hi. rewrite Hc. change (List.map ?f ?l) with (f <$> l).
    by rewrite list_lookup_fmap, lookup_seq_lt. }
  split_and!.
  - rewrite Hc, length_map, length_seq. by apply chunk_count_ceiling.
  - intros i c j Hi Hj. assert (Hlt : (i < chunk_count lst n)%nat).
    { apply lookup_lt_Some in Hi. by rewrite Hc, length_map, length_seq in Hi. }
    rewrite (Hlook i Hlt) in Hi. injection Hi as <-.
    rewrite lookup_take_lt by lia. by rewrite lookup_drop.
  - intros k x Hk. eexists. split.
    + apply Hlook. apply lookup_lt_Some in Hk.
      pose proof (chunk_count_ceiling lst n Hn) as Hceil.
      assert (Hlen : lst <> []) by (intros ->; simpl in Hk; lia).
      destruct (chunk_count_bounds lst n Hn Hlen) as (_ & _ & Hle).
      apply Nat.Div0.div_lt_upper_bound. subst m. nia.
    + rewrite lookup_take_lt by (apply Nat.mod_upper_bound; lia).
      rewrite lookup_drop, <- Hk. f_equal.
      pose proof (Nat.div_mod_eq k m). lia.
Qed.

Lemma divide_chunk_index_witness :
  exists chunks,
    divide ["a"; "b"; "c"; "d"; "e"] 2 = Ok chunks /\
    length chunks = 3%nat /\
    exists c, chunks !! 2%nat = Some c /\ c !! 0%nat = Some "e".
Proof.
  destruct (divide_chunk_index ["a"; "b"; "c"; "d"; "e"] 2 ltac:(lia))
    as (chunks & Hd & Hlen & _ & Hk).
  exists chunks. split; [exact Hd|]. split.
  - apply Nat2Z.inj. rewrite Hlen. reflexivity.
  - exact (Hk 4%nat "e" eq_refl).
Defined.

(** ** [price_conversion] on its own results *)







(** ** Quantity cells that are not text, and negative quantities *)





Lemma decimal_value_nonneg s : all_digits s -> 0 <= decimal_value s.
Proof.
  unfold all_digits, decimal_value.
  assert (H : forall l acc, 0 <= acc ->
      Forall (fun c => is_digit c = true) l ->
      0 <= fold_left (fun a c => 10 * a + digit_val c) l acc).
  { induction l as [|c l IH]; intros acc Hacc Hl; simpl; [done|].
    apply Forall_cons in Hl as [Hc Hl]. apply IH; [|done].
    pose proof (digit_val_range c Hc). lia. }
  apply H. lia.
Qed.

(** X4: a quantity text made of a minus sign and digits gives the negative
    number it writes: nothing keeps a stock at or above 0. *)
Theorem normalize_quantity_negative (d : string) :
  d <> EmptyString -> all_digits d ->
  Z.of_nat (String.length d) <= max_str_digits ->
  normalize_quantity (VStr (String "-" d)) = Ok (- decimal_value d) /\
  - decimal_value d <= 0.
Proof.
  intros Hne Hd Hlen. split.
  - unfold normalize_quantity. simpl py_str.
    change (String.eqb (String "-" d) ">10") with false.
    change (String.eqb (String "-" d) "1") with false. cbv iota.
    simpl py_int. rewrite py_int_str_ascii by (by apply (all_digits_ascii d)).
    unfold long_from_string. simpl lstrip.
    change (is_space "-") with false. cbv iota.
    change (Ascii.eqb "-" "+") with false. change (Ascii.eqb "-" "-") with true.
    cbv iota.
    destruct d as [|c t]; [done|].
    pose proof Hd as Hd'. unfold all_digits in Hd'. simpl in Hd'.
    apply Forall_cons in Hd' as [Hc Ht].
    unfold numeral. rewrite Hc, (digits_all_digits t _ _ Ht).
    change (lstrip EmptyString) with EmptyString. cbv iota.
    rewrite (proj2 (Z.ltb_ge _ _)) by (simpl String.length in Hlen; lia).
    unfold decimal_value. simpl fold_left.
    replace (10 * 0 + digit_val c) with (digit_val c) by lia.
    f_equal; lia.
  - pose proof (decimal_value_nonneg d Hd). lia.
Qed.

Lemma normalize_quantity_negative_witness :
  normalize_quantity (VStr "-3") = Ok (-3).
Proof.
  destruct (normalize_quantity_negative "3") as [H _].
  - discriminate.
  - repeat constructor.
  - by vm_compute.
  - exact H.
Defined.

(** ** What the two [create_prices] return, and when *)

Lemma py_int_str_all_digits c t :
  all_digits (String c t) ->
  py_int_str (String c t) =
  if max_str_digits <? Z.of_nat (String.length (String c t))
  then Raise ValueError else Ok (decimal_value (String c t)).
Proof.
  intros H. pose proof H as H'. unfold all_digits in H'. simpl in H'.
  apply Forall_cons in H' as [Hc Ht].
  rewrite py_int_str_ascii by by apply all_digits_ascii.
  unfold long_from_string. simpl lstrip. rewrite (digit_not_space c Hc).
  rewrite !(digit_not_char c) by done.
  unfold numeral. rewrite Hc, (digits_all_digits t _ _ Ht).
  change (lstrip EmptyString) with EmptyString. cbv iota.
  replace (Z.of_nat (String.length (String c t)))
    with (1 + Z.of_nat (String.length t)) by (simpl String.length; lia).
  destruct (max_str_digits <? 1 + Z.of_nat (String.length t)); [done|].
  unfold decimal_value. simpl fold_left.
  replace (10 * 0 + digit_val c) with (digit_val c) by lia.
  f_equal; lia.
Qed.

Lemma prices_loop_exact {P : Type} (mk : dict -> result P) watch :
  forall acc ids prices,
  fst (for_each (prices_body mk) watch acc ids) = Ok prices ->
  exists new,
    prices = acc ++ new /\
    Forall2 (fun w p => mk w = Ok p) (filter (fun w => code_of w ∈ ids) watch) new.
Proof.
  induction watch as [|w ws IH]; intros acc ids prices.
  { intros [= <-]. exists []. by rewrite app_nil_r. }
  rewrite for_each_cons, prices_body_run. case_bool_decide as Hin.
  - destruct (mk w) as [p0|e] eqn:Hmk; [|done]. intros Hrun.
    destruct (IH _ _ _ Hrun) as (new & -> & Hall).
    exists (p0 :: new). split; [by rewrite <- app_assoc|].
    rewrite filter_cons_True by done. by constructor.
  - intros Hrun. destruct (IH _ _ _ Hrun) as (new & -> & Hall).
    exists new. split; [done|]. by rewrite filter_cons_False.
Qed.

Lemma seller_price_ok w p :
  seller_price w = Ok p <->
  exists s, get w "Цена" = VStr s /\
    p = {| Seller.auto_action_enabled := "UNKNOWN";
           Seller.currency_code := "RUB";
           Seller.price_offer_id := code_of w;
           Seller.old_price := "0";
           Seller.price := keep_digits (integer_part s) |}.
Proof.
  unfold seller_price. destruct (get w "Цена") as [s| |] eqn:Hg.
  - rewrite price_conversion_text. split.
    + intros [= <-]. by exists s.
    + intros (s' & [= <-] & ->). done.
  - split; [done|]. by intros (s' & ? & _).
  - split; [done|]. by intros (s' & ? & _).
Qed.

Lemma seller_price_raise w e :
  seller_price w = Raise e ->
  e = AttributeError /\ forall s, get w "Цена" <> VStr s.
Proof.
  unfold seller_price. destruct (get w "Цена") as [s| |] eqn:Hg.
  - by rewrite price_conversion_text.
  - by intros [= <-].
  - by intros [= <-].
Qed.

(** X5: [seller.create_prices] returns exactly when the price cell of
    every record whose code is in the list is text, and otherwise raises
    [AttributeError]; what it returns has, in feed order, one price for
    each record whose code is in the list, repeated codes included, with
    the digits before the first ["."] of the record's price. *)
Theorem seller_create_prices_exact (watch : list dict) (ids : list string) :
  ((exists prices, fst (Seller.create_prices watch ids) = Ok prices) <->
   (forall w, w ∈ watch -> code_of w ∈ ids -> exists s, get w "Цена" = VStr s)) /\
  (forall e, fst (Seller.create_prices watch ids) = Raise e -> e = AttributeError) /\
  (forall prices, fst (Seller.create_prices watch ids) = Ok prices ->
     Forall2
       (fun w p => exists s, get w "Цена" = VStr s /\
          p = {| Seller.auto_action_enabled := "UNKNOWN";
                 Seller.currency_code := "RUB";
                 Seller.price_offer_id := code_of w;
                 Seller.old_price := "0";
                 Seller.price := keep_digits (integer_part s) |})
       (filter (fun w => code_of w ∈ ids) watch) prices).
Proof.
  rewrite seller_create_prices_with. split_and!.
  - split.
    + intros [prices Hrun] w Hw Hin.
      destruct (prices_loop_ok seller_price _ _ _ _ Hrun) as (Hall & _).
      destruct (Hall w Hw Hin) as (p & Hp & _).
      apply seller_price_ok in Hp as (s & ? & _). by exists s.
    + intros Htext. apply prices_loop_total. intros w Hw Hin.
      destruct (Htext w Hw Hin) as [s Hs]. unfold seller_price.
      by rewrite Hs, price_conversion_text.
  - intros e Hrun.
    destruct (prices_loop_raise seller_price _ _ _ _ Hrun) as (w & _ & _ & Hmk).
    by apply seller_price_raise in Hmk as [-> _].
  - intros prices Hrun.
    destruct (prices_loop_exact seller_price _ _ _ _ Hrun) as (new & -> & Hall).
    simpl. eapply Forall2_impl; [exact Hall|].
    intros w p Hp. by apply seller_price_ok.
Qed.

Lemma seller_create_prices_exact_witness :
  exists prices,
    fst (Seller.create_prices [sample_watch; sample_watch] ["A"]) = Ok prices /\
    length prices = 2%nat.
Proof.
  destruct (seller_create_prices_exact [sample_watch; sample_watch] ["A"])
    as ([_ Hret] & _ & Hex).
  destruct Hret as [prices Hrun].
  { intros w Hw _. apply elem_of_cons in Hw as [->|Hw]; [by eexists|].
    apply list_elem_of_singleton in Hw as ->. by eexists. }
  exists prices. split; [exact Hrun|].
  pose proof (Forall2_length _ _ _ (Hex prices Hrun)) as Hlen.
  rewrite <- Hlen. by vm_compute.
Defined.

Lemma market_price_ok w p :
  market_price w = Ok p <->
  exists s, get w "Цена" = VStr s /\
    keep_digits (integer_part s) <> EmptyString /\
    Z.of_nat (String.length (keep_digits (integer_part s))) <= max_str_digits /\
    p = {| Market.id := code_of w;
           Market.price :=
             {| Market.value := decimal_value (keep_digits (integer_part s));
                Market.currencyId := "RUR" |} |}.
Proof.
  unfold market_price. destruct (get w "Цена") as [s| |] eqn:Hg;
    [|split; [done|by intros (s' & ? & _)]..].
  rewrite price_conversion_text.
  pose proof (keep_digits_only (integer_part s)) as Hd.
  destruct (keep_digits (integer_part s)) as [|c t] eqn:Hk.
  { split; [done|]. by intros (s' & [= <-] & Hne & _); rewrite Hk in Hne. }
  rewrite (py_int_str_all_digits c t Hd).
  destruct (max_str_digits <? _) eqn:Hlt.
  - apply Z.ltb_lt in Hlt. split; [done|].
    intros (s' & [= <-] & _ & Hle & _). rewrite Hk in Hle. lia.
  - apply Z.ltb_ge in Hlt. split.
    + intros [= <-]. exists s. by rewrite Hk.
    + intros (s' & [= <-] & _ & _ & ->). by rewrite Hk.
Qed.

Lemma market_price_raise w e :
  market_price w = Raise e -> e = AttributeError \/ e = ValueError.
Proof.
  unfold market_price. destruct (get w "Цена") as [s| |];
    [|intros [= <-]; by left..].
  rewrite price_conversion_text.
  destruct (py_int_str _) eqn:Hi; [done|]. intros [= <-]. right.
  by eapply py_int_str_raises.
Qed.

(** X6: [market.create_prices] returns exactly when the price cell of
    every record whose code is in the list is text with at least one digit
    before its first ["."] (and no more digits than [int] converts), and
    otherwise raises [AttributeError] or [ValueError]; what it returns
    has, in feed order, one price for each record whose code is in the
    list, repeated codes included, whose value is the number those digits
    write, never negative, in ["RUR"]. *)
Theorem market_create_prices_exact (watch : list dict) (ids : list string) :
  ((exists prices, fst (Market.create_prices watch ids) = Ok prices) <->
   (forall w, w ∈ watch -> code_of w ∈ ids ->
      exists s, get w "Цена" = VStr s /\
        keep_digits (integer_part s) <> EmptyString /\
        Z.of_nat (String.length (keep_digits (integer_part s))) <= max_str_digits)) /\
  (forall e, fst (Market.create_prices watch ids) = Raise e ->
     e = AttributeError \/ e = ValueError) /\
  (forall prices, fst (Market.create_prices watch ids) = Ok prices ->
     Forall2
       (fun w p => exists s, get w "Цена" = VStr s /\
          p = {| Market.id := code_of w;
                 Market.price :=
                   {| Market.value := decimal_value (keep_digits (integer_part s));
                      Market.currencyId := "RUR" |} |} /\
          0 <= Market.value (Market.price p))
       (filter (fun w => code_of w ∈ ids) watch) prices).
Proof.
  rewrite market_create_prices_with. split_and!.
  - split.
    + intros [prices Hrun] w Hw Hin.
      destruct (prices_loop_ok market_price _ _ _ _ Hrun) as (Hall & _).
      destruct (Hall w Hw Hin) as (p & Hp & _).
      apply market_price_ok in Hp as (s & ? & ? & ? & _). by exists s.
    + intros Htext. apply prices_loop_total. intros w Hw Hin.
      destruct (Htext w Hw Hin) as (s & Hs & Hne & Hle).
      assert (Hok : exists p, market_price w = Ok p)
        by (eexists; apply market_price_ok; by exists s).
      destruct Hok as [p ->]. done.
  - intros e Hrun.
    destruct (prices_loop_raise market_price _ _ _ _ Hrun) as (w & _ & _ & Hmk).
    by eapply market_price_raise.
  - intros prices Hrun.
    destruct (prices_loop_exact market_price _ _ _ _ Hrun) as (new & -> & Hall).
    simpl. eapply Forall2_impl; [exact Hall|].
    intros w p Hp. apply market_price_ok in Hp as (s & Hs & _ & _ & ->).
    exists s. split_and!; [done..|]. simpl.
    apply decimal_value_nonneg, keep_digits_only.
Qed.

Lemma market_create_prices_exact_witness :
  exists prices,
    fst (Market.create_prices [sample_watch; sample_watch] ["A"]) = Ok prices /\
    length prices = 2%nat.
Proof.
  destruct (market_create_prices_exact [sample_watch; sample_watch] ["A"])
    as ([_ Hret] & _ & Hex).
  destruct Hret as [prices Hrun].
  { intros w Hw _. exists "1'000.00 р.".
    assert (w = sample_watch) as ->.
    { apply elem_of_cons in Hw as [->|Hw]; [done|].
      by apply list_elem_of_singleton in Hw. }
    split_and!; [reflexivity|discriminate|by vm_compute]. }
  exists prices. split; [exact Hrun|].
  pose proof (Forall2_length _ _ _ (Hex prices Hrun)) as Hlen.
  rewrite <- Hlen. by vm_compute.
Defined.

(** ** [create_stocks]: whose quantity an entry carries, and failures *)

Section ReconcileValues.
Context {R : Type}.
Variable entry : string -> Z -> R.

Lemma stocks_loop_first watch : forall acc ids stocks ids',
  for_each (stocks_body entry) watch acc ids = (Ok stocks, ids') ->
  (forall s, s ∈ acc -> s ∈ stocks) /\
  forall i w, watch !! i = Some w -> code_of w ∈ ids ->
    (forall j w', (j < i)%nat -> watch !! j = Some w' -> code_of w' <> code_of w) ->
    exists z, normalize_quantity (get w "Количество") = Ok z /\
              entry (code_of w) z ∈ stocks.
Proof.
  induction watch as [|w ws IH]; intros acc ids stocks ids' Hrun.
  { injection Hrun as <- <-. split; [done|]. intros i w Hi. by rewrite lookup_nil in Hi. }
  apply stocks_loop_cons in Hrun
    as [[Hn Hrun]|[(Hin0 & _ & e & _ & ?)|(Hin0 & z & l1 & l2 & Hq & -> & Hrun)]];
    [|done|].
  - destruct (IH _ _ _ _ Hrun) as [Hacc Hfirst]. split; [done|].
    intros i w' Hi Hin Hf. destruct i as [|i]; [by injection Hi as <-|].
    apply (Hfirst i w' Hi Hin). intros j w'' Hj Hw''.
    apply (Hf (S j)); [lia|done].
  - destruct (IH _ _ _ _ Hrun) as [Hacc Hfirst]. split.
    { intros s Hs. apply Hacc, elem_of_app. by left. }
    intros i w' Hi Hin Hf. destruct i as [|i].
    + injection Hi as <-. exists z. split; [done|].
      apply Hacc, elem_of_app. right. by left.
    + apply (Hfirst i w' Hi).
      * assert (Hne : code_of w <> code_of w') by (apply (Hf 0%nat); [lia|done]).
        rewrite elem_of_app, elem_of_cons in Hin. rewrite elem_of_app.
        destruct Hin as [?|[?|?]]; [by left|congruence|by right].
      * intros j w'' Hj Hw''. apply (Hf (S j)); [lia|done].
Qed.

End ReconcileValues.

Lemma filter_single {A : Type} (P : A -> Prop) `{!forall x, Decision (P x)} l x y :
  length (filter P l) = 1%nat -> x ∈ l -> y ∈ l -> P x -> P y -> x = y.
Proof.
  intros Hlen Hx Hy Px Py.
  destruct (filter P l) as [|a [|b r]] eqn:Hf; try discriminate Hlen.
  assert (Hxa : x ∈ filter P l) by by apply list_elem_of_filter.
  assert (Hya : y ∈ filter P l) by by apply list_elem_of_filter.
  rewrite Hf in Hxa, Hya.
  apply list_elem_of_singleton in Hxa, Hya. congruence.
Qed.

(** X7: with a duplicate-free list, the entry [create_stocks] returns for
    an identifier that is a code of the feed carries the normalised
    quantity of the first record with that code, in both marketplaces;
    later records with the code change nothing. *)
Theorem create_stocks_first_record_wins
    (watch : list dict) (ids : list string) (date warehouse_id : string)
    (i : nat) (w : dict) :
  NoDup ids -> watch !! i = Some w -> code_of w ∈ ids ->
  (forall j w', (j < i)%nat -> watch !! j = Some w' -> code_of w' <> code_of w) ->
  (forall stocks rest, Seller.create_stocks watch ids = (Ok stocks, rest) ->
     exists z, normalize_quantity (get w "Количество") = Ok z /\
       seller_stock (code_of w) z ∈ stocks /\
       forall s, s ∈ stocks -> Seller.offer_id s = code_of w ->
         s = seller_stock (code_of w) z) /\
  (forall stocks rest,
     Market.create_stocks date watch warehouse_id ids = (Ok stocks, rest) ->
     exists z, normalize_quantity (get w "Количество") = Ok z /\
       market_stock warehouse_id date (code_of w) z ∈ stocks /\
       forall s, s ∈ stocks -> Market.sku s = code_of w ->
         s = market_stock warehouse_id date (code_of w) z).
Proof.
  intros Hnd Hi Hin Hf.
  assert (Hgen : forall (R : Type) (entry : string -> Z -> R) (key : R -> string),
    (forall id z, key (entry id z) = id) ->
    forall stocks rest, create_stocks_with entry watch ids = (Ok stocks, rest) ->
    exists z, normalize_quantity (get w "Количество") = Ok z /\
      entry (code_of w) z ∈ stocks /\
      forall s, s ∈ stocks -> key s = code_of w -> s = entry (code_of w) z).
  { intros R entry key Hkey stocks rest Hrun.
    pose proof (create_stocks_with_keys entry key Hkey _ _ _ _ Hrun) as Hk.
    rewrite create_stocks_with_run in Hrun.
    destruct (for_each _ _ _ _) as [[stocks0|e] ids'] eqn:Hloop; [|done].
    injection Hrun as <- <-.
    destruct (stocks_loop_first entry _ _ _ _ _ Hloop) as [_ Hfirst].
    destruct (Hfirst i w Hi Hin Hf) as (z & Hz & Hmem).
    exists z. split; [done|].
    assert (Hmem' : entry (code_of w) z ∈ stocks0 ++ ((fun id => entry id 0) <$> ids'))
      by (apply elem_of_app; by left).
    split; [done|]. intros s Hs Hks. symmetry.
    apply (filter_single (fun s => key s = code_of w) _ _ _
             (keyed_once key _ (code_of w) ltac:(by rewrite Hk) ltac:(by rewrite Hk)));
      [done..|by rewrite Hkey|done]. }
  split; intros stocks rest Hrun.
  - exact (Hgen _ seller_stock Seller.offer_id (fun _ _ => eq_refl) stocks rest Hrun).
  - exact (Hgen _ (market_stock warehouse_id date) Market.sku (fun _ _ => eq_refl)
             stocks rest Hrun).
Qed.

Lemma create_stocks_first_record_wins_witness :
  exists stocks rest,
    Seller.create_stocks [sample_watch; unparsable_watch] ["A"; "B"] = (Ok stocks, rest) /\
    forall s, s ∈ stocks -> Seller.offer_id s = "A" -> s = seller_stock "A" 100.
Proof.
  eexists _, _. split; [by vm_compute|].
  destruct (create_stocks_first_record_wins
              [sample_watch; unparsable_watch] ["A"; "B"] "" "" 0 sample_watch)
    as [Hs _].
  - compute_done.
  - reflexivity.
  - compute_done.
  - intros j w' Hj. lia.
  - destruct (Hs _ _ ltac:(by vm_compute)) as (z & Hz & _ & Hall).
    assert (z = 100) as -> by (vm_compute in Hz; by injection Hz).
    exact Hall.
Defined.

(** X8: with a duplicate-free list, when the first record of the feed
    whose quantity does not normalise (among the records that are the
    first with their code and have it in the list) fails with [e], both
    [create_stocks] raise [e] and the caller's list has already lost the
    identifiers matched by the records before it, and only those. *)
Theorem create_stocks_failure
    (watch : list dict) (ids : list string) (date warehouse_id : string)
    (i : nat) (w : dict) (e : exn) :
  NoDup ids -> watch !! i = Some w -> code_of w ∈ ids ->
  (forall j w', (j < i)%nat -> watch !! j = Some w' -> code_of w' <> code_of w) ->
  normalize_quantity (get w "Количество") = Raise e ->
  first_matches_normalise (take i watch) ids ->
  Seller.create_stocks watch ids = (Raise e, unmatched (take i watch) ids) /\
  Market.create_stocks date watch warehouse_id ids
    = (Raise e, unmatched (take i watch) ids).
Proof.
  intros Hnd Hi Hin Hf Hq Hpre. split.
  - rewrite seller_create_stocks_with, create_stocks_with_run.
    by rewrite (stocks_loop_fails _ watch i w e).
  - rewrite market_create_stocks_with, create_stocks_with_run.
    by rewrite (stocks_loop_fails _ watch i w e).
Qed.

Lemma create_stocks_failure_witness :
  Seller.create_stocks [sample_watch; broken_watch] ["A"; "B"; "C"]
    = (Raise ValueError, ["B"; "C"]).
Proof.
  destruct (create_stocks_failure [sample_watch; broken_watch] ["A"; "B"; "C"] "" ""
              1 broken_watch ValueError) as [Hs _].
  - compute_done.
  - reflexivity.
  - compute_done.
  - intros [|j] w' Hj Hw'; [|lia]. injection Hw' as <-. by vm_compute.
  - by vm_compute.
  - intros [|[|k]] w' Hk Hin Hfirst; simplify_eq/=. by vm_compute.
  - rewrite Hs. by vm_compute.
Defined.

(** ** The outcome of a catalogue loop *)

Section PaginationFacts.
Context {C Resp Item : Type}.
Variable server : nat -> C -> result Resp.
Variable items_of : Resp -> list Item.
Variable cursor_of : Resp -> C.
Variable finished : Resp -> list Item -> bool.
Variable first_cursor : C.

Local Abbreviation loop := (page_loop server items_of cursor_of finished).
Local Abbreviation stream := (page_stream server items_of cursor_of first_cursor).
Local Abbreviation goes := (goes_on server items_of cursor_of finished first_cursor).
Local Abbreviation ends := (ends_with server items_of cursor_of finished first_cursor).

Lemma ends_not_goes n r : ends n r -> ~ goes n.
Proof.
  intros He (acc & resp & Hs & Hf). destruct r as [acc'|e]; simpl in He.
  - destruct He as (resp' & Hs' & Hf'). rewrite Hs in Hs'.
    injection Hs' as <- <-. congruence.
  - congruence.
Qed.

Lemma page_loop_from fuel : forall k acc resp r calls,
  stream k = Ok (acc, resp) ->
  loop fuel (S k) (cursor_of resp) acc = Some (r, calls) <->
  exists n, calls = S n /\ (k < n <= k + fuel)%nat /\
    (forall j, (k < j < n)%nat -> goes j) /\ ends n r.
Proof.
  induction fuel as [|fuel IH]; intros k acc resp r calls Hk.
  { simpl. split; [done|]. intros (n & _ & ? & _). lia. }
  assert (Hone : forall r0,
    ends (S k) r0 ->
    (exists n, calls = S n /\ (k < n <= k + S fuel)%nat /\
       (forall j, (k < j < n)%nat -> goes j) /\ ends n r) <->
    (r = r0 /\ calls = S (S k))).
  { intros r0 He. split.
    - intros (n & -> & Hn & Hgo & Hend).
      destruct (decide (n = S k)) as [->|Hne].
      + split; [|done]. destruct r as [a|e], r0 as [a0|e0]; simpl in *.
        * destruct Hend as (p & Hp & _), He as (p0 & Hp0 & _). congruence.
        * destruct Hend as (p & Hp & _). congruence.
        * destruct He as (p & Hp & _). congruence.
        * congruence.
      + destruct (ends_not_goes _ _ He). apply Hgo. lia.
    - intros [-> ->]. exists (S k). split_and!; [done|lia|lia|intros; lia|done]. }
  simpl loop.
  destruct (server (S k) (cursor_of resp)) as [resp'|e] eqn:Hsrv.
  - assert (Hs : stream (S k) = Ok (acc ++ items_of resp', resp'))
      by (simpl; by rewrite Hk, Hsrv).
    destruct (finished resp' (acc ++ items_of resp')) eqn:Hf.
    + rewrite (Hone (Ok (acc ++ items_of resp'))) by (simpl; eauto).
      split; [by intros [= <- <-]|by intros [-> ->]].
    + rewrite (IH (S k) _ _ r calls Hs). split.
      * intros (n & -> & Hn & Hgo & Hend). exists n.
        split; [done|]. split; [lia|]. split; [|done].
        intros j Hj. destruct (decide (j = S k)) as [->|]; [by eexists _, _|].
        apply Hgo. lia.
      * intros (n & -> & Hn & Hgo & Hend). exists n.
        assert (n <> S k).
        { intros ->. apply (ends_not_goes _ _ Hend). by eexists _, _. }
        split; [done|]. split; [lia|]. split; [|done]. intros j Hj. apply Hgo. lia.
  - assert (Hs : stream (S k) = Raise e) by (simpl; by rewrite Hk, Hsrv).
    rewrite (Hone (Raise e)) by done.
    split; [by intros [= <- <-]|by intros [-> ->]].
Qed.

(** The outcome of the loop, from the outside: it ends at the first
    request that raises or whose answer passes the test. *)
Lemma page_loop_outcome fuel r calls :
  loop fuel 0 first_cursor [] = Some (r, calls) <->
  exists n, calls = S n /\ (n < fuel)%nat /\
    (forall j, (j < n)%nat -> goes j) /\ ends n r.
Proof.
  destruct fuel as [|fuel].
  { simpl. split; [done|]. intros (n & _ & ? & _). lia. }
  assert (Hone : forall r0,
    ends 0 r0 ->
    (exists n, calls = S n /\ (n < S fuel)%nat /\
       (forall j, (j < n)%nat -> goes j) /\ ends n r) <->
    (r = r0 /\ calls = 1%nat)).
  { intros r0 He. split.
    - intros (n & -> & Hn & Hgo & Hend).
      destruct n as [|n].
      + split; [|done]. destruct r as [a|e], r0 as [a0|e0]; simpl in *.
        * destruct Hend as (p & Hp & _), He as (p0 & Hp0 & _). congruence.
        * destruct Hend as (p & Hp & _). congruence.
        * destruct He as (p & Hp & _). congruence.
        * congruence.
      + destruct (ends_not_goes _ _ He). apply Hgo. lia.
    - intros [-> ->]. exists 0%nat. split_and!; [done|lia|intros; lia|done]. }
  simpl loop.
  destruct (server 0%nat first_cursor) as [resp|e] eqn:Hsrv.
  - assert (Hs : stream 0 = Ok (items_of resp, resp)) by (simpl; by rewrite Hsrv).
    destruct (finished resp (items_of resp)) eqn:Hf.
    + rewrite (Hone (Ok (items_of resp))) by (simpl; eauto).
      split; [by intros [= <- <-]|by intros [-> ->]].
    + rewrite (page_loop_from fuel 0 _ _ r calls Hs). split.
      * intros (n & -> & Hn & Hgo & Hend). exists n.
        split; [done|]. split; [lia|]. split; [|done].
        intros j Hj. destruct j as [|j]; [by eexists _, _|]. apply Hgo. lia.
      * intros (n & -> & Hn & Hgo & Hend). exists n.
        assert (n <> 0%nat).
        { intros ->. apply (ends_not_goes _ _ Hend). by eexists _, _. }
        split; [done|]. split; [lia|]. split; [|done]. intros j Hj. apply Hgo. lia.
  - assert (Hs : stream 0 = Raise e) by (simpl; by rewrite Hsrv).
    rewrite (Hone (Raise e)) by done.
    split; [by intros [= <- <-]|by intros [-> ->]].
Qed.
End PaginationFacts.

(** ** The two [get_offer_ids] *)

Lemma seller_fetch_loop_shape server fuel : forall calls cursor acc,
  Seller.fetch_loop server fuel calls cursor acc =
  page_loop server Seller.page_items Seller.last_id
    (fun p acc => Seller.total p =? Z.of_nat (length acc)) fuel calls cursor acc.
Proof.
  induction fuel as [|fuel IH]; intros calls cursor acc; [done|].
  simpl. destruct (server calls cursor) as [p|e]; [|done].
  destruct (Seller.total p =? _); [done|apply IH].
Qed.

Lemma seller_fetched_shape server k :
  Seller.fetched server k =
  page_stream server Seller.page_items Seller.last_id "" k.
Proof.
  induction k as [|k IH]; [done|]. simpl. rewrite IH.
  by destruct (page_stream _ _ _ _ k) as [[items p]|e].
Qed.

Lemma market_fetch_loop_shape server fuel : forall calls cursor acc,
  Market.fetch_loop server fuel calls cursor acc =
  page_loop server Market.offerMappingEntries Market.nextPageToken
    (fun p _ => Market.py_not (Market.nextPageToken p)) fuel calls cursor acc.
Proof.
  induction fuel as [|fuel IH]; intros calls cursor acc; [done|].
  simpl. destruct (server calls cursor) as [p|e]; [|done].
  destruct (Market.py_not _); [done|apply IH].
Qed.

Lemma market_fetched_shape server k :
  Market.fetched server k =
  page_stream server Market.offerMappingEntries Market.nextPageToken
    (Some EmptyString) k.
Proof.
  induction k as [|k IH]; [done|]. simpl. rewrite IH.
  by destruct (page_stream _ _ _ _ k) as [[items p]|e].
Qed.

(** With fuel for it, each loop ends at the first request that raises or
    whose answer passes its test. *)
Lemma seller_get_offer_ids_ends server fuel n :
  (n < fuel)%nat ->
  (forall j, (j < n)%nat -> Seller.running server j) ->
  (forall e, Seller.fetched server n = Raise e ->
     Seller.get_offer_ids server fuel = Some (Raise e, S n)) /\
  (forall items p, Seller.fetched server n = Ok (items, p) ->
     Seller.total p = Z.of_nat (length items) ->
     Seller.get_offer_ids server fuel
       = Some (Ok (Seller.product_offer_id <$> items), S n)).
Proof.
  intros Hn Hrun.
  set (fin := fun (p : Seller.page) (acc : list Seller.product) =>
                Seller.total p =? Z.of_nat (length acc)).
  assert (Hloop : forall r,
    ends_with server Seller.page_items Seller.last_id fin "" n r ->
    page_loop server Seller.page_items Seller.last_id fin fuel 0 "" [] = Some (r, S n)).
  { intros r Hend. apply page_loop_outcome. exists n. split_and!; [done..| |done].
    intros j Hj. destruct (Hrun j Hj) as (items & p & Hf & Hc).
    rewrite seller_fetched_shape in Hf. exists items, p. split; [done|].
    unfold fin. by apply Z.eqb_neq. }
  unfold Seller.get_offer_ids. rewrite seller_fetch_loop_shape. fold fin. split.
  - intros e He. rewrite seller_fetched_shape in He. by rewrite (Hloop (Raise e)).
  - intros items p Hf Ht. rewrite seller_fetched_shape in Hf.
    rewrite (Hloop (Ok items)), foldl_snoc; [done|].
    exists p. split; [done|]. unfold fin. by apply Z.eqb_eq.
Qed.

Lemma market_get_offer_ids_ends server fuel n :
  (n < fuel)%nat ->
  (forall j, (j < n)%nat -> Market.has_next server j) ->
  (forall e, Market.fetched server n = Raise e ->
     Market.get_offer_ids server fuel = Some (Raise e, S n)) /\
  (forall items p, Market.fetched server n = Ok (items, p) ->
     Market.py_not (Market.nextPageToken p) = true ->
     Market.get_offer_ids server fuel = Some (Ok (Market.shopSku <$> items), S n)).
Proof.
  intros Hn Hrun.
  set (fin := fun (p : Market.offers_page) (_ : list Market.mapping) =>
                Market.py_not (Market.nextPageToken p)).
  assert (Hloop : forall r,
    ends_with server Market.offerMappingEntries Market.nextPageToken fin
      (Some EmptyString) n r ->
    page_loop server Market.offerMappingEntries Market.nextPageToken fin fuel 0
      (Some EmptyString) [] = Some (r, S n)).
  { intros r Hend. apply page_loop_outcome. exists n. split_and!; [done..| |done].
    intros j Hj. destruct (Hrun j Hj) as (items & p & Hf & Hc).
    rewrite market_fetched_shape in Hf. by exists items, p. }
  unfold Market.get_offer_ids. rewrite market_fetch_loop_shape. fold fin. split.
  - intros e He. rewrite market_fetched_shape in He. by rewrite (Hloop (Raise e)).
  - intros items p Hf Ht. rewrite market_fetched_shape in Hf.
    rewrite (Hloop (Ok items)), foldl_snoc; [done|].
    exists p. split; done.
Qed.

(** X9: [seller.get_offer_ids] ends after request [n] (from 0) exactly
    when [n] is the first request that raises or after which the number of
    items fetched equals the reported total; every request before it left
    the two different.  It then raises what the request raised, without
    another request, or returns the identifiers of all items fetched, in
    order, of which there are as many as the total last reported. *)
Theorem seller_get_offer_ids_outcome
    (get_product_list : nat -> string -> result Seller.page)
    (fuel : nat) (r : result (list string)) (calls : nat) :
  Seller.get_offer_ids get_product_list fuel = Some (r, calls) <->
  exists n, calls = S n /\ (n < fuel)%nat /\
    (forall j, (j < n)%nat -> Seller.running get_product_list j) /\
    ((exists e, Seller.fetched get_product_list n = Raise e /\ r = Raise e) \/
     (exists items p,
        Seller.fetched get_product_list n = Ok (items, p) /\
        Seller.total p = Z.of_nat (length items) /\
        r = Ok (Seller.product_offer_id <$> items) /\
        Z.of_nat (length (Seller.product_offer_id <$> items)) = Seller.total p)).
Proof.
  set (fin := fun (p : Seller.page) (acc : list Seller.product) =>
                Seller.total p =? Z.of_nat (length acc)).
  assert (Hgo : forall j, Seller.running get_product_list j <->
            goes_on get_product_list Seller.page_items Seller.last_id fin "" j).
  { intros j. unfold Seller.running, goes_on. rewrite seller_fetched_shape.
    split; intros (items & p & H & Hc); exists items, p; (split; [done|]);
      unfold fin in *; by apply Z.eqb_neq. }
  unfold Seller.get_offer_ids. rewrite seller_fetch_loop_shape. fold fin.
  destruct (page_loop _ _ _ fin fuel 0 "" []) as [[r0 calls0]|] eqn:Hloop.
  - apply page_loop_outcome in Hloop as (n & -> & Hn & Hgoes & Hend).
    assert (Hrun : forall j, (j < n)%nat -> Seller.running get_product_list j)
      by (intros j Hj; by apply Hgo, Hgoes).
    split.
    + intros Hr. exists n. destruct r0 as [items|e]; injection Hr as <- <-.
      * destruct Hend as (p & Hp & Hf). apply Z.eqb_eq in Hf.
        split_and!; [done..|]. right. exists items, p.
        rewrite seller_fetched_shape, foldl_snoc, length_fmap. done.
      * split_and!; [done..|]. left. exists e.
        by rewrite seller_fetched_shape.
    + intros (n' & -> & Hn' & Hrun' & Hcase).
      assert (n' = n) as ->.
      { destruct (Nat.lt_trichotomy n' n) as [Hlt|[->|Hgt]]; [|done|].
        - destruct (proj1 (Hgo n') (Hrun n' Hlt)) as (a & q & Ha & Hq).
          rewrite seller_fetched_shape in Hcase.
          destruct Hcase as [(e & He & _)|(items & p & Hp & Ht & _)]; [congruence|].
          rewrite Ha in Hp. injection Hp as <- <-.
          unfold fin in Hq. apply Z.eqb_neq in Hq. lia.
        - destruct (ends_not_goes _ _ _ _ _ _ _ Hend). by apply Hgo, Hrun'. }
      rewrite seller_fetched_shape in Hcase.
      destruct Hcase as [(e & He & ->)|(items & p & Hp & _ & -> & _)];
        destruct r0 as [items0|e0]; simpl in Hend.
      * destruct Hend as (p & Hp & _). congruence.
      * congruence.
      * destruct Hend as (p0 & Hp0 & _). rewrite Hp in Hp0.
        injection Hp0 as <- <-. by rewrite foldl_snoc.
      * congruence.
  - split; [done|]. intros (n & -> & Hn & Hrun & Hcase).
    assert (Hsome : page_loop get_product_list Seller.page_items Seller.last_id fin
                      fuel 0 "" [] =
                    Some (match Seller.fetched get_product_list n with
                          | Ok (items, _) => Ok items
                          | Raise e => Raise e
                          end, S n)); [|congruence].
    apply page_loop_outcome. exists n. split_and!; [done..| |].
    + intros j Hj. by apply Hgo, Hrun.
    + rewrite seller_fetched_shape in *.
      destruct Hcase as [(e & He & _)|(items & p & Hp & Ht & _)].
      { rewrite He. exact He. }
      rewrite Hp. exists p. split; [done|]. unfold fin. by apply Z.eqb_eq.
Qed.

Lemma seller_get_offer_ids_outcome_witness :
  Seller.get_offer_ids sample_server 3 = Some (Ok ["a"; "b"; "c"], 2%nat).
Proof.
  apply (seller_get_offer_ids_outcome sample_server 3).
  exists 1%nat. split_and!; [done|lia| |].
  - intros j Hj. replace j with 0%nat by lia. eexists _, _. split; [reflexivity|done].
  - right. eexists _, _. split_and!; [reflexivity|done..].
Defined.

(** X10: [market.get_offer_ids] ends after request [n] (from 0) exactly
    when [n] is the first request that raises or whose answer has an empty
    or no next-page token; every request before it gave a token, which the
    next request sent.  It then raises what the request raised, without
    another request, or returns the [shopSku] of all entries fetched, in
    order. *)
Theorem market_get_offer_ids_outcome
    (get_product_list : nat -> option string -> result Market.offers_page)
    (fuel : nat) (r : result (list string)) (calls : nat) :
  Market.get_offer_ids get_product_list fuel = Some (r, calls) <->
  exists n, calls = S n /\ (n < fuel)%nat /\
    (forall j, (j < n)%nat -> Market.has_next get_product_list j) /\
    ((exists e, Market.fetched get_product_list n = Raise e /\ r = Raise e) \/
     (exists items p,
        Market.fetched get_product_list n = Ok (items, p) /\
        (Market.nextPageToken p = None \/ Market.nextPageToken p = Some EmptyString) /\
        r = Ok (Market.shopSku <$> items))).
Proof.
  set (fin := fun (p : Market.offers_page) (_ : list Market.mapping) =>
                Market.py_not (Market.nextPageToken p)).
  assert (Hnot : forall o, Market.py_not o = true <-> o = None \/ o = Some EmptyString).
  { intros [[|c t]|]; simpl; split; try done; try tauto; intros [?|?]; done. }
  assert (Hgo : forall j, Market.has_next get_product_list j <->
            goes_on get_product_list Market.offerMappingEntries Market.nextPageToken
              fin (Some EmptyString) j).
  { intros j. unfold Market.has_next, goes_on. by rewrite market_fetched_shape. }
  unfold Market.get_offer_ids. rewrite market_fetch_loop_shape. fold fin.
  destruct (page_loop _ _ _ fin fuel 0 (Some EmptyString) []) as [[r0 calls0]|] eqn:Hloop.
  - apply page_loop_outcome in Hloop as (n & -> & Hn & Hgoes & Hend).
    assert (Hrun : forall j, (j < n)%nat -> Market.has_next get_product_list j)
      by (intros j Hj; by apply Hgo, Hgoes).
    split.
    + intros Hr. exists n. destruct r0 as [items|e]; injection Hr as <- <-.
      * destruct Hend as (p & Hp & Hf). apply Hnot in Hf.
        split_and!; [done..|]. right. exists items, p.
        rewrite market_fetched_shape, foldl_snoc. done.
      * split_and!; [done..|]. left. exists e.
        by rewrite market_fetched_shape.
    + intros (n' & -> & Hn' & Hrun' & Hcase).
      assert (n' = n) as ->.
      { destruct (Nat.lt_trichotomy n' n) as [Hlt|[->|Hgt]]; [|done|].
        - destruct (proj1 (Hgo n') (Hrun n' Hlt)) as (a & q & Ha & Hq).
          rewrite market_fetched_shape in Hcase.
          destruct Hcase as [(e & He & _)|(items & p & Hp & Ht & _)]; [congruence|].
          rewrite Ha in Hp. injection Hp as <- <-.
          apply Hnot in Ht. unfold fin in Hq. congruence.
        - destruct (ends_not_goes _ _ _ _ _ _ _ Hend). by apply Hgo, Hrun'. }
      rewrite market_fetched_shape in Hcase.
      destruct Hcase as [(e & He & ->)|(items & p & Hp & _ & ->)];
        destruct r0 as [items0|e0]; simpl in Hend.
      * destruct Hend as (p & Hp & _). congruence.
      * congruence.
      * destruct Hend as (p0 & Hp0 & _). rewrite Hp in Hp0.
        injection Hp0 as <- <-. by rewrite foldl_snoc.
      * congruence.
  - split; [done|]. intros (n & -> & Hn & Hrun & Hcase).
    assert (Hsome : page_loop get_product_list Market.offerMappingEntries
                      Market.nextPageToken fin fuel 0 (Some EmptyString) [] =
                    Some (match Market.fetched get_product_list n with
                          | Ok (items, _) => Ok items
                          | Raise e => Raise e
                          end, S n)); [|congruence].
    apply page_loop_outcome. exists n. split_and!; [done..| |].
    + intros j Hj. by apply Hgo, Hrun.
    + rewrite market_fetched_shape in *.
      destruct Hcase as [(e & He & _)|(items & p & Hp & Ht & _)].
      { rewrite He. exact He. }
      rewrite Hp. exists p. split; [done|]. unfold fin. by apply Hnot.
Qed.

Lemma market_get_offer_ids_outcome_witness :
  Market.get_offer_ids sample_market_server 3 = Some (Ok ["a"; "b"; "c"], 2%nat).
Proof.
  apply (market_get_offer_ids_outcome sample_market_server 3).
  exists 1%nat. split_and!; [done|lia| |].
  - intros j Hj. replace j with 0%nat by lia. eexists _, _. split; reflexivity.
  - right. eexists _, _. split_and!; [reflexivity|by left|done].
Defined.

(** ** Sending the chunks *)

Lemma send_all_log {Q A : Type} (call : list Q -> list A -> result unit)
    (mk : list A -> Q) chunks : forall log r log',
  send_all call mk chunks log = (r, log') ->
  exists sent,
    log' = log ++ (mk <$> sent) /\
    sent `prefix_of` chunks /\
    (is_ok r -> sent = chunks) /\
    (forall e, r = Raise e ->
       exists before c, sent = before ++ [c] /\
         call (log ++ (mk <$> before)) c = Raise e).
Proof.
  induction chunks as [|c cs IH]; intros log r log'; simpl.
  { intros [= <- <-]. exists []. by rewrite app_nil_r. }
  destruct (call log c) as [u|e] eqn:Hc.
  - intros Hrun. destruct (IH _ _ _ Hrun) as (sent & -> & Hp & Hok & Herr).
    exists (c :: sent). split_and!.
    + by rewrite fmap_cons, <- app_assoc.
    + by apply prefix_cons.
    + intros Hr. by rewrite Hok.
    + intros e He. destruct (Herr e He) as (before & c' & -> & Hcall).
      exists (c :: before), c'. split; [done|].
      by rewrite fmap_cons, cons_middle, app_assoc.
  - intros [= <- <-]. exists [c]. split_and!; [done| |done|].
    + by apply prefix_cons, prefix_nil.
    + intros e' [= <-]. exists [], c. by rewrite app_nil_r.
Qed.

Lemma concat_prefix {A : Type} (l k : list (list A)) :
  l `prefix_of` k -> concat l `prefix_of` concat k.
Proof. intros [t ->]. rewrite concat_app. by eexists. Qed.

Lemma Forall_prefix {A : Type} (P : A -> Prop) (l k : list A) :
  l `prefix_of` k -> Forall P k -> Forall P l.
Proof. intros [t ->] H. by apply Forall_app in H as [? _]. Qed.

(** What is sent when a list is divided into chunks of [n] and the chunks
    are sent in turn: chunks of 1 to [n] elements that together are a
    beginning of the list, and all of it when no call fails. *)
Lemma send_divided {Q A : Type} (call : list Q -> list A -> result unit)
    (mk : list A -> Q) (l : list A) n chunks log0 r log :
  0 < n -> divide l n = Ok chunks ->
  send_all call mk chunks log0 = (r, log) ->
  exists sent,
    log = log0 ++ (mk <$> sent) /\
    Forall (fun c => (1 <= length c)%nat /\ Z.of_nat (length c) <= n) sent /\
    concat sent `prefix_of` l /\
    (is_ok r -> concat sent = l) /\
    (l = [] -> sent = []).
Proof.
  intros Hn Hd Hrun.
  destruct (divide_chunks_facts _ _ _ Hn Hd) as (Hshape & Hcat & Hsz).
  destruct (send_all_log _ _ _ _ _ _ Hrun) as (sent & -> & Hp & Hok & _).
  exists sent. split_and!; [done| | | |].
  - by eapply Forall_prefix.
  - rewrite <- Hcat. by apply concat_prefix.
  - intros Hr. by rewrite (Hok Hr).
  - intros ->. rewrite Hshape in Hp. simpl in Hp. by apply prefix_nil_inv in Hp.
Qed.

Lemma py_filter_total {A : Type} (p : A -> result bool) (P : A -> Prop)
    `{!forall x, Decision (P x)} (l : list A) :
  Forall (fun x => p x = Ok (bool_decide (P x))) l ->
  py_filter p l = Ok (filter P l).
Proof.
  induction 1 as [|x l Hx _ IH]; [done|]. simpl. rewrite Hx, IH.
  case_bool_decide; [by rewrite filter_cons_True|by rewrite filter_cons_False].
Qed.

Lemma send_all_succeeds {Q A : Type} (call : list Q -> list A -> result unit)
    (mk : list A -> Q) chunks : forall log,
  (forall log c, is_ok (call log c)) ->
  is_ok (fst (send_all call mk chunks log)).
Proof.
  induction chunks as [|c cs IH]; intros log Hall; simpl; [done|].
  specialize (Hall log c) as Hc. destruct (call log c); [by apply IH|done].
Qed.

Lemma divide_returns {A : Type} (l : list A) n :
  0 < n -> exists chunks, divide l n = Ok chunks.
Proof. intros Hn. rewrite divide_positive by done. by eexists. Qed.

(** ** [upload_stocks] and [upload_prices] *)

Lemma seller_stocks_nonzero_matched watch ids stocks rest s :
  Seller.create_stocks watch ids = (Ok stocks, rest) ->
  s ∈ stocks -> Seller.stock s <> 0 -> Seller.offer_id s ∈ code_of <$> watch.
Proof.
  intros Hrun Hs Hnz. rewrite seller_create_stocks_with in Hrun.
  destruct (create_stocks_with_zero_defaults seller_stock Seller.offer_id
              (fun _ _ => eq_refl) _ _ _ _ Hrun) as (_ & _ & _ & _ & _ & _ & Hz).
  destruct (decide (Seller.offer_id s ∈ code_of <$> watch)) as [|Hn]; [done|].
  destruct Hnz. by rewrite (Hz s Hs Hn).
Qed.

Lemma market_stocks_shape date watch warehouse_id ids stocks rest :
  Market.create_stocks date watch warehouse_id ids = (Ok stocks, rest) ->
  Forall (fun s => exists id z, s = market_stock warehouse_id date id z) stocks.
Proof.
  intros Hrun. rewrite market_create_stocks_with in Hrun.
  destruct (create_stocks_with_shape _ _ _ _ _ Hrun) as (matched & -> & _).
  apply Forall_app. split; apply Forall_fmap, Forall_forall; intros x _; simpl;
    by eexists _, _.
Qed.

Lemma market_stocks_nonzero_matched date watch warehouse_id ids stocks rest s :
  Market.create_stocks date watch warehouse_id ids = (Ok stocks, rest) ->
  s ∈ stocks -> Market.count <$> head (Market.items s) <> Some 0 ->
  Market.sku s ∈ code_of <$> watch.
Proof.
  intros Hrun Hs Hnz. rewrite market_create_stocks_with in Hrun.
  destruct (create_stocks_with_zero_defaults (market_stock warehouse_id date) Market.sku
              (fun _ _ => eq_refl) _ _ _ _ Hrun) as (_ & _ & _ & _ & _ & _ & Hz).
  destruct (decide (Market.sku s ∈ code_of <$> watch)) as [|Hn]; [done|].
  destruct Hnz. by rewrite (Hz s Hs Hn).
Qed.

Section UploadStocks.
Variable seller_pages : nat -> string -> result Seller.page.
Variable seller_update : list Seller.request -> list Seller.stock_entry -> result unit.
Variable market_pages : nat -> option string -> result Market.offers_page.
Variable market_update : list Market.request -> list Market.stock_entry -> result unit.
Variables (fuel : nat) (watch : list dict) (date warehouse_id : string).

Lemma seller_upload_stocks_sent r log :
  Seller.upload_stocks seller_pages seller_update fuel watch = Some (r, log) ->
  exists sent,
    log = Seller.UpdateStocks <$> sent /\
    Forall (fun c => (1 <= length c <= 100)%nat) sent /\
    (forall e n, Seller.get_offer_ids seller_pages fuel = Some (Raise e, n) ->
       r = Raise e /\ sent = []) /\
    (forall ids n, Seller.get_offer_ids seller_pages fuel = Some (Ok ids, n) ->
       match Seller.create_stocks watch ids with
       | (Raise e, _) => r = Raise e /\ sent = []
       | (Ok stocks, _) =>
           concat sent `prefix_of` stocks /\
           ((forall log c, is_ok (seller_update log c)) -> is_ok r) /\
           (is_ok r ->
              concat sent = stocks /\
              r = Ok (filter (fun s => Seller.stock s <> 0) stocks, stocks) /\
              forall s, s ∈ stocks -> Seller.stock s <> 0 ->
                Seller.offer_id s ∈ code_of <$> watch)
       end).
Proof.
  unfold Seller.upload_stocks.
  destruct (Seller.get_offer_ids seller_pages fuel) as [[[ids|e] n]|] eqn:Hget;
    [|intros [= <- <-]; exists []; split_and!; [done..| |];
       [by intros e' n' [= <- <-]|by intros ids' n' [=]]|done].
  destruct (Seller.create_stocks watch ids) as [[stocks|e] rest] eqn:Hcs.
  2:{ intros [= <- <-]. exists []. split_and!; [done..| |]; [by intros e' n' [=]|].
      intros ids' n' [= <- <-]. by rewrite Hcs. }
  destruct (divide_returns stocks 100 eq_refl) as [chunks Hd]. rewrite Hd.
  destruct (send_all seller_update Seller.UpdateStocks chunks []) as [r0 log0] eqn:Hsend.
  destruct (send_divided _ _ _ 100 _ _ _ _ eq_refl Hd Hsend)
    as (sent & Hlog & Hsz & Hpre & Hall & _).
  assert (Hok0 : (forall log c, is_ok (seller_update log c)) -> is_ok r0).
  { intros Hup. pose proof (send_all_succeeds seller_update Seller.UpdateStocks
                              chunks [] Hup) as H. by rewrite Hsend in H. }
  intros Hr. exists sent. split_and!.
  - destruct r0; injection Hr as <- <-; done.
  - eapply Forall_impl; [exact Hsz|]. intros c [? ?]. lia.
  - intros e' n' [=].
  - intros ids' n' [= <- <-]. rewrite Hcs. split_and!; [done| |].
    + intros Hup. specialize (Hok0 Hup). destruct r0; [|done]. by injection Hr as <- _.
    + intros Hok. destruct r0 as [u|e0]; [|by injection Hr as <- _].
      injection Hr as <- _. split_and!; [by apply Hall|done|].
      intros s Hs Hnz. by eapply seller_stocks_nonzero_matched.
Qed.

Lemma market_upload_stocks_sent r log :
  Market.upload_stocks market_pages market_update date fuel watch warehouse_id
    = Some (r, log) ->
  exists sent,
    log = Market.UpdateStocks <$> sent /\
    Forall (fun c => (1 <= length c <= 2000)%nat) sent /\
    (forall e n, Market.get_offer_ids market_pages fuel = Some (Raise e, n) ->
       r = Raise e /\ sent = []) /\
    (forall ids n, Market.get_offer_ids market_pages fuel = Some (Ok ids, n) ->
       match Market.create_stocks date watch warehouse_id ids with
       | (Raise e, _) => r = Raise e /\ sent = []
       | (Ok stocks, _) =>
           concat sent `prefix_of` stocks /\
           ((forall log c, is_ok (market_update log c)) -> is_ok r) /\
           (is_ok r ->
              concat sent = stocks /\
              r = Ok (filter (fun s => Market.count <$> head (Market.items s) <> Some 0)
                        stocks, stocks) /\
              forall s, s ∈ stocks ->
                Market.count <$> head (Market.items s) <> Some 0 ->
                Market.sku s ∈ code_of <$> watch)
       end).
Proof.
  unfold Market.upload_stocks.
  destruct (Market.get_offer_ids market_pages fuel) as [[[ids|e] n]|] eqn:Hget;
    [|intros [= <- <-]; exists []; split_and!; [done..| |];
       [by intros e' n' [= <- <-]|by intros ids' n' [=]]|done].
  destruct (Market.create_stocks date watch warehouse_id ids)
    as [[stocks|e] rest] eqn:Hcs.
  2:{ intros [= <- <-]. exists []. split_and!; [done..| |]; [by intros e' n' [=]|].
      intros ids' n' [= <- <-]. by rewrite Hcs. }
  destruct (divide_returns stocks 2000 eq_refl) as [chunks Hd]. rewrite Hd.
  destruct (send_all market_update Market.UpdateStocks chunks []) as [r0 log0] eqn:Hsend.
  destruct (send_divided _ _ _ 2000 _ _ _ _ eq_refl Hd Hsend)
    as (sent & Hlog & Hsz & Hpre & Hall & _).
  assert (Hok0 : (forall log c, is_ok (market_update log c)) -> is_ok r0).
  { intros Hup. pose proof (send_all_succeeds market_update Market.UpdateStocks
                              chunks [] Hup) as H. by rewrite Hsend in H. }
  assert (Hfil : py_filter Market.count_not_zero stocks =
            Ok (filter (fun s => Market.count <$> head (Market.items s) <> Some 0)
                  stocks)).
  { assert (Hb : forall z : Z, negb (z =? 0) = bool_decide (Some z <> Some 0)).
    { intros z. symmetry. destruct (Z.eqb_spec z 0) as [->|Hz]; simpl negb.
      - apply bool_decide_eq_false_2. intros H. by apply H.
      - apply bool_decide_eq_true_2. by intros [= ?]. }
    apply py_filter_total. eapply Forall_impl; [by eapply market_stocks_shape|].
    intros s (id & z & ->). exact (f_equal Ok (Hb z)). }
  rewrite Hfil. intros Hr. exists sent. split_and!.
  - destruct r0; injection Hr as <- <-; done.
  - eapply Forall_impl; [exact Hsz|]. intros c [? ?]. lia.
  - intros e' n' [=].
  - intros ids' n' [= <- <-]. rewrite Hcs. split_and!; [done| |].
    + intros Hup. specialize (Hok0 Hup). destruct r0; [|done]. by injection Hr as <- _.
    + intros Hok. destruct r0 as [u|e0]; [|by injection Hr as <- _].
      injection Hr as <- _. split_and!; [by apply Hall|done|].
      intros s Hs Hnz. by eapply market_stocks_nonzero_matched.
Qed.

(** Once the catalogue loop has ended, so does [upload_stocks]. *)
Lemma seller_upload_stocks_ends g n :
  Seller.get_offer_ids seller_pages fuel = Some (g, n) ->
  exists r log, Seller.upload_stocks seller_pages seller_update fuel watch = Some (r, log).
Proof.
  intros Hget. unfold Seller.upload_stocks. rewrite Hget.
  destruct g as [ids|e]; [|by eexists _, _].
  destruct (Seller.create_stocks watch ids) as [[stocks|e] rest]; [|by eexists _, _].
  destruct (divide_returns stocks 100 eq_refl) as [chunks ->].
  destruct (send_all _ _ chunks []) as [[u|e] log]; by eexists _, _.
Qed.

Lemma market_upload_stocks_ends g n :
  Market.get_offer_ids market_pages fuel = Some (g, n) ->
  exists r log,
    Market.upload_stocks market_pages market_update date fuel watch warehouse_id
      = Some (r, log).
Proof.
  intros Hget. unfold Market.upload_stocks. rewrite Hget.
  destruct g as [ids|e]; [|by eexists _, _].
  destruct (Market.create_stocks date watch warehouse_id ids) as [[stocks|e] rest];
    [|by eexists _, _].
  destruct (divide_returns stocks 2000 eq_refl) as [chunks ->].
  destruct (send_all _ _ chunks []) as [[u|e] log]; [|by eexists _, _].
  destruct (py_filter Market.count_not_zero stocks); by eexists _, _.
Qed.
End UploadStocks.

(** X11: with fuel for the catalogue loop, [upload_stocks] of either
    marketplace ends when the loop does: it raises what the catalogue
    request raised, having sent nothing, or goes on with the identifiers
    fetched, and when [create_stocks] returns and no call fails it returns
    all entries together with those whose stock is not 0, having sent all
    entries.  What it sends is the entries of [create_stocks] in order, cut
    into calls of [update_stocks] with 1 to 100 entries (2000 for the
    market), never an empty one; when [get_offer_ids] or [create_stocks]
    raises, nothing is sent; when a call fails, the calls made carry a
    beginning of the entries and no later call is made; each returned entry
    whose stock is not 0 carries a code of the feed. *)
Theorem upload_stocks_outcome
    (seller_pages : nat -> string -> result Seller.page)
    (seller_update : list Seller.request -> list Seller.stock_entry -> result unit)
    (market_pages : nat -> option string -> result Market.offers_page)
    (market_update : list Market.request -> list Market.stock_entry -> result unit)
    (fuel : nat) (watch : list dict) (date warehouse_id : string) :
  (forall n, (n < fuel)%nat ->
     (forall j, (j < n)%nat -> Seller.running seller_pages j) ->
     (forall e, Seller.fetched seller_pages n = Raise e ->
        Seller.upload_stocks seller_pages seller_update fuel watch = Some (Raise e, [])) /\
     (forall items p, Seller.fetched seller_pages n = Ok (items, p) ->
        Seller.total p = Z.of_nat (length items) ->
        exists r sent,
          Seller.upload_stocks seller_pages seller_update fuel watch
            = Some (r, Seller.UpdateStocks <$> sent) /\
          forall stocks rest,
            Seller.create_stocks watch (Seller.product_offer_id <$> items)
              = (Ok stocks, rest) ->
            (forall log c, is_ok (seller_update log c)) ->
            r = Ok (filter (fun s => Seller.stock s <> 0) stocks, stocks) /\
            concat sent = stocks)) /\
  (forall r log,
     Seller.upload_stocks seller_pages seller_update fuel watch = Some (r, log) ->
     exists sent,
       log = Seller.UpdateStocks <$> sent /\
       Forall (fun c => (1 <= length c <= 100)%nat) sent /\
       (forall e n, Seller.get_offer_ids seller_pages fuel = Some (Raise e, n) ->
          r = Raise e /\ sent = []) /\
       (forall ids n, Seller.get_offer_ids seller_pages fuel = Some (Ok ids, n) ->
          match Seller.create_stocks watch ids with
          | (Raise e, _) => r = Raise e /\ sent = []
          | (Ok stocks, _) =>
              concat sent `prefix_of` stocks /\
              ((forall log c, is_ok (seller_update log c)) -> is_ok r) /\
              (is_ok r ->
                 concat sent = stocks /\
                 r = Ok (filter (fun s => Seller.stock s <> 0) stocks, stocks) /\
                 forall s, s ∈ stocks -> Seller.stock s <> 0 ->
                   Seller.offer_id s ∈ code_of <$> watch)
          end)) /\
  (forall n, (n < fuel)%nat ->
     (forall j, (j < n)%nat -> Market.has_next market_pages j) ->
     (forall e, Market.fetched market_pages n = Raise e ->
        Market.upload_stocks market_pages market_update date fuel watch warehouse_id
          = Some (Raise e, [])) /\
     (forall items p, Market.fetched market_pages n = Ok (items, p) ->
        Market.py_not (Market.nextPageToken p) = true ->
        exists r sent,
          Market.upload_stocks market_pages market_update date fuel watch warehouse_id
            = Some (r, Market.UpdateStocks <$> sent) /\
          forall stocks rest,
            Market.create_stocks date watch warehouse_id (Market.shopSku <$> items)
              = (Ok stocks, rest) ->
            (forall log c, is_ok (market_update log c)) ->
            r = Ok (filter (fun s => Market.count <$> head (Market.items s) <> Some 0)
                      stocks, stocks) /\
            concat sent = stocks)) /\
  (forall r log,
     Market.upload_stocks market_pages market_update date fuel watch warehouse_id
       = Some (r, log) ->
     exists sent,
       log = Market.UpdateStocks <$> sent /\
       Forall (fun c => (1 <= length c <= 2000)%nat) sent /\
       (forall e n, Market.get_offer_ids market_pages fuel = Some (Raise e, n) ->
          r = Raise e /\ sent = []) /\
       (forall ids n, Market.get_offer_ids market_pages fuel = Some (Ok ids, n) ->
          match Market.create_stocks date watch warehouse_id ids with
          | (Raise e, _) => r = Raise e /\ sent = []
          | (Ok stocks, _) =>
              concat sent `prefix_of` stocks /\
              ((forall log c, is_ok (market_update log c)) -> is_ok r) /\
              (is_ok r ->
                 concat sent = stocks /\
                 r = Ok (filter (fun s => Market.count <$> head (Market.items s) <> Some 0)
                           stocks, stocks) /\
                 forall s, s ∈ stocks ->
                   Market.count <$> head (Market.items s) <> Some 0 ->
                   Market.sku s ∈ code_of <$> watch)
          end)).
Proof.
  split_and!.
  - intros n Hn Hrun.
    destruct (seller_get_offer_ids_ends seller_pages fuel n Hn Hrun) as [Hraise Hret].
    split.
    + intros e He. unfold Seller.upload_stocks. by rewrite (Hraise e He).
    + intros items p Hf Ht. specialize (Hret items p Hf Ht).
      destruct (seller_upload_stocks_ends seller_pages seller_update fuel watch _ _ Hret)
        as (r & log & Hup).
      destruct (seller_upload_stocks_sent _ _ _ _ _ _ Hup) as (sent & -> & _ & _ & Hcase).
      exists r, sent. split; [done|]. intros stocks rest Hcs Hall.
      specialize (Hcase _ _ Hret). rewrite Hcs in Hcase.
      destruct Hcase as (_ & Hok & Hfacts).
      destruct (Hfacts (Hok Hall)) as (? & ? & _). done.
  - apply seller_upload_stocks_sent.
  - intros n Hn Hrun.
    destruct (market_get_offer_ids_ends market_pages fuel n Hn Hrun) as [Hraise Hret].
    split.
    + intros e He. unfold Market.upload_stocks. by rewrite (Hraise e He).
    + intros items p Hf Ht. specialize (Hret items p Hf Ht).
      destruct (market_upload_stocks_ends market_pages market_update fuel watch
                  date warehouse_id _ _ Hret) as (r & log & Hup).
      destruct (market_upload_stocks_sent _ _ _ _ _ _ _ _ Hup)
        as (sent & -> & _ & _ & Hcase).
      exists r, sent. split; [done|]. intros stocks rest Hcs Hall.
      specialize (Hcase _ _ Hret). rewrite Hcs in Hcase.
      destruct Hcase as (_ & Hok & Hfacts).
      destruct (Hfacts (Hok Hall)) as (? & ? & _). done.
  - apply market_upload_stocks_sent.
Qed.

Lemma upload_stocks_outcome_witness :
  exists sent,
    Seller.upload_stocks sample_server (fun _ _ => Ok tt) 3 [listed_watch]
      = Some (Ok ([seller_stock "a" 5],
                  [seller_stock "a" 5; seller_stock "b" 0; seller_stock "c" 0]),
              Seller.UpdateStocks <$> sent) /\
    concat sent = [seller_stock "a" 5; seller_stock "b" 0; seller_stock "c" 0].
Proof.
  destruct (upload_stocks_outcome sample_server (fun _ _ => Ok tt)
              sample_market_server (fun _ _ => Ok tt) 3 [listed_watch] "" "")
    as [Hs _].
  destruct (Hs 1%nat) as [_ Hret].
  - lia.
  - intros j Hj. replace j with 0%nat by lia. eexists _, _. split; [reflexivity|done].
  - destruct (Hret _ _ eq_refl eq_refl) as (r & sent & Hup & Hall).
    destruct (Hall [seller_stock "a" 5; seller_stock "b" 0; seller_stock "c" 0]
                ["b"; "c"] eq_refl (fun _ _ => I)) as [-> Hcat].
    exists sent. split; [exact Hup|exact Hcat].
Defined.

Lemma prices_none_matched {P : Type} (mk : dict -> result P) watch ids :
  (forall w, w ∈ watch -> code_of w ∉ ids) ->
  for_each (prices_body mk) watch [] ids = (Ok [], ids).
Proof.
  intros Hnone.
  destruct (for_each (prices_body mk) watch [] ids) as [r ids'] eqn:Hrun.
  pose proof (prices_loop_store mk watch [] ids) as Hst. rewrite Hrun in Hst.
  simpl in Hst. subst ids'. f_equal.
  destruct (prices_loop_total mk watch [] ids) as [prices Hp].
  { intros w Hw Hin. by destruct (Hnone w Hw). }
  rewrite Hrun in Hp. simpl in Hp. subst r. f_equal.
  destruct prices as [|p ps]; [done|].
  assert (Hq : fst (for_each (prices_body mk) watch [] ids) = Ok (p :: ps))
    by by rewrite Hrun.
  destruct (prices_loop_ok mk _ _ _ _ Hq) as (_ & Honly & _).
  destruct (Honly p ltac:(by left)) as [Ha|(w & Hw & Hin & _)].
  - by apply elem_of_nil in Ha.
  - by destruct (Hnone w Hw).
Qed.

Lemma unmatched_no_code watch ids w :
  w ∈ watch -> code_of w ∉ unmatched watch ids.
Proof.
  intros Hw Hin. apply list_elem_of_filter in Hin as [Hn _].
  apply Hn. by apply list_elem_of_fmap_2.
Qed.

Lemma seller_prices_after_stocks watch ids stocks rest :
  NoDup ids -> Seller.create_stocks watch ids = (Ok stocks, rest) ->
  Seller.create_prices watch rest = (Ok [], rest).
Proof.
  intros Hnd Hrun. rewrite seller_create_stocks_with in Hrun.
  rewrite (create_stocks_with_rest _ _ _ _ _ Hnd Hrun).
  rewrite seller_create_prices_with. apply prices_none_matched.
  intros w Hw. by apply unmatched_no_code.
Qed.

Section UploadPrices.
Variable seller_pages : nat -> string -> result Seller.page.
Variable seller_update : list Seller.request -> list Seller.price_entry -> result unit.
Variable market_pages : nat -> option string -> result Market.offers_page.
Variable market_update : list Market.request -> list Market.price_entry -> result unit.
Variables (fuel : nat) (watch : list dict).

Lemma seller_upload_prices_sent r log :
  Seller.upload_prices seller_pages seller_update fuel watch = Some (r, log) ->
  exists sent,
    log = Seller.UpdatePrice <$> sent /\
    Forall (fun c => (1 <= length c <= 1000)%nat) sent /\
    (forall e n, Seller.get_offer_ids seller_pages fuel = Some (Raise e, n) ->
       r = Raise e /\ sent = []) /\
    (forall ids n, Seller.get_offer_ids seller_pages fuel = Some (Ok ids, n) ->
       match fst (Seller.create_prices watch ids) with
       | Raise e => r = Raise e /\ sent = []
       | Ok prices =>
           concat sent `prefix_of` prices /\
           ((forall log c, is_ok (seller_update log c)) -> is_ok r) /\
           (is_ok r -> concat sent = prices /\ r = Ok prices) /\
           ((forall w, w ∈ watch -> code_of w ∉ ids) -> sent = [])
       end).
Proof.
  unfold Seller.upload_prices.
  destruct (Seller.get_offer_ids seller_pages fuel) as [[[ids|e] n]|] eqn:Hget;
    [|intros [= <- <-]; exists []; split_and!; [done..| |];
       [by intros e' n' [= <- <-]|by intros ids' n' [=]]|done].
  destruct (Seller.create_prices watch ids) as [[prices|e] rest] eqn:Hcp.
  2:{ intros [= <- <-]. exists []. split_and!; [done..| |]; [by intros e' n' [=]|].
      intros ids' n' [= <- <-]. by rewrite Hcp. }
  destruct (divide_returns prices 1000 eq_refl) as [chunks Hd]. rewrite Hd.
  destruct (send_all seller_update Seller.UpdatePrice chunks []) as [r0 log0] eqn:Hsend.
  destruct (send_divided _ _ _ 1000 _ _ _ _ eq_refl Hd Hsend)
    as (sent & Hlog & Hsz & Hpre & Hall & Hnil).
  assert (Hok0 : (forall log c, is_ok (seller_update log c)) -> is_ok r0).
  { intros Hup. pose proof (send_all_succeeds seller_update Seller.UpdatePrice
                              chunks [] Hup) as H. by rewrite Hsend in H. }
  intros Hr. exists sent. split_and!.
  - destruct r0; injection Hr as <- <-; done.
  - eapply Forall_impl; [exact Hsz|]. intros c [? ?]. lia.
  - intros e' n' [=].
  - intros ids' n' [= <- <-]. rewrite Hcp. simpl. split_and!; [done| | |].
    + intros Hup. specialize (Hok0 Hup). destruct r0; [|done]. by injection Hr as <- _.
    + intros Hok. destruct r0 as [u|e0]; [|by injection Hr as <- _].
      injection Hr as <- _. split; [by apply Hall|done].
    + intros Hnone. apply Hnil.
      rewrite seller_create_prices_with, (prices_none_matched _ _ _ Hnone) in Hcp.
      by injection Hcp as <- _.
Qed.

Lemma market_upload_prices_sent r log :
  Market.upload_prices market_pages market_update fuel watch = Some (r, log) ->
  exists sent,
    log = Market.UpdatePrice <$> sent /\
    Forall (fun c => (1 <= length c <= 500)%nat) sent /\
    (forall e n, Market.get_offer_ids market_pages fuel = Some (Raise e, n) ->
       r = Raise e /\ sent = []) /\
    (forall ids n, Market.get_offer_ids market_pages fuel = Some (Ok ids, n) ->
       match fst (Market.create_prices watch ids) with
       | Raise e => r = Raise e /\ sent = []
       | Ok prices =>
           concat sent `prefix_of` prices /\
           ((forall log c, is_ok (market_update log c)) -> is_ok r) /\
           (is_ok r -> concat sent = prices /\ r = Ok prices) /\
           ((forall w, w ∈ watch -> code_of w ∉ ids) -> sent = [])
       end).
Proof.
  unfold Market.upload_prices.
  destruct (Market.get_offer_ids market_pages fuel) as [[[ids|e] n]|] eqn:Hget;
    [|intros [= <- <-]; exists []; split_and!; [done..| |];
       [by intros e' n' [= <- <-]|by intros ids' n' [=]]|done].
  destruct (Market.create_prices watch ids) as [[prices|e] rest] eqn:Hcp.
  2:{ intros [= <- <-]. exists []. split_and!; [done..| |]; [by intros e' n' [=]|].
      intros ids' n' [= <- <-]. by rewrite Hcp. }
  destruct (divide_returns prices 500 eq_refl) as [chunks Hd]. rewrite Hd.
  destruct (send_all market_update Market.UpdatePrice chunks []) as [r0 log0] eqn:Hsend.
  destruct (send_divided _ _ _ 500 _ _ _ _ eq_refl Hd Hsend)
    as (sent & Hlog & Hsz & Hpre & Hall & Hnil).
  assert (Hok0 : (forall log c, is_ok (market_update log c)) -> is_ok r0).
  { intros Hup. pose proof (send_all_succeeds market_update Market.UpdatePrice
                              chunks [] Hup) as H. by rewrite Hsend in H. }
  intros Hr. exists sent. split_and!.
  - destruct r0; injection Hr as <- <-; done.
  - eapply Forall_impl; [exact Hsz|]. intros c [? ?]. lia.
  - intros e' n' [=].
  - intros ids' n' [= <- <-]. rewrite Hcp. simpl. split_and!; [done| | |].
    + intros Hup. specialize (Hok0 Hup). destruct r0; [|done]. by injection Hr as <- _.
    + intros Hok. destruct r0 as [u|e0]; [|by injection Hr as <- _].
      injection Hr as <- _. split; [by apply Hall|done].
    + intros Hnone. apply Hnil.
      rewrite market_create_prices_with, (prices_none_matched _ _ _ Hnone) in Hcp.
      by injection Hcp as <- _.
Qed.

(** Once the catalogue loop has ended, so does [upload_prices]. *)
Lemma seller_upload_prices_ends g n :
  Seller.get_offer_ids seller_pages fuel = Some (g, n) ->
  exists r log, Seller.upload_prices seller_pages seller_update fuel watch = Some (r, log).
Proof.
  intros Hget. unfold Seller.upload_prices. rewrite Hget.
  destruct g as [ids|e]; [|by eexists _, _].
  destruct (Seller.create_prices watch ids) as [[prices|e] rest]; [|by eexists _, _].
  destruct (divide_returns prices 1000 eq_refl) as [chunks ->].
  destruct (send_all _ _ chunks []) as [[u|e] log]; by eexists _, _.
Qed.

Lemma market_upload_prices_ends g n :
  Market.get_offer_ids market_pages fuel = Some (g, n) ->
  exists r log, Market.upload_prices market_pages market_update fuel watch = Some (r, log).
Proof.
  intros Hget. unfold Market.upload_prices. rewrite Hget.
  destruct g as [ids|e]; [|by eexists _, _].
  destruct (Market.create_prices watch ids) as [[prices|e] rest]; [|by eexists _, _].
  destruct (divide_returns prices 500 eq_refl) as [chunks ->].
  destruct (send_all _ _ chunks []) as [[u|e] log]; by eexists _, _.
Qed.
End UploadPrices.

(** X12: with fuel for the catalogue loop, [upload_prices] of either
    marketplace ends when the loop does: it raises what the catalogue
    request raised, having sent nothing, or goes on with the identifiers
    fetched, and when [create_prices] returns and no call fails it returns
    the prices, having sent them all.  What it sends is the prices of
    [create_prices] in order, cut into calls of [update_price] with 1 to
    1000 prices (500 for the market), never an empty one: when no code of
    the feed is in the catalogue no call is made at all; when
    [get_offer_ids] or [create_prices] raises, nothing is sent; when a call
    fails, the calls made carry a beginning of the prices and no later call
    is made. *)
Theorem upload_prices_outcome
    (seller_pages : nat -> string -> result Seller.page)
    (seller_update : list Seller.request -> list Seller.price_entry -> result unit)
    (market_pages : nat -> option string -> result Market.offers_page)
    (market_update : list Market.request -> list Market.price_entry -> result unit)
    (fuel : nat) (watch : list dict) :
  (forall n, (n < fuel)%nat ->
     (forall j, (j < n)%nat -> Seller.running seller_pages j) ->
     (forall e, Seller.fetched seller_pages n = Raise e ->
        Seller.upload_prices seller_pages seller_update fuel watch = Some (Raise e, [])) /\
     (forall items p, Seller.fetched seller_pages n = Ok (items, p) ->
        Seller.total p = Z.of_nat (length items) ->
        exists r sent,
          Seller.upload_prices seller_pages seller_update fuel watch
            = Some (r, Seller.UpdatePrice <$> sent) /\
          forall prices,
            fst (Seller.create_prices watch (Seller.product_offer_id <$> items))
              = Ok prices ->
            (forall log c, is_ok (seller_update log c)) ->
            r = Ok prices /\ concat sent = prices)) /\
  (forall r log,
     Seller.upload_prices seller_pages seller_update fuel watch = Some (r, log) ->
   exists sent,
       log = Seller.UpdatePrice <$> sent /\
       Forall (fun c => (1 <= length c <= 1000)%nat) sent /\
       (forall e n, Seller.get_offer_ids seller_pages fuel = Some (Raise e, n) ->
          r = Raise e /\ sent = []) /\
       (forall ids n, Seller.get_offer_ids seller_pages fuel = Some (Ok ids, n) ->
          match fst (Seller.create_prices watch ids) with
          | Raise e => r = Raise e /\ sent = []
          | Ok prices =>
              concat sent `prefix_of` prices /\
              ((forall log c, is_ok (seller_update log c)) -> is_ok r) /\
              (is_ok r -> concat sent = prices /\ r = Ok prices) /\
              ((forall w, w ∈ watch -> code_of w ∉ ids) -> sent = [])
          end)) /\
  (forall n, (n < fuel)%nat ->
     (forall j, (j < n)%nat -> Market.has_next market_pages j) ->
     (forall e, Market.fetched market_pages n = Raise e ->
        Market.upload_prices market_pages market_update fuel watch = Some (Raise e, [])) /\
     (forall items p, Market.fetched market_pages n = Ok (items, p) ->
        Market.py_not (Market.nextPageToken p) = true ->
        exists r sent,
          Market.upload_prices market_pages market_update fuel watch
            = Some (r, Market.UpdatePrice <$> sent) /\
          forall prices,
            fst (Market.create_prices watch (Market.shopSku <$> items)) = Ok prices ->
            (forall log c, is_ok (market_update log c)) ->
            r = Ok prices /\ concat sent = prices)) /\
  (forall r log,
     Market.upload_prices market_pages market_update fuel watch = Some (r, log) ->
   exists sent,
       log = Market.UpdatePrice <$> sent /\
       Forall (fun c => (1 <= length c <= 500)%nat) sent /\
       (forall e n, Market.get_offer_ids market_pages fuel = Some (Raise e, n) ->
          r = Raise e /\ sent = []) /\
       (forall ids n, Market.get_offer_ids market_pages fuel = Some (Ok ids, n) ->
          match fst (Market.create_prices watch ids) with
          | Raise e => r = Raise e /\ sent = []
          | Ok prices =>
              concat sent `prefix_of` prices /\
              ((forall log c, is_ok (market_update log c)) -> is_ok r) /\
              (is_ok r -> concat sent = prices /\ r = Ok prices) /\
              ((forall w, w ∈ watch -> code_of w ∉ ids) -> sent = [])
          end)).
Proof.
  split_and!.
  - intros n Hn Hrun.
    destruct (seller_get_offer_ids_ends seller_pages fuel n Hn Hrun) as [Hraise Hret].
    split.
    + intros e He. unfold Seller.upload_prices. by rewrite (Hraise e He).
    + intros items p Hf Ht. specialize (Hret items p Hf Ht).
      destruct (seller_upload_prices_ends seller_pages seller_update fuel watch _ _ Hret)
        as (r & log & Hup).
      destruct (seller_upload_prices_sent _ _ _ _ _ _ Hup) as (sent & -> & _ & _ & Hcase).
      exists r, sent. split; [done|]. intros prices Hcp Hall.
      specialize (Hcase _ _ Hret). rewrite Hcp in Hcase.
      destruct Hcase as (_ & Hok & Hfacts & _).
      destruct (Hfacts (Hok Hall)) as [? ?]. done.
  - apply seller_upload_prices_sent.
  - intros n Hn Hrun.
    destruct (market_get_offer_ids_ends market_pages fuel n Hn Hrun) as [Hraise Hret].
    split.
    + intros e He. unfold Market.upload_prices. by rewrite (Hraise e He).
    + intros items p Hf Ht. specialize (Hret items p Hf Ht).
      destruct (market_upload_prices_ends market_pages market_update fuel watch _ _ Hret)
        as (r & log & Hup).
      destruct (market_upload_prices_sent _ _ _ _ _ _ Hup) as (sent & -> & _ & _ & Hcase).
      exists r, sent. split; [done|]. intros prices Hcp Hall.
      specialize (Hcase _ _ Hret). rewrite Hcp in Hcase.
      destruct Hcase as (_ & Hok & Hfacts & _).
      destruct (Hfacts (Hok Hall)) as [? ?]. done.
  - apply market_upload_prices_sent.
Qed.

Lemma upload_prices_outcome_witness :
  exists sent,
    Market.upload_prices sample_market_server (fun _ _ => Ok tt) 3 [listed_watch]
      = Some (Ok [ {| Market.id := "a";
                      Market.price := {| Market.value := 12; Market.currencyId := "RUR" |} |} ],
              Market.UpdatePrice <$> sent) /\
    concat sent = [ {| Market.id := "a";
                       Market.price := {| Market.value := 12; Market.currencyId := "RUR" |} |} ].
Proof.
  destruct (upload_prices_outcome sample_server (fun _ _ => Ok tt)
              sample_market_server (fun _ _ => Ok tt) 3 [listed_watch])
    as (_ & _ & Hm & _).
  destruct (Hm 1%nat) as [_ Hret].
  - lia.
  - intros j Hj. replace j with 0%nat by lia. eexists _, _. split; reflexivity.
  - destruct (Hret _ _ eq_refl eq_refl) as (r & sent & Hup & Hall).
    destruct (Hall _ eq_refl (fun _ _ => I)) as [-> Hcat].
    exists sent. split; [exact Hup|exact Hcat].
Defined.



(** ** [main] of seller.py *)

(** X14: the update calls of [main] are calls of [update_stocks] with 1
    to 100 entries each, carrying a beginning of the entries of
    [create_stocks] (all of them once the block gets past the stocks),
    followed by calls of [update_price] with 1 to 900 prices each; nothing
    is sent when the catalogue, the download or [create_stocks] fails; and
    for a duplicate-free catalogue [update_price] is never called. *)
Theorem seller_main_requests
    (get_product_list : nat -> string -> result Seller.page)
    (update_stocks : list Seller.request -> list Seller.stock_entry -> result unit)
    (update_price : list Seller.request -> list Seller.price_entry -> result unit)
    (download_stock : result (list dict))
    (fuel : nat) (r : result unit) (log : list Seller.request) :
  Seller.main get_product_list update_stocks update_price download_stock fuel
    = Some (r, log) ->
  exists sent_stocks sent_prices,
    log = (Seller.UpdateStocks <$> sent_stocks) ++ (Seller.UpdatePrice <$> sent_prices) /\
    Forall (fun c => (1 <= length c <= 100)%nat) sent_stocks /\
    Forall (fun c => (1 <= length c <= 900)%nat) sent_prices /\
    (forall e n, Seller.get_offer_ids get_product_list fuel = Some (Raise e, n) ->
       r = Raise e /\ log = []) /\
    (forall e, download_stock = Raise e -> ~ is_ok r /\ log = []) /\
    (forall ids n watch,
       Seller.get_offer_ids get_product_list fuel = Some (Ok ids, n) ->
       download_stock = Ok watch ->
       match Seller.create_stocks watch ids with
       | (Raise e, _) => r = Raise e /\ log = []
       | (Ok stocks, _) =>
           concat sent_stocks `prefix_of` stocks /\
           (is_ok r -> concat sent_stocks = stocks) /\
           (NoDup ids -> sent_prices = [])
       end).
Proof.
  unfold Seller.main.
  destruct (Seller.get_offer_ids get_product_list fuel) as [[[ids|e] n]|] eqn:Hget;
    [| |done].
  2:{ intros [= <- <-]. exists [], []. split_and!; [done..| | |].
      - by intros e' n' [= <- <-].
      - intros e' _. split; [intros H; exact H|done].
      - by intros ids' n' watch [=]. }
  destruct download_stock as [watch|e] eqn:Hdl.
  2:{ intros [= <- <-]. exists [], []. split_and!; [done..| | |].
      - by intros e' n' [=].
      - intros e' _. split; [intros H; exact H|done].
      - by intros ids' n' watch' _ [=]. }
  destruct (Seller.create_stocks watch ids) as [[stocks|e] rest] eqn:Hcs.
  2:{ intros [= <- <-]. exists [], []. split_and!; [done..| | |].
      - by intros e' n' [=].
      - by intros e' [=].
      - intros ids' n' watch' [= <- <-] [= <-]. by rewrite Hcs. }
  destruct (divide_returns stocks 100 eq_refl) as [chunks Hd]. rewrite Hd.
  destruct (send_all update_stocks Seller.UpdateStocks chunks []) as [r0 log0] eqn:Hsend.
  destruct (send_divided _ _ _ 100 _ _ _ _ eq_refl Hd Hsend)
    as (sent & Hlog & Hsz & Hpre & Hall & _).
  simpl in Hlog. subst log0.
  assert (Hsz' : Forall (fun c => (1 <= length c <= 100)%nat) sent).
  { eapply Forall_impl; [exact Hsz|]. intros c [? ?]. lia. }
  destruct r0 as [u|e0].
  2:{ intros [= <- <-]. exists sent, []. split_and!; [by rewrite app_nil_r|done..| | |].
      - by intros e' n' [=].
      - by intros e' [=].
      - intros ids' n' watch' [= <- <-] [= <-]. rewrite Hcs. split_and!; [done..|].
        intros Hnd. done. }
  specialize (Hall I).
  destruct (Seller.create_prices watch rest) as [[prices|e] rest'] eqn:Hcp.
  2:{ intros [= <- <-]. exists sent, []. split_and!; [by rewrite app_nil_r|done..| | |].
      - by intros e' n' [=].
      - by intros e' [=].
      - intros ids' n' watch' [= <- <-] [= <-]. rewrite Hcs. split_and!; [done..|].
        intros Hnd. done. }
  destruct (divide_returns prices 900 eq_refl) as [pchunks Hpd]. rewrite Hpd.
  intros Hrun. injection Hrun as Hrun.
  destruct (send_divided _ _ _ 900 _ _ _ _ eq_refl Hpd Hrun)
    as (psent & -> & Hpsz & _ & _ & Hnil).
  exists sent, psent. split_and!; [done|done| | | |].
  - eapply Forall_impl; [exact Hpsz|]. intros c [? ?]. lia.
  - by intros e' n' [=].
  - by intros e' [=].
  - intros ids' n' watch' [= <- <-] [= <-]. rewrite Hcs. split_and!; [done..|].
    intros Hnd. apply Hnil.
    rewrite (seller_prices_after_stocks _ _ _ _ Hnd Hcs) in Hcp.
    by injection Hcp as <- _.
Qed.

Lemma seller_main_requests_witness :
  Seller.main sample_server (fun _ _ => Ok tt) (fun _ _ => Ok tt) (Ok [listed_watch]) 3
    = Some (Ok tt,
            [Seller.UpdateStocks
               [seller_stock "a" 5; seller_stock "b" 0; seller_stock "c" 0]]).
Proof.
  destruct (Seller.main sample_server (fun _ _ => Ok tt) (fun _ _ => Ok tt)
              (Ok [listed_watch]) 3) as [[r log]|] eqn:Hrun; [|by vm_compute in Hrun].
  destruct (seller_main_requests _ _ _ _ _ _ _ Hrun)
    as (ss & sp & Hlog & _ & _ & _ & _ & Hcase).
  specialize (Hcase ["a"; "b"; "c"] 2%nat [listed_watch] eq_refl eq_refl).
  assert (Hcs : Seller.create_stocks [listed_watch] ["a"; "b"; "c"] =
                (Ok [seller_stock "a" 5; seller_stock "b" 0; seller_stock "c" 0],
                 ["b"; "c"])) by (by vm_compute).
  rewrite Hcs in Hcase. destruct Hcase as (_ & _ & Hnone).
  rewrite (Hnone ltac:(compute_done)), app_nil_r in Hlog.
  rewrite <- Hrun. by vm_compute.
Defined.

(** ** [main] of market.py *)

Section MarketMain.
Variable get_product_list : string -> nat -> option string -> result Market.offers_page.
Variable update_stocks :
  list (string * Market.request) -> string -> list Market.stock_entry -> result unit.

Lemma update_campaign_stocks_log campaign warehouse date fuel watch log r log' :
  Market.update_campaign_stocks get_product_list update_stocks
    campaign warehouse date fuel watch log = Some (r, log') ->
  exists sent,
    log' = log ++ ((fun c => (campaign, Market.UpdateStocks c)) <$> sent) /\
    Forall (fun c => (1 <= length c <= 2000)%nat) sent /\
    Forall (Forall (fun s => Market.warehouseId s = warehouse)) sent /\
    (forall ids n stocks rest,
       Market.get_offer_ids (get_product_list campaign) fuel = Some (Ok ids, n) ->
       Market.create_stocks date watch warehouse ids = (Ok stocks, rest) ->
       concat sent `prefix_of` stocks /\ (is_ok r -> concat sent = stocks)).
Proof.
  unfold Market.update_campaign_stocks.
  destruct (Market.get_offer_ids (get_product_list campaign) fuel)
    as [[[ids|e] n]|] eqn:Hget; [| |done].
  2:{ intros [= <- <-]. exists []. split_and!; [by rewrite app_nil_r|done..]. }
  destruct (Market.create_stocks date watch warehouse ids) as [[stocks|e] rest] eqn:Hcs.
  2:{ intros [= <- <-]. exists []. split_and!; [by rewrite app_nil_r|done..|].
      intros ids' n' stocks' rest' [= <- <-]. by rewrite Hcs. }
  destruct (divide_returns stocks 2000 eq_refl) as [chunks Hd]. rewrite Hd.
  intros Hrun. injection Hrun as Hrun.
  destruct (send_divided _ _ _ 2000 _ _ _ _ eq_refl Hd Hrun)
    as (sent & -> & Hsz & Hpre & Hall & _).
  exists sent. split_and!; [done| | |].
  - eapply Forall_impl; [exact Hsz|]. intros c [? ?]. lia.
  - pose proof (market_stocks_shape _ _ _ _ _ _ Hcs) as Hshape.
    destruct Hpre as [t Ht]. rewrite Ht in Hshape.
    apply Forall_app in Hshape as [Hshape _].
    clear -Hshape. induction sent as [|c cs IH]; [done|].
    simpl in Hshape. apply Forall_app in Hshape as [Hc Hcs]. constructor; [|by apply IH].
    eapply Forall_impl; [exact Hc|]. by intros s (id & z & ->).
  - intros ids' n' stocks' rest' [= <- <-]. rewrite Hcs. by intros [= <- <-].
Qed.

(** X15: the update calls of [main] of market.py are calls of
    [update_stocks] only: first those for the FBS campaign, then those for
    the DBS campaign, each with 1 to 2000 entries that all carry the
    warehouse of their campaign; a failed download leaves [main] with its
    exception before any call; and a call for DBS is made only after the
    FBS block has sent all its entries. *)
Theorem market_main_requests
    (download_stock : result (list dict))
    (campaign_fbs_id campaign_dbs_id warehouse_fbs_id warehouse_dbs_id : string)
    (date_fbs date_dbs : string) (fuel : nat)
    (out : result (result unit)) (log : list (string * Market.request)) :
  Market.main get_product_list update_stocks download_stock
    campaign_fbs_id campaign_dbs_id warehouse_fbs_id warehouse_dbs_id
    date_fbs date_dbs fuel = Some (out, log) ->
  exists fbs dbs,
    log = ((fun c => (campaign_fbs_id, Market.UpdateStocks c)) <$> fbs) ++
          ((fun c => (campaign_dbs_id, Market.UpdateStocks c)) <$> dbs) /\
    Forall (fun c => (1 <= length c <= 2000)%nat) (fbs ++ dbs) /\
    Forall (Forall (fun s => Market.warehouseId s = warehouse_fbs_id)) fbs /\
    Forall (Forall (fun s => Market.warehouseId s = warehouse_dbs_id)) dbs /\
    (forall e, download_stock = Raise e -> out = Raise e /\ log = []) /\
    (forall watch, download_stock = Ok watch -> exists r, out = Ok r) /\
    (forall watch ids n stocks rest,
       download_stock = Ok watch ->
       Market.get_offer_ids (get_product_list campaign_fbs_id) fuel = Some (Ok ids, n) ->
       Market.create_stocks date_fbs watch warehouse_fbs_id ids = (Ok stocks, rest) ->
       concat fbs `prefix_of` stocks /\ (dbs <> [] -> concat fbs = stocks)).
Proof.
  unfold Market.main. destruct download_stock as [watch|e] eqn:Hdl.
  2:{ intros [= <- <-]. exists [], []. split_and!; [done..| | |].
      - by intros e' [= <-].
      - by intros watch [=].
      - by intros watch ids n stocks rest [=]. }
  destruct (Market.update_campaign_stocks _ _ campaign_fbs_id _ _ _ _ [])
    as [[r1 log1]|] eqn:H1; [|done].
  destruct (update_campaign_stocks_log _ _ _ _ _ _ _ _ H1)
    as (fbs & -> & Hsz1 & Hw1 & Hc1).
  destruct r1 as [u|e1].
  - destruct (Market.update_campaign_stocks _ _ campaign_dbs_id _ _ _ _ _)
      as [[r2 log2]|] eqn:H2; [|done].
    destruct (update_campaign_stocks_log _ _ _ _ _ _ _ _ H2)
      as (dbs & -> & Hsz2 & Hw2 & _).
    intros [= <- <-]. exists fbs, dbs. split_and!; [done| |done|done| | |].
    + by apply Forall_app.
    + by intros e' [=].
    + intros watch' _. by eexists.
    + intros watch' ids n stocks rest [= <-] Hget Hcs.
      destruct (Hc1 _ _ _ _ Hget Hcs) as [Hp Hall]. split; [done|].
      intros _. by apply Hall.
  - intros [= <- <-]. exists fbs, []. split_and!; [by rewrite app_nil_r| |done|done| | |].
    + by rewrite app_nil_r.
    + by intros e' [=].
    + intros watch' _. by eexists.
    + intros watch' ids n stocks rest [= <-] Hget Hcs.
      destruct (Hc1 _ _ _ _ Hget Hcs) as [Hp _]. split; [done|]. by intros [].
Qed.
End MarketMain.

Lemma market_main_requests_witness :
  exists out log,
    Market.main (fun _ => sample_market_server) (fun _ _ _ => Ok tt) (Ok [listed_watch])
      "fbs" "dbs" "w1" "w2" "d1" "d2" 3 = Some (out, log) /\
    log = [("fbs", Market.UpdateStocks
                     [market_stock "w1" "d1" "a" 5; market_stock "w1" "d1" "b" 0;
                      market_stock "w1" "d1" "c" 0]);
           ("dbs", Market.UpdateStocks
                     [market_stock "w2" "d2" "a" 5; market_stock "w2" "d2" "b" 0;
                      market_stock "w2" "d2" "c" 0])] /\
    exists r, out = Ok r.
Proof.
  eexists _, _. split; [by vm_compute|]. split; [reflexivity|].
  destruct (market_main_requests (fun _ => sample_market_server) (fun _ _ _ => Ok tt)
              (Ok [listed_watch]) "fbs" "dbs" "w1" "w2" "d1" "d2" 3 _ _
              ltac:(by vm_compute)) as (_ & _ & _ & _ & _ & _ & _ & Hout & _).
  exact (Hout [listed_watch] eq_refl).
Defined.

(** ** [create_stocks] on a list with repeated identifiers *)

(** X16: whenever [create_stocks] of either marketplace returns, whether
    or not the list of identifiers has repetitions, the identifiers of the
    entries it returns are those of the list up to order, each as many
    times as the list has it, so that there are as many entries as
    elements of the list. *)
Theorem create_stocks_entries_any_list
    (watch : list dict) (ids : list string) (date warehouse_id : string) :
  (forall stocks rest, Seller.create_stocks watch ids = (Ok stocks, rest) ->
     Seller.offer_id <$> stocks ≡ₚ ids /\ length stocks = length ids) /\
  (forall stocks rest,
     Market.create_stocks date watch warehouse_id ids = (Ok stocks, rest) ->
     Market.sku <$> stocks ≡ₚ ids /\ length stocks = length ids).
Proof.
  split; intros stocks rest Hrun.
  - rewrite seller_create_stocks_with in Hrun.
    pose proof (create_stocks_with_keys seller_stock Seller.offer_id
                  (fun _ _ => eq_refl) _ _ _ _ Hrun) as Hk.
    split; [done|]. by rewrite <- (length_fmap Seller.offer_id), Hk.
  - rewrite market_create_stocks_with in Hrun.
    pose proof (create_stocks_with_keys (market_stock warehouse_id date) Market.sku
                  (fun _ _ => eq_refl) _ _ _ _ Hrun) as Hk.
    split; [done|]. by rewrite <- (length_fmap Market.sku), Hk.
Qed.

Lemma create_stocks_entries_any_list_witness :
  exists stocks rest,
    Seller.create_stocks [listed_watch; listed_watch] ["a"; "b"; "a"] = (Ok stocks, rest) /\
    length stocks = 3%nat.
Proof.
  eexists _, _. split; [by vm_compute|].
  destruct (create_stocks_entries_any_list [listed_watch; listed_watch] ["a"; "b"; "a"]
              "" "") as [Hs _].
  exact (proj2 (Hs _ _ ltac:(by vm_compute))).
Defined.
